(** * Nicholson-Prinz-2020: the Trainer factory and the source-data aggregation script

    A shallow embedding of

    - [src/searchnets/classes/trainer.py] ([Trainer.from_config]), and
    - [src/scripts/experiment-1-searchstims/generate_source_data_csv.py] ([main]),

    followed by the properties proved about them.

    Conventions of the embedding.
    - Python exceptions are values of [exn]; code that can raise returns a
      [result].
    - Functions of other modules (the [nets] builders, [torch.optim], the
      [Trainer] constructor inherited from [AbstractTrainer],
      [searchnets.analysis.searchstims.results_gz_to_df], the file system) are
      fields of an environment record: every theorem holds whatever they do.
    - The [float] columns of the data frames hold finite doubles, each given
      by its exact rational value ([Q]), so that the comparisons of [Q] are
      the comparisons of the doubles; there is no NaN.  What double
      arithmetic rounds, the aggregation ['mean'] and the difference of two
      floats, is a parameter ([Pandas.arithmetic]): every theorem holds
      whatever the rounding.  A missing cell of the pivot table is [None].
    - A path is the text that [str] gives for it; what [pathlib] makes of a
      text ([Path], [repr], [glob]) is part of the environment. *)

From Stdlib Require Import Bool List String Ascii ZArith QArith Lia Lqa.
From Stdlib Require Import Permutation Sorted.
Import ListNotations.

Local Open Scope Z_scope.
Local Open Scope list_scope.

Notation "s1 +++ s2" := (String.append s1 s2)
  (at level 60, right associativity) : list_scope.

(** ** Python: exceptions and results *)

Module Py.

(** The exceptions the two files can end in.  [Propagated callee detail] is an
    exception raised inside a callee defined elsewhere, of whatever class,
    named by the callee. *)
Inductive exn : Type :=
| NotADirectoryError (msg : string)
| ValueError (msg : string)
| KeyError (msg : string)
| IndexError (msg : string)
| TypeError (keyword : string)
| UnboundLocalError (variable : string)
| Propagated (callee : string) (detail : string).

Inductive result (A : Type) : Type :=
| Ok (a : A)
| Raise (e : exn).

Arguments Ok {A} a.
Arguments Raise {A} e.

Definition bind {A B : Type} (r : result A) (k : A -> result B) : result B :=
  match r with
  | Ok a => k a
  | Raise e => Raise e
  end.

(** [for x in l: acc = body acc x], stopping at the first exception. *)
Fixpoint for_each {A S : Type} (l : list A) (body : S -> A -> result S) (acc : S)
  : result S :=
  match l with
  | [] => Ok acc
  | x :: l' => bind (body acc x) (for_each l' body)
  end.

(** The results of [f] on the elements of [l], up to the first exception. *)
Fixpoint traverse {A B : Type} (f : A -> result B) (l : list A) : result (list B) :=
  match l with
  | [] => Ok []
  | x :: l' =>
      bind (f x) (fun y => bind (traverse f l') (fun ys => Ok (y :: ys)))
  end.

(** [x in l] for a list of strings. *)
Definition str_in (x : string) (l : list string) : bool :=
  existsb (String.eqb x) l.

(** [sub in s] for strings: [sub] occurs in [s] as a substring. *)
Fixpoint contains (sub s : string) : bool :=
  String.prefix sub s ||
  match s with
  | EmptyString => false
  | String _ s' => contains sub s'
  end.

(** [repr] of a string without quotes, backslashes or control characters in
    it (the constants of the script are such), and of a list, given the
    [repr] of its items. *)
Definition repr_str (s : string) : string := "'" +++ s +++ "'".

Definition repr_list (items : list string) : string :=
  "[" +++ String.concat ", " items +++ "]".

End Py.

Import Py.

Declare Scope result_scope.
Delimit Scope result_scope with result.
Notation "x <- c1 ;; c2" := (Py.bind c1 (fun x => c2))
  (at level 61, c1 at next level, right associativity) : result_scope.

Bind Scope result_scope with Py.result.
Local Open Scope result_scope.

(** ** [searchnets/classes/trainer.py] *)

Module Trainer.

Section FromConfig.

(** Values built elsewhere: a network, the iterator over its parameters, a
    torch optimizer, the trainer object, and whatever else the caller passes
    through the keyword dictionary [kwargs]. *)
Context {Model Params Optimizer TrainerObj Extra : Type}.

(** The values a keyword argument passed on to [cls] can hold. *)
Inductive pyobj : Type :=
| PStr (s : string)
| PModel (m : Model)
| POptimizers (l : list Optimizer)
| PExtra (v : Extra).

(** A [dict] of keyword arguments, in insertion order. *)
Definition dict : Type := list (string * pyobj).

(** What [from_config] calls: [nets.alexnet.build], [nets.vgg16.build],
    [nets.cornet.build] (each with [pretrained] and [num_classes]),
    [model.parameters()], the three [torch.optim] constructors and [cls], the
    class the factory is called on. *)
Record externals : Type := {
  nets_alexnet_build : bool -> Z -> result Model;
  nets_vgg16_build : bool -> Z -> result Model;
  nets_cornet_build : bool -> Z -> result Model;
  parameters : Model -> result Params;
  torch_optim_SGD : Params -> Q -> Q -> result Optimizer;
  torch_optim_Adam : Params -> Q -> result Optimizer;
  torch_optim_AdamW : Params -> Q -> result Optimizer;
  cls : dict -> result TrainerObj
}.

Variable ext : externals.

(** Reading a local variable that an [if]/[elif] chain may have left
    unassigned. *)
Definition local {A : Type} (name : string) (v : option A) : result A :=
  match v with
  | Some a => Ok a
  | None => Raise (UnboundLocalError name)
  end.

(** [dict] called on the unpacked [kwargs] followed by named keywords: a
    keyword given twice is a [TypeError]. *)
Definition dict_kw (kwargs named : dict) : result dict :=
  match find (fun kv => str_in (fst kv) (map fst kwargs)) named with
  | Some (k, _) => Raise (TypeError k)
  | None => Ok (kwargs ++ named)
  end.

(** Lines 54-59: the [if]/[elif] chain on [net_name]; there is no [else]. *)
Definition select_model (net_name : string) (num_classes : Z)
  : result (option Model) :=
  if (net_name =? "alexnet")%string then
    m <- nets_alexnet_build ext false num_classes ;; Ok (Some m)
  else if (net_name =? "VGG16")%string then
    m <- nets_vgg16_build ext false num_classes ;; Ok (Some m)
  else if (net_name =? "CORnet_Z")%string then
    m <- nets_cornet_build ext false num_classes ;; Ok (Some m)
  else Ok None.

(** Lines 61-74: [optimizers = list()] and the chain on [optimizer]. *)
Definition build_optimizers (model : option Model) (optimizer : string)
    (learning_rate momentum : Q) : result (list Optimizer) :=
  let optimizers := [] in
  if (optimizer =? "SGD")%string then
    m <- local "model" model ;;
    p <- parameters ext m ;;
    o <- torch_optim_SGD ext p learning_rate momentum ;;
    Ok (optimizers ++ [o])
  else if (optimizer =? "Adam")%string then
    m <- local "model" model ;;
    p <- parameters ext m ;;
    o <- torch_optim_Adam ext p learning_rate ;;
    Ok (optimizers ++ [o])
  else if (optimizer =? "AdamW")%string then
    m <- local "model" model ;;
    p <- parameters ext m ;;
    o <- torch_optim_AdamW ext p learning_rate ;;
    Ok (optimizers ++ [o])
  else Ok optimizers.

(** Lines 76-78: the keyword values are read left to right, then merged, then
    [cls] is called. *)
Definition construct (net_name : string) (model : option Model)
    (optimizers : list Optimizer) (kwargs : dict) : result TrainerObj :=
  m <- local "model" model ;;
  kwargs' <- dict_kw kwargs [("net_name"%string, PStr net_name);
                             ("model"%string, PModel m);
                             ("optimizers"%string, POptimizers optimizers)] ;;
  cls ext kwargs'.

(** [Trainer.from_config]; [loss_func] is accepted and never read. *)
Definition from_config (net_name : string) (num_classes : Z)
    (loss_func optimizer : string) (learning_rate momentum : Q)
    (kwargs : dict) : result TrainerObj :=
  model <- select_model net_name num_classes ;;
  optimizers <- build_optimizers model optimizer learning_rate momentum ;;
  construct net_name model optimizers kwargs.

End FromConfig.

Arguments pyobj : clear implicits.
Arguments dict : clear implicits.
Arguments externals : clear implicits.

(** The three names with a branch in lines 54-59. *)
Definition built_nets : list string := ["alexnet"; "VGG16"; "CORnet_Z"]%string.

(** The three names with a branch in lines 61-74. *)
Definition known_optimizers : list string := ["SGD"; "Adam"; "AdamW"]%string.

(** The keywords that line 76 adds to [kwargs]. *)
Definition added_keywords : list string := ["net_name"; "model"; "optimizers"]%string.

(** A symbolic environment: every external call returns the term that names
    it, so a result shows which calls produced it. *)
Module Symbolic.

Inductive model : Type :=
| Alexnet (pretrained : bool) (num_classes : Z)
| Vgg16 (pretrained : bool) (num_classes : Z)
| Cornet (pretrained : bool) (num_classes : Z).

Inductive params : Type := ParametersOf (m : model).

Inductive optimizer : Type :=
| SGD (p : params) (lr momentum : Q)
| Adam (p : params) (lr : Q)
| AdamW (p : params) (lr : Q).

Inductive trainer : Type :=
| TrainerOf (kwargs : dict model optimizer unit).

Definition ext : externals model params optimizer trainer unit := {|
  nets_alexnet_build := fun pre n => Ok (Alexnet pre n);
  nets_vgg16_build := fun pre n => Ok (Vgg16 pre n);
  nets_cornet_build := fun pre n => Ok (Cornet pre n);
  parameters := fun m => Ok (ParametersOf m);
  torch_optim_SGD := fun p lr mo => Ok (SGD p lr mo);
  torch_optim_Adam := fun p lr => Ok (Adam p lr);
  torch_optim_AdamW := fun p lr => Ok (AdamW p lr);
  cls := fun kw => Ok (TrainerOf kw)
|}.

End Symbolic.

End Trainer.

(** ** The pandas operations the script uses *)

Module Pandas.

(** [Series.unique()]: the distinct values in order of first appearance. *)
Fixpoint unique {A : Type} (eqb : A -> A -> bool) (l : list A) : list A :=
  match l with
  | [] => []
  | x :: l' => x :: filter (fun y => negb (eqb x y)) (unique eqb l')
  end.

(** [sort_values] and the ordering of groups: a stable sort, in which
    [leb a b] says that [a] may stand before [b].  pandas leaves the order of
    rows of equal keys to the sorting algorithm; no property below depends on
    it. *)
Fixpoint insert {A : Type} (leb : A -> A -> bool) (x : A) (l : list A) : list A :=
  match l with
  | [] => [x]
  | y :: l' => if leb x y then x :: l else y :: insert leb x l'
  end.

Fixpoint sort {A : Type} (leb : A -> A -> bool) (l : list A) : list A :=
  match l with
  | [] => []
  | x :: l' => insert leb x (sort leb l')
  end.

(** Double arithmetic, as far as the script uses it: the aggregation
    ['mean'] of a column of floats and the difference of two floats.  Both
    round, and how the mean is summed is up to pandas; the values they give
    are doubles again. *)
Class arithmetic : Type := {
  mean : list Q -> Q;
  minus : Q -> Q -> Q
}.

(** The arithmetic that does not round: the sum of the values over their
    number, and the difference. *)
Definition total (l : list Q) : Q := fold_right Qplus 0%Q l.

Definition exact_mean (l : list Q) : Q :=
  (total l / inject_Z (Z.of_nat (List.length l)))%Q.

Definition exact : arithmetic := {| mean := exact_mean; minus := Qminus |}.

(** [ndarray.item()]: the one element of an array of size one. *)
Definition item (values : list Q) : result Q :=
  match values with
  | [x] => Ok x
  | _ => Raise (ValueError "can only convert an array of size 1 to a Python scalar")
  end.

(** [pd.concat]: the rows of the frames one after the other; an empty list of
    frames is refused. *)
Definition concat {A : Type} (frames : list (list A)) : result (list A) :=
  match frames with
  | [] => Raise (ValueError "No objects to concatenate")
  | _ => Ok (List.concat frames)
  end.

(** The first value stored under a label, as a row or column lookup does it. *)
Fixpoint lookup {V : Type} (label : string) (l : list (string * V)) : option V :=
  match l with
  | [] => None
  | (k, v) :: l' => if (k =? label)%string then Some v else lookup label l'
  end.

(** A frame whose row and column labels are strings and whose cells may be
    missing: the result of [pivot_table]. *)
Record pivot : Type := {
  index : list string;
  columns : list string;
  data : list (list (option Q))
}.

(** The cell at a row label and a column label; [None] when the cell is
    missing or there is no such row or column. *)
Definition cell (pv : pivot) (row col : string) : option Q :=
  match lookup row (combine (index pv) (data pv)) with
  | Some cells =>
      match lookup col (combine (columns pv) cells) with
      | Some c => c
      | None => None
      end
  | None => None
  end.

(** [DataFrame.to_records()] on a frame whose index is named [index_name],
    read back by [pd.DataFrame] and [set_index]: the index becomes a field
    beside the columns, and numpy refuses two fields of one name. *)
Definition through_records (index_name : string) (pv : pivot) : result pivot :=
  if str_in index_name (columns pv) then
    Raise (ValueError "name already used as a name or title")
  else Ok pv.

(** [DataFrame.reindex(labels)]: the rows in the order of [labels]; a label
    that is not in the index gets a row of missing cells. *)
Definition reindex (labels : list string) (pv : pivot) : pivot :=
  {| index := labels;
     columns := columns pv;
     data := map (fun l =>
                    match lookup l (combine (index pv) (data pv)) with
                    | Some cells => cells
                    | None => map (fun _ => None) (columns pv)
                    end) labels |}.

(** [df[labels]]: the columns in the order of [labels]; a label that is not a
    column is a [KeyError]. *)
Definition select_columns (labels : list string) (pv : pivot) : result pivot :=
  match find (fun l => negb (str_in l (columns pv))) labels with
  | Some l => Raise (KeyError l)
  | None =>
      Ok {| index := index pv;
            columns := labels;
            data := map (fun cells =>
                           map (fun l =>
                                  match lookup l (combine (columns pv) cells) with
                                  | Some c => c
                                  | None => None
                                  end) labels) (data pv) |}
  end.

End Pandas.

(** ** [scripts/experiment-1-searchstims/generate_source_data_csv.py] *)

Module GenerateSourceDataCsv.

Import Pandas.

(** *** Tables

    One record per frame, with the columns the script reads or creates. *)

(** A row of a frame returned by [results_gz_to_df], and so of [df_all]. *)
Record row : Type := {
  net_name : string;
  method : string;
  stimulus : string;
  set_size : Z;
  accuracy : Q
}.

(** A row of [df_transfer_acc_mn]. *)
Record mn_row : Type := {
  mn_net_name : string;
  mn_stimulus : string;
  mn_set_size : Z;
  mn_accuracy : Q
}.

(** A row of [df_acc_diff]. *)
Record acc_diff_row : Type := {
  ad_net_name : string;
  ad_stimulus : string;
  set_size_1_acc : Q;
  set_size_8_acc : Q;
  acc_diff : Q
}.

(** A row of [stim_acc_diff_df]. *)
Record stim_row : Type := {
  st_stimulus : string;
  st_acc_diff : Q;
  st_set_size_1_acc : Q
}.

(** A row of [net_acc_diff_df]. *)
Record net_row : Type := {
  nt_net_name : string;
  nt_acc_diff : Q
}.

(** What a csv file holds. *)
Inductive csv : Type :=
| CsvAll (df : list row)
| CsvAccDiff (df : list acc_diff_row)
| CsvStimAccDiff (df : list stim_row)
| CsvNetAccDiff (df : list net_row)
| CsvAccDiffByStim (df : pivot).

(** *** The process: what it is given and what it does *)

(** The parameters of [main]. *)
Record args : Type := {
  results_gz_root : string;
  source_data_root : string;
  all_csv_filename : string;
  acc_diff_csv_filename : string;
  stim_acc_diff_csv_filename : string;
  net_acc_diff_csv_filename : string;
  acc_diff_by_stim_csv_filename : string;
  net_names : list string;
  methods : list string;
  modes : list string;
  alexnet_split_csv_path : string;
  VGG16_split_csv_path : string;
  learning_rate : Q
}.

(** One call of [searchnets.analysis.searchstims.results_gz_to_df]. *)
Record read_call : Type := {
  rc_results_gz_path : string;
  rc_csv_path : string;
  rc_net_name : string;
  rc_method : string;
  rc_mode : string;
  rc_learning_rate : Q
}.

(** The surroundings of a run: [str(Path(text))], [root.joinpath(name)], the
    [repr] of a path, [Path.exists], [sorted(root.glob(pattern))] (the paths
    found, or the text of the exception when [glob] raises, as it does for a
    pattern with two asterisks inside a component), [results_gz_to_df] (its
    frame, or the text of the exception it ends in) and, for [to_csv], the
    text of the exception when a file cannot be written. *)
Record env : Type := {
  path_str : string -> string;
  joinpath : string -> string -> string;
  path_repr : string -> string;
  path_exists : string -> bool;
  sorted_glob : string -> string -> string + list string;
  results_gz_to_df : read_call -> string + list row;
  to_csv_error : string -> option string
}.

(** What a run has done so far: the archives read and the files written, the
    oldest first. *)
Record world : Type := {
  reads : list read_call;
  written : list (string * csv)
}.

Definition M (A : Type) : Type := world -> result A * world.

Definition ret {A : Type} (a : A) : M A := fun w => (Ok a, w).

Definition raise {A : Type} (e : exn) : M A := fun w => (Raise e, w).

Definition lift {A : Type} (r : result A) : M A := fun w => (r, w).

Definition bindM {A B : Type} (c : M A) (k : A -> M B) : M B :=
  fun w =>
    match c w with
    | (Ok a, w') => k a w'
    | (Raise e, w') => (Raise e, w')
    end.

Fixpoint for_eachM {A S : Type} (l : list A) (body : S -> A -> M S) (acc : S)
  : M S :=
  match l with
  | [] => ret acc
  | x :: l' => bindM (body acc x) (for_eachM l' body)
  end.

Declare Scope io_scope.
Delimit Scope io_scope with io.
Notation "x <~ c1 ;; c2" := (bindM c1 (fun x => c2))
  (at level 61, c1 at next level, right associativity) : io_scope.
Bind Scope io_scope with M.
Local Open Scope io_scope.

(** The call of [results_gz_to_df]: the call is recorded, then its frame is
    returned or its exception propagates. *)
Definition call_results_gz_to_df (E : env) (c : read_call) : M (list row) :=
  fun w =>
    let w' := {| reads := reads w ++ [c]; written := written w |} in
    match results_gz_to_df E c with
    | inr df => (Ok df, w')
    | inl detail =>
        (Raise (Propagated "searchnets.analysis.searchstims.results_gz_to_df" detail), w')
    end.

(** [content.to_csv(path)]: the file is written, or the exception of the
    failed write propagates and the file is not there. *)
Definition to_csv (E : env) (content : csv) (path : string) : M unit :=
  fun w =>
    match to_csv_error E path with
    | Some detail => (Raise (Propagated "DataFrame.to_csv" detail), w)
    | None =>
        (Ok tt, {| reads := reads w; written := written w ++ [(path, content)] |})
    end.

(** Line 85: [sorted(root.glob(pattern))]; an exception of [glob]
    propagates. *)
Definition glob (E : env) (root pattern : string) : result (list string) :=
  match sorted_glob E root pattern with
  | inr paths => Ok paths
  | inl detail => Raise (Propagated "pathlib.Path.glob" detail)
  end.

(** Lines 68 and 70: the two roots as paths. *)
Definition results_root (E : env) (a : args) : string :=
  path_str E (results_gz_root a).

Definition source_root (E : env) (a : args) : string :=
  path_str E (source_data_root a).

(** *** Module constants (lines 187-199) *)

Definition NET_NAMES : list string :=
  ["alexnet"; "VGG16"; "CORnet_Z"; "CORnet_S"]%string.

Definition METHODS : list string := ["initialize"; "transfer"]%string.

Definition MODES : list string := ["classify"]%string.

(** *** The loops of [main] (lines 78-113) *)

(** Line 85: the pattern given to [glob]. *)
Definition glob_pattern (net_name method : string) : string :=
  "**/*" +++ net_name +++ "*" +++ method +++ "*gz".

(** Lines 87-94: the paths kept for a mode. *)
Definition filter_by_mode (mode : string) (results_gz_path : list string)
  : result (list string) :=
  if (mode =? "classify")%string then
    Ok (filter (fun results_gz => negb (contains "detect" results_gz)) results_gz_path)
  else if (mode =? "detect")%string then
    Ok (filter (fun results_gz => contains "detect" results_gz) results_gz_path)
  else
    Raise (ValueError ("invalid mode: " +++ mode +++ ", must be one of: "
                       +++ repr_list (map repr_str MODES))).

(** Lines 100-105: the split csv that goes with a net. *)
Definition split_csv_path (a : args) (net_name : string) : result string :=
  if (net_name =? "alexnet")%string || contains "CORnet" net_name then
    Ok (alexnet_split_csv_path a)
  else if (net_name =? "VGG16")%string then
    Ok (VGG16_split_csv_path a)
  else
    Raise (ValueError ("no csv path defined for net_name: " +++ net_name)).

(** Lines 85-113: the body of the innermost loop, [df_list] threaded through. *)
Definition mode_body (E : env) (a : args) (net_name method : string)
    (df_list : list (list row)) (mode : string) : M (list (list row)) :=
  results_gz_path <~
    lift (glob E (results_root E a) (glob_pattern net_name method)) ;;
  results_gz_path <~ lift (filter_by_mode mode results_gz_path) ;;
  if negb (List.length results_gz_path =? 1)%nat then
    raise (ValueError ("found more than one results.gz file: "
                       +++ repr_list (map (path_repr E) results_gz_path)))
  else
    match results_gz_path with
    | [] => raise (IndexError "list index out of range")
    | results_gz_path :: _ =>
        csv_path <~ lift (split_csv_path a net_name) ;;
        df <~ call_results_gz_to_df E
                {| rc_results_gz_path := results_gz_path;
                   rc_csv_path := csv_path;
                   rc_net_name := net_name;
                   rc_method := method;
                   rc_mode := mode;
                   rc_learning_rate := learning_rate a |} ;;
        ret (df_list ++ [df])
    end.

(** Lines 79-113: the body of the loop over [methods]. *)
Definition method_body (E : env) (a : args) (net_name : string)
    (df_list : list (list row)) (method : string) : M (list (list row)) :=
  if negb (str_in method METHODS) then
    raise (ValueError ("invalid method: " +++ method +++ ", must be one of: "
                       +++ repr_list (map repr_str METHODS)))
  else for_eachM (modes a) (mode_body E a net_name method) df_list.

(** Lines 78-113: the body of the loop over [net_names]. *)
Definition net_body (E : env) (a : args)
    (df_list : list (list row)) (net_name : string) : M (list (list row)) :=
  for_eachM (methods a) (method_body E a net_name) df_list.

(** Lines 76-113. *)
Definition read_all (E : env) (a : args) : M (list (list row)) :=
  let df_list := [] in
  for_eachM (net_names a) (net_body E a) df_list.

(** *** Grouping, differences and sorting (lines 115-167) *)

Section Arithmetic.

Context `{ar : arithmetic}.

(** The key of [groupby(['net_name', 'stimulus', 'set_size'])]. *)
Definition key : Type := (string * string * Z)%type.

Definition key_of (r : row) : key := (net_name r, stimulus r, set_size r).

Definition key_eqb (k1 k2 : key) : bool :=
  let '(n1, s1, z1) := k1 in
  let '(n2, s2, z2) := k2 in
  (n1 =? n2)%string && (s1 =? s2)%string && (z1 =? z2)%Z.

(** The order in which [groupby] lists its groups: by the first key column,
    then the second, then the third. *)
Definition key_leb (k1 k2 : key) : bool :=
  let '(n1, s1, z1) := k1 in
  let '(n2, s2, z2) := k2 in
  match String.compare n1 n2 with
  | Lt => true
  | Gt => false
  | Eq =>
      match String.compare s1 s2 with
      | Lt => true
      | Gt => false
      | Eq => (z1 <=? z2)%Z
      end
  end.

(** Lines 120-122: [df_transfer_acc_mn]. *)
Definition transfer_acc_mn (df_all : list row) : list mn_row :=
  let df_transfer := filter (fun r => (method r =? "transfer")%string) df_all in
  map (fun k : key =>
         let '(n, s, z) := k in
         {| mn_net_name := n;
            mn_stimulus := s;
            mn_set_size := z;
            mn_accuracy :=
              mean (map accuracy
                        (filter (fun r => key_eqb (key_of r) k) df_transfer)) |})
      (sort key_leb (unique key_eqb (map key_of df_transfer))).

(** Lines 128-141: the two loops that fill [records]. *)
Definition acc_diff_records (df_transfer_acc_mn : list mn_row)
  : result (list acc_diff_row) :=
  let records := [] in
  for_each (unique String.eqb (map mn_net_name df_transfer_acc_mn))
    (fun records net_name =>
       let df_net :=
         filter (fun r => (mn_net_name r =? net_name)%string) df_transfer_acc_mn in
       for_each (unique String.eqb (map mn_stimulus df_net))
         (fun records stim =>
            let df_stim := filter (fun r => (mn_stimulus r =? stim)%string) df_net in
            set_size_1_acc <-
              item (map mn_accuracy (filter (fun r => (mn_set_size r =? 1)%Z) df_stim)) ;;
            set_size_8_acc <-
              item (map mn_accuracy (filter (fun r => (mn_set_size r =? 8)%Z) df_stim)) ;;
            let acc_diff := minus set_size_1_acc set_size_8_acc in
            Ok (records ++ [ {| ad_net_name := net_name;
                                ad_stimulus := stim;
                                set_size_1_acc := set_size_1_acc;
                                set_size_8_acc := set_size_8_acc;
                                acc_diff := acc_diff |} ]))
         records)
    records.

(** Lines 143-144: [from_records] and the choice of the five columns; with no
    record there is no column to choose. *)
Definition from_records (records : list acc_diff_row) : result (list acc_diff_row) :=
  match records with
  | [] =>
      Raise (KeyError
        "['net_name', 'stimulus', 'set_size_1_acc', 'set_size_8_acc', 'acc_diff']")
  | _ => Ok records
  end.

(** [sort_values(by=['set_size_1_acc', 'acc_diff'], ascending=False)]: the
    larger [set_size_1_acc] first and, where these are equal, the larger
    [acc_diff] first. *)
Definition stim_before (r1 r2 : stim_row) : bool :=
  match (st_set_size_1_acc r1 ?= st_set_size_1_acc r2)%Q with
  | Gt => true
  | Lt => false
  | Eq => Qle_bool (st_acc_diff r2) (st_acc_diff r1)
  end.

(** Lines 147-149: [stim_acc_diff_df]. *)
Definition stim_acc_diff (df_acc_diff : list acc_diff_row) : list stim_row :=
  sort stim_before
    (map (fun s =>
            let group := filter (fun r => (ad_stimulus r =? s)%string) df_acc_diff in
            {| st_stimulus := s;
               st_acc_diff := mean (map acc_diff group);
               st_set_size_1_acc := mean (map set_size_1_acc group) |})
         (sort String.leb (unique String.eqb (map ad_stimulus df_acc_diff)))).

(** [sort_values(by='acc_diff', ascending=False)]. *)
Definition net_before (r1 r2 : net_row) : bool :=
  Qle_bool (nt_acc_diff r2) (nt_acc_diff r1).

(** Lines 152-154: [net_acc_diff_df]. *)
Definition net_acc_diff (df_acc_diff : list acc_diff_row) : list net_row :=
  sort net_before
    (map (fun n =>
            let group := filter (fun r => (ad_net_name r =? n)%string) df_acc_diff in
            {| nt_net_name := n;
               nt_acc_diff := mean (map acc_diff group) |})
         (sort String.leb (unique String.eqb (map ad_net_name df_acc_diff)))).

(** The cell of a pivot table: the mean of the values that fall in it, or a
    missing cell when there is none. *)
Definition cell_mean (values : list Q) : option Q :=
  match values with
  | [] => None
  | _ => Some (mean values)
  end.

(** Lines 161-163: [pivot_table(index='net_name', columns='stimulus')] on the
    columns [net_name], [stimulus] and [acc_diff], with the stimulus level of
    the column labels kept. *)
Definition pivot_table (df_acc_diff : list acc_diff_row) : pivot :=
  let nets := sort String.leb (unique String.eqb (map ad_net_name df_acc_diff)) in
  let stims := sort String.leb (unique String.eqb (map ad_stimulus df_acc_diff)) in
  {| index := nets;
     columns := stims;
     data :=
       map (fun n =>
              map (fun s =>
                     cell_mean
                       (map acc_diff
                            (filter (fun r => (ad_net_name r =? n)%string
                                              && (ad_stimulus r =? s)%string)
                                    df_acc_diff)))
                  stims)
           nets |}.

(** Lines 161-167: [df_acc_diff_by_stim]. *)
Definition acc_diff_by_stim (df_acc_diff : list acc_diff_row)
    (net_acc_diff_df : list net_row) (stim_acc_diff_df : list stim_row)
  : result pivot :=
  let df_acc_diff_by_stim := pivot_table df_acc_diff in
  df_acc_diff_by_stim <- through_records "net_name" df_acc_diff_by_stim ;;
  let df_acc_diff_by_stim :=
    reindex (map nt_net_name net_acc_diff_df) df_acc_diff_by_stim in
  select_columns (map st_stimulus stim_acc_diff_df) df_acc_diff_by_stim.

(** The five frames that [main] saves. *)
Record tables : Type := {
  df_all : list row;
  df_acc_diff : list acc_diff_row;
  stim_acc_diff_df : list stim_row;
  net_acc_diff_df : list net_row;
  df_acc_diff_by_stim : pivot
}.

(** Lines 115-167. *)
Definition analyse (df_list : list (list row)) : result tables :=
  df_all <- concat df_list ;;
  let df_transfer_acc_mn := transfer_acc_mn df_all in
  records <- acc_diff_records df_transfer_acc_mn ;;
  df_acc_diff <- from_records records ;;
  let stim_acc_diff_df := stim_acc_diff df_acc_diff in
  let net_acc_diff_df := net_acc_diff df_acc_diff in
  df_acc_diff_by_stim <- acc_diff_by_stim df_acc_diff net_acc_diff_df stim_acc_diff_df ;;
  Ok {| df_all := df_all;
        df_acc_diff := df_acc_diff;
        stim_acc_diff_df := stim_acc_diff_df;
        net_acc_diff_df := net_acc_diff_df;
        df_acc_diff_by_stim := df_acc_diff_by_stim |}.

(** Lines 169-175: the five files, in this order. *)
Definition save (E : env) (a : args) (t : tables) : M unit :=
  let root := source_root E a in
  _ <~ to_csv E (CsvAll (df_all t)) (joinpath E root (all_csv_filename a)) ;;
  _ <~ to_csv E (CsvAccDiff (df_acc_diff t)) (joinpath E root (acc_diff_csv_filename a)) ;;
  _ <~ to_csv E (CsvStimAccDiff (stim_acc_diff_df t))
                (joinpath E root (stim_acc_diff_csv_filename a)) ;;
  _ <~ to_csv E (CsvNetAccDiff (net_acc_diff_df t))
                (joinpath E root (net_acc_diff_csv_filename a)) ;;
  to_csv E (CsvAccDiffByStim (df_acc_diff_by_stim t))
           (joinpath E root (acc_diff_by_stim_csv_filename a)).

(** [main] (lines 68-175). *)
Definition main (E : env) (a : args) : M unit :=
  if negb (path_exists E (source_root E a)) then
    raise (NotADirectoryError
             ("directory specified as source_data_root not found: "
              +++ source_root E a))
  else
    df_list <~ read_all E a ;;
    t <~ lift (analyse df_list) ;;
    save E a t.

(** *** Words in which the properties are stated *)

(** The key columns of a row of [df_transfer_acc_mn]. *)
Definition mn_key (g : mn_row) : key :=
  (mn_net_name g, mn_stimulus g, mn_set_size g).

(** The rows of a grouped table for a net, a stimulus and a set size. *)
Definition rows_at (df : list mn_row) (n s : string) (z : Z) : list mn_row :=
  filter (fun g => key_eqb (mn_key g) (n, s, z)) df.

(** The rows of [df_acc_diff] for a net and a stimulus. *)
Definition acc_diff_at (df : list acc_diff_row) (n s : string) : list acc_diff_row :=
  filter (fun r => (ad_net_name r =? n)%string && (ad_stimulus r =? s)%string) df.

(** The mean of a column of [df_acc_diff] over the rows of a net, and over
    the rows of a stimulus. *)
Definition net_mean (column : acc_diff_row -> Q) (df : list acc_diff_row)
    (n : string) : Q :=
  mean (map column (filter (fun r => (ad_net_name r =? n)%string) df)).

Definition stim_mean (column : acc_diff_row -> Q) (df : list acc_diff_row)
    (s : string) : Q :=
  mean (map column (filter (fun r => (ad_stimulus r =? s)%string) df)).

(** The frame that lines 161-167 build: the nets of [net_acc_diff_df] down,
    the stimuli of [stim_acc_diff_df] across, and in each cell the mean of
    the [acc_diff] of the rows of that net and stimulus. *)
Definition sorted_pivot (df : list acc_diff_row) : pivot :=
  {| index := map nt_net_name (net_acc_diff df);
     columns := map st_stimulus (stim_acc_diff df);
     data := map (fun n =>
                    map (fun s => cell_mean (map acc_diff (acc_diff_at df n s)))
                        (map st_stimulus (stim_acc_diff df)))
                 (map nt_net_name (net_acc_diff df)) |}.

(** The paths that line 96 counts for a net, a method and a mode. *)
Definition paths_for (E : env) (a : args) (net_name method mode : string)
  : result (list string) :=
  results_gz_path <- glob E (results_root E a) (glob_pattern net_name method) ;;
  filter_by_mode mode results_gz_path.

(** A call of [results_gz_to_df] as [main] makes it: for a net, a method and
    a mode of its lists, on the one path found for them, with the split csv
    of the net. *)
Definition read_by_main (E : env) (a : args) (c : read_call) : Prop :=
  In (rc_net_name c) (net_names a) /\
  In (rc_method c) (methods a) /\
  In (rc_mode c) (modes a) /\
  paths_for E a (rc_net_name c) (rc_method c) (rc_mode c) = Ok [rc_results_gz_path c] /\
  split_csv_path a (rc_net_name c) = Ok (rc_csv_path c) /\
  rc_learning_rate c = learning_rate a.

(** The world after a computation: archives may have been read since, each
    of them as [main] reads them, and no file has been written. *)
Definition only_reads (E : env) (a : args) (w w' : world) : Prop :=
  written w' = written w /\
  exists new, reads w' = reads w ++ new /\ Forall (read_by_main E a) new.

(** The loops of [main], started in world [w], get to the body of the
    innermost loop for a net, a method and a mode with [df_list] collected so
    far and in world [w']: [source_data_root] exists, the nets before this
    one, the methods before this one and the modes before this one have been
    done without an exception, and the method is a valid one. *)
Definition reaches (E : env) (a : args) (w : world)
    (net_name method mode : string) (df_list : list (list row)) (w' : world) : Prop :=
  path_exists E (source_root E a) = true /\
  exists nets_before nets_after methods_before methods_after modes_before modes_after
         df_list1 w1 df_list2 w2,
    net_names a = nets_before ++ net_name :: nets_after /\
    for_eachM nets_before (net_body E a) [] w = (Ok df_list1, w1) /\
    methods a = methods_before ++ method :: methods_after /\
    for_eachM methods_before (method_body E a net_name) df_list1 w1 = (Ok df_list2, w2) /\
    str_in method METHODS = true /\
    modes a = modes_before ++ mode :: modes_after /\
    for_eachM modes_before (mode_body E a net_name method) df_list2 w2 = (Ok df_list, w').

(** An exception that comes from [to_csv]. *)
Definition from_to_csv (e : exn) : Prop :=
  exists detail, e = Propagated "DataFrame.to_csv" detail.

(** The row that lines 133-141 append for a net and a stimulus. *)
Definition acc_diff_row_for (df_transfer_acc_mn : list mn_row) (net_name stim : string)
  : result acc_diff_row :=
  let df_net :=
    filter (fun r => (mn_net_name r =? net_name)%string) df_transfer_acc_mn in
  let df_stim := filter (fun r => (mn_stimulus r =? stim)%string) df_net in
  set_size_1_acc <-
    item (map mn_accuracy (filter (fun r => (mn_set_size r =? 1)%Z) df_stim)) ;;
  set_size_8_acc <-
    item (map mn_accuracy (filter (fun r => (mn_set_size r =? 8)%Z) df_stim)) ;;
  Ok {| ad_net_name := net_name;
        ad_stimulus := stim;
        set_size_1_acc := set_size_1_acc;
        set_size_8_acc := set_size_8_acc;
        acc_diff := minus set_size_1_acc set_size_8_acc |}.

(** The stimuli of a net in [df_transfer_acc_mn], as line 132 lists them. *)
Definition stimuli_of (df_transfer_acc_mn : list mn_row) (net_name : string)
  : list string :=
  unique String.eqb
    (map mn_stimulus
         (filter (fun r => (mn_net_name r =? net_name)%string) df_transfer_acc_mn)).

End Arithmetic.

End GenerateSourceDataCsv.

(** ** A small run, used to exercise the definitions *)

Module Demo.

Import GenerateSourceDataCsv.

Definition mk (n m s : string) (z : Z) (acc : Q) : row :=
  {| net_name := n; method := m; stimulus := s; set_size := z; accuracy := acc |}.

(** Two archives: what the alexnet one and the VGG16 one hold. *)
Definition alexnet_rows (m : string) : list row :=
  [ mk "alexnet" m "RVvGV" 1 (9 # 10); mk "alexnet" m "RVvGV" 1 (7 # 10);
    mk "alexnet" m "RVvGV" 8 (6 # 10); mk "alexnet" m "2_v_5" 1 (8 # 10);
    mk "alexnet" m "2_v_5" 8 (5 # 10); mk "alexnet" m "2_v_5" 8 (3 # 10) ]%string.

Definition VGG16_rows (m : string) : list row :=
  [ mk "VGG16" m "2_v_5" 8 (1 # 2); mk "VGG16" m "2_v_5" 1 (1 # 1);
    mk "VGG16" m "RVvGV" 1 (4 # 5); mk "VGG16" m "RVvGV" 8 (4 # 5) ]%string.

Definition files : list string :=
  [ "/results/alexnet_transfer_lr_0.001_results.gz";
    "/results/alexnet_initialize_lr_0.001_results.gz";
    "/results/VGG16_transfer_lr_0.001_results.gz" ]%string.

(** A pattern of the shape the script builds: the file name holds the net
    name and, after it, the method. *)
Definition matches (net method path : string) : bool :=
  contains (net +++ "_" +++ method) path.

(** The texts of this run are paths as they stand; a pattern with two
    asterisks after its first component is refused. *)
Definition E : env := {|
  path_str := fun text => text;
  joinpath := fun root name =>
    if String.prefix "/" name then name else root +++ "/" +++ name;
  path_repr := fun p => "PosixPath('" +++ p +++ "')";
  path_exists := fun p => (p =? "/source_data")%string;
  sorted_glob := fun root pattern =>
    if contains "**" (String.substring 3 (String.length pattern) pattern) then
      inl "Invalid pattern: '**' can only be an entire path component"%string
    else
      inr (filter (fun f =>
                     existsb (fun nm => (pattern =? glob_pattern (fst nm) (snd nm))%string
                                        && matches (fst nm) (snd nm) f)
                             (list_prod NET_NAMES METHODS)) files);
  results_gz_to_df := fun c =>
    if (rc_net_name c =? "alexnet")%string then inr (alexnet_rows (rc_method c))
    else if (rc_net_name c =? "VGG16")%string then inr (VGG16_rows (rc_method c))
    else inl "No such file or directory"%string;
  to_csv_error := fun _ => None
|}.

(** The arguments of a run on given lists, the rest as the command line
    leaves it. *)
Definition run_args (nets methods_ modes_ : list string) : args := {|
  results_gz_root := "/results";
  source_data_root := "/source_data";
  all_csv_filename := "all.csv";
  acc_diff_csv_filename := "acc_diff.csv";
  stim_acc_diff_csv_filename := "stim_acc_diff.csv";
  net_acc_diff_csv_filename := "net_acc_diff.csv";
  acc_diff_by_stim_csv_filename := "acc_diff_by_stim.csv";
  net_names := nets;
  methods := methods_;
  modes := modes_;
  alexnet_split_csv_path := "/stims/alexnet_split.csv";
  VGG16_split_csv_path := "/stims/VGG16_split.csv";
  learning_rate := 1 # 1000
|}.

Definition a : args :=
  run_args ["alexnet"; "VGG16"]%string ["transfer"]%string ["classify"]%string.

Definition w0 : world := {| reads := []; written := [] |}.

(** The frames that the run on [a] reads. *)
Definition frames : list (list row) :=
  [alexnet_rows "transfer"; VGG16_rows "transfer"].

(** A grouped table with one row for each of two set sizes. *)
Definition grouped : list mn_row :=
  [ {| mn_net_name := "VGG16"; mn_stimulus := "2_v_5"; mn_set_size := 1;
       mn_accuracy := 1 |};
    {| mn_net_name := "VGG16"; mn_stimulus := "2_v_5"; mn_set_size := 8;
       mn_accuracy := 1 # 2 |};
    {| mn_net_name := "alexnet"; mn_stimulus := "RVvGV"; mn_set_size := 1;
       mn_accuracy := 4 # 5 |};
    {| mn_net_name := "alexnet"; mn_stimulus := "RVvGV"; mn_set_size := 8;
       mn_accuracy := 3 # 5 |} ]%string.

End Demo.

(** ** The command line of the script (lines 209-275) *)

Module CommandLine.

Import GenerateSourceDataCsv.

(** [s.split(sep)] for a separator of one character: the pieces between the
    separators, empty pieces kept. *)
Fixpoint split (sep : ascii) (s : string) : list string :=
  match s with
  | EmptyString => [EmptyString]
  | String c s' =>
      if Ascii.eqb c sep then EmptyString :: split sep s'
      else
        match split sep s' with
        | [] => [String c EmptyString]
        | piece :: pieces => String c piece :: pieces
        end
  end.

(** The [type] of [--net_names], [--methods] and [--modes] (lines 243, 246
    and 249): the argument split at its commas. *)
Definition comma_separated (s : string) : list string := split "," s.

(** What [parse_args] stores for such an option: the string given on the
    command line, converted, or the default, which is a list and is taken as
    it is. *)
Definition list_option (given : option string) (default : list string) : list string :=
  match given with
  | Some s => comma_separated s
  | None => default
  end.

(** Lines 262-275, for the three lists: the arguments of [main] with the
    lists as the parser stores them, and the other arguments as in [a]. *)
Definition with_lists (net_names_arg methods_arg modes_arg : option string)
    (a : args) : args :=
  {| results_gz_root := results_gz_root a;
     source_data_root := source_data_root a;
     all_csv_filename := all_csv_filename a;
     acc_diff_csv_filename := acc_diff_csv_filename a;
     stim_acc_diff_csv_filename := stim_acc_diff_csv_filename a;
     net_acc_diff_csv_filename := net_acc_diff_csv_filename a;
     acc_diff_by_stim_csv_filename := acc_diff_by_stim_csv_filename a;
     net_names := list_option net_names_arg NET_NAMES;
     methods := list_option methods_arg METHODS;
     modes := list_option modes_arg MODES;
     alexnet_split_csv_path := alexnet_split_csv_path a;
     VGG16_split_csv_path := VGG16_split_csv_path a;
     learning_rate := learning_rate a |}.

End CommandLine.

(** ** Further words in which properties are stated *)

Module RunWords.

Import Pandas GenerateSourceDataCsv.

(** A net, a method and a mode. *)
Definition combination : Type := (string * string * string)%type.

Definition combination_of (c : read_call) : combination :=
  (rc_net_name c, rc_method c, rc_mode c).

(** The combinations in the order of the three loops of [main]. *)
Definition combinations (a : args) : list combination :=
  flat_map (fun n => flat_map (fun m => map (fun d => (n, m, d)) (modes a)) (methods a))
           (net_names a).

(** A call of [results_gz_to_df] that returns the frame [df]. *)
Definition returns_frame (E : env) (c : read_call) (df : list row) : Prop :=
  results_gz_to_df E c = inr df.

(** The five files of lines 170-175, with what they hold. *)
Definition saved_files (E : env) (a : args) (t : tables) : list (string * csv) :=
  [(joinpath E (source_root E a) (all_csv_filename a), CsvAll (df_all t));
   (joinpath E (source_root E a) (acc_diff_csv_filename a), CsvAccDiff (df_acc_diff t));
   (joinpath E (source_root E a) (stim_acc_diff_csv_filename a),
    CsvStimAccDiff (stim_acc_diff_df t));
   (joinpath E (source_root E a) (net_acc_diff_csv_filename a),
    CsvNetAccDiff (net_acc_diff_df t));
   (joinpath E (source_root E a) (acc_diff_by_stim_csv_filename a),
    CsvAccDiffByStim (df_acc_diff_by_stim t))].

(** The exceptions of the reading loops, by the place that raises them. *)
Inductive read_exception (E : env) (a : args) : exn -> Prop :=
| RefusedPattern (net_name method detail : string) :
    In net_name (net_names a) -> In method (methods a) ->
    sorted_glob E (results_root E a) (glob_pattern net_name method) = inl detail ->
    read_exception E a (Propagated "pathlib.Path.glob" detail)
| InvalidMethod (method : string) :
    In method (methods a) -> ~ In method METHODS ->
    read_exception E a
      (ValueError ("invalid method: " +++ method
                   +++ ", must be one of: ['initialize', 'transfer']"))
| InvalidMode (mode : string) :
    In mode (modes a) -> mode <> "classify"%string -> mode <> "detect"%string ->
    read_exception E a
      (ValueError ("invalid mode: " +++ mode +++ ", must be one of: ['classify']"))
| WrongNumberOfFiles (net_name method mode : string) (paths : list string) :
    In net_name (net_names a) -> In method (methods a) -> In mode (modes a) ->
    paths_for E a net_name method mode = Ok paths ->
    List.length paths <> 1%nat ->
    read_exception E a
      (ValueError ("found more than one results.gz file: "
                   +++ repr_list (map (path_repr E) paths)))
| NoCsvPath (net_name : string) :
    In net_name (net_names a) ->
    net_name <> "alexnet"%string -> contains "CORnet" net_name = false ->
    net_name <> "VGG16"%string ->
    read_exception E a
      (ValueError ("no csv path defined for net_name: " +++ net_name))
| FailedRead (c : read_call) (detail : string) :
    read_by_main E a c -> results_gz_to_df E c = inl detail ->
    read_exception E a
      (Propagated "searchnets.analysis.searchstims.results_gz_to_df" detail).

(** The exceptions of the grouping and sorting steps. *)
Inductive analysis_exception : exn -> Prop :=
| NothingToConcatenate :
    analysis_exception (ValueError "No objects to concatenate")
| NotOneItem :
    analysis_exception
      (ValueError "can only convert an array of size 1 to a Python scalar")
| NoRecords :
    analysis_exception
      (KeyError "['net_name', 'stimulus', 'set_size_1_acc', 'set_size_8_acc', 'acc_diff']")
| RepeatedField :
    analysis_exception (ValueError "name already used as a name or title").

(** A row of the transfer method for a net, a stimulus and a set size. *)
Definition transfer_row_at (df_all : list row) (n s : string) (z : Z) : Prop :=
  exists r, In r df_all /\ method r = "transfer"%string /\ key_of r = (n, s, z).

(** The transfer rows have, for each of their nets and stimuli, a row of set
    size 1 and a row of set size 8. *)
Definition complete (df_all : list row) : Prop :=
  forall n s z,
    transfer_row_at df_all n s z ->
    transfer_row_at df_all n s 1 /\ transfer_row_at df_all n s 8.

(** The externals of [from_config] never raise. *)
Definition never_raise {Model Params Optimizer TrainerObj Extra : Type}
    (ext : Trainer.externals Model Params Optimizer TrainerObj Extra) : Prop :=
  (forall pre n, exists m, Trainer.nets_alexnet_build ext pre n = Ok m) /\
  (forall pre n, exists m, Trainer.nets_vgg16_build ext pre n = Ok m) /\
  (forall pre n, exists m, Trainer.nets_cornet_build ext pre n = Ok m) /\
  (forall m, exists p, Trainer.parameters ext m = Ok p) /\
  (forall p lr mo, exists o, Trainer.torch_optim_SGD ext p lr mo = Ok o) /\
  (forall p lr, exists o, Trainer.torch_optim_Adam ext p lr = Ok o) /\
  (forall p lr, exists o, Trainer.torch_optim_AdamW ext p lr = Ok o) /\
  (forall kw, exists t, Trainer.cls ext kw = Ok t).

End RunWords.

(** ** Further small runs *)

Module Demo2.

Import GenerateSourceDataCsv.

(** The surroundings of [Demo.E], except that [acc_diff.csv] cannot be
    written. *)
Definition E_denied : env := {|
  path_str := path_str Demo.E;
  joinpath := joinpath Demo.E;
  path_repr := path_repr Demo.E;
  path_exists := path_exists Demo.E;
  sorted_glob := sorted_glob Demo.E;
  results_gz_to_df := results_gz_to_df Demo.E;
  to_csv_error := fun p =>
    if (p =? "/source_data/acc_diff.csv")%string
    then Some "Permission denied"%string else None
|}.

(** The surroundings of [Demo.E], except that two archives are found
    whatever the pattern. *)
Definition E_two_files : env := {|
  path_str := path_str Demo.E;
  joinpath := joinpath Demo.E;
  path_repr := path_repr Demo.E;
  path_exists := path_exists Demo.E;
  sorted_glob := fun _ _ => inr ["/r/alexnet_transfer_1.gz";
                                 "/r/alexnet_transfer_2.gz"]%string;
  results_gz_to_df := fun _ => inr [];
  to_csv_error := fun _ => None
|}.

(** The arguments of a run for a net without an archive, with a
    [source_data_root] that is not there. *)
Definition a_missing_root : args := {|
  results_gz_root := "/results";
  source_data_root := "/missing";
  all_csv_filename := "all.csv";
  acc_diff_csv_filename := "acc_diff.csv";
  stim_acc_diff_csv_filename := "stim_acc_diff.csv";
  net_acc_diff_csv_filename := "net_acc_diff.csv";
  acc_diff_by_stim_csv_filename := "acc_diff_by_stim.csv";
  net_names := ["CORnet_Z"]%string;
  methods := ["transfer"]%string;
  modes := ["classify"]%string;
  alexnet_split_csv_path := "/stims/alexnet_split.csv";
  VGG16_split_csv_path := "/stims/VGG16_split.csv";
  learning_rate := 1 # 1000
|}.

(** Frames whose transfer rows lack set size 8 for one stimulus. *)
Definition frames_without_8 : list (list row) :=
  [ [ Demo.mk "alexnet" "transfer" "RVvGV" 1 (9 # 10);
      Demo.mk "alexnet" "transfer" "RVvGV" 2 (8 # 10) ] ]%string.

End Demo2.

(** * Properties *)

(** ** Strings and results *)

Module PyFacts.

Lemma str_in_In (x : string) (l : list string) : str_in x l = true <-> In x l.
Proof.
  unfold str_in. rewrite existsb_exists. split.
  - intros (y & Hy & Heq). apply String.eqb_eq in Heq. now subst.
  - intros H. exists x. split; [assumption | apply String.eqb_refl].
Qed.

Lemma str_in_not_In (x : string) (l : list string) : str_in x l = false <-> ~ In x l.
Proof.
  rewrite <- str_in_In. destruct (str_in x l); split; intros H;
    try reflexivity; try discriminate; try (intros H'; discriminate).
  exfalso. now apply H.
Qed.

Lemma eqb_of_not_In (x y : string) (l : list string) :
  ~ In x l -> In y l -> (x =? y)%string = false.
Proof.
  intros Hx Hy. apply String.eqb_neq. intros ->. now apply Hx.
Qed.

Lemma bind_Ok_inv {A B : Type} (r : result A) (k : A -> result B) (b : B) :
  bind r k = Ok b -> exists a, r = Ok a /\ k a = Ok b.
Proof.
  destruct r as [a | e]; simpl; intros H; [eauto | discriminate].
Qed.

Lemma traverse_all_Ok {A B : Type} (f : A -> result B) (g : A -> B) (l : list A) :
  (forall x, In x l -> f x = Ok (g x)) -> traverse f l = Ok (map g l).
Proof.
  induction l as [| x l IH]; simpl; [reflexivity |].
  intros H. rewrite (H x) by auto. simpl. rewrite IH by auto. reflexivity.
Qed.

Lemma traverse_Ok_inv {A B : Type} (f : A -> result B) (l : list A) (ys : list B) :
  traverse f l = Ok ys -> Forall2 (fun x y => f x = Ok y) l ys.
Proof.
  revert ys. induction l as [| x l IH]; simpl; intros ys H.
  - injection H as <-. constructor.
  - apply bind_Ok_inv in H. destruct H as (y & Hy & H).
    apply bind_Ok_inv in H. destruct H as (ys' & Hys & H).
    injection H as <-. constructor; auto.
Qed.

Lemma Forall2_map_of {A B : Type} (f : A -> result B) (g : A -> B) (l : list A)
    (ys : list B) :
  (forall x y, In x l -> f x = Ok y -> y = g x) ->
  Forall2 (fun x y => f x = Ok y) l ys -> ys = map g l.
Proof.
  intros Hg H. induction H as [| x y l ys Hxy H IH]; simpl; [reflexivity |].
  f_equal; [apply Hg; simpl; auto | apply IH; intros; apply Hg; simpl; auto].
Qed.

(** A loop that appends what each element yields is a traversal. *)
Lemma for_each_extend {A B : Type} (G : A -> result (list B))
    (body : list B -> A -> result (list B)) (l : list A) (acc : list B) :
  (forall acc x, body acc x = bind (G x) (fun ys => Ok (acc ++ ys))) ->
  for_each l body acc
  = bind (traverse G l) (fun yss => Ok (acc ++ List.concat yss)).
Proof.
  intros Hbody. revert acc. induction l as [| x l IH]; intros acc; simpl.
  - now rewrite app_nil_r.
  - rewrite Hbody. destruct (G x) as [ys | e]; simpl; [| reflexivity].
    rewrite IH. destruct (traverse G l) as [yss | e]; simpl; [| reflexivity].
    now rewrite app_assoc.
Qed.

Lemma for_each_append {A B : Type} (g : A -> result B)
    (body : list B -> A -> result (list B)) (l : list A) (acc : list B) :
  (forall acc x, body acc x = bind (g x) (fun y => Ok (acc ++ [y]))) ->
  for_each l body acc = bind (traverse g l) (fun ys => Ok (acc ++ ys)).
Proof.
  intros Hbody. revert acc. induction l as [| x l IH]; intros acc; simpl.
  - now rewrite app_nil_r.
  - rewrite Hbody. destruct (g x) as [y | e]; simpl; [| reflexivity].
    rewrite IH. destruct (traverse g l) as [ys | e]; simpl; [| reflexivity].
    now rewrite <- app_assoc.
Qed.

End PyFacts.

(** ** Lists as pandas uses them *)

Module PandasFacts.

Import Pandas.

Section Unique.

Context {A : Type}.
Variable eqb : A -> A -> bool.
Hypothesis eqb_eq : forall a b, eqb a b = true <-> a = b.

Lemma unique_In (x : A) (l : list A) : In x (unique eqb l) <-> In x l.
Proof.
  induction l as [| y l IH]; simpl; [tauto |].
  rewrite filter_In, IH. split.
  - intros [H | [H _]]; auto.
  - intros [H | H]; [now left |].
    destruct (eqb y x) eqn:E.
    + left. now apply eqb_eq.
    + right. split; [assumption | reflexivity].
Qed.

Lemma NoDup_filter (p : A -> bool) (l : list A) : NoDup l -> NoDup (filter p l).
Proof.
  induction 1 as [| x l Hx Hl IH]; simpl; [constructor |].
  destruct (p x); [| assumption].
  constructor; [| assumption].
  rewrite filter_In. tauto.
Qed.

Lemma unique_NoDup (l : list A) : NoDup (unique eqb l).
Proof.
  induction l as [| y l IH]; simpl; constructor.
  - rewrite filter_In. intros [_ H].
    assert (E : eqb y y = true) by now apply eqb_eq.
    rewrite E in H. discriminate.
  - now apply NoDup_filter.
Qed.

End Unique.

Section Sort.

Context {A : Type}.
Variable leb : A -> A -> bool.

Lemma insert_perm (x : A) (l : list A) : Permutation (insert leb x l) (x :: l).
Proof.
  induction l as [| y l IH]; simpl; [reflexivity |].
  destruct (leb x y); [reflexivity |].
  rewrite IH. apply perm_swap.
Qed.

Lemma sort_perm (l : list A) : Permutation (sort leb l) l.
Proof.
  induction l as [| x l IH]; simpl; [reflexivity |].
  rewrite insert_perm. now constructor.
Qed.

Lemma sort_In (x : A) (l : list A) : In x (sort leb l) <-> In x l.
Proof.
  split; apply Permutation_in; [| symmetry]; apply sort_perm.
Qed.

Lemma sort_NoDup (l : list A) : NoDup l -> NoDup (sort leb l).
Proof.
  apply Permutation_NoDup. symmetry. apply sort_perm.
Qed.

Hypothesis leb_total : forall a b, leb a b = true \/ leb b a = true.
Hypothesis leb_trans : forall a b c, leb a b = true -> leb b c = true -> leb a c = true.

Lemma insert_sorted (x : A) (l : list A) :
  StronglySorted (fun a b => leb a b = true) l ->
  StronglySorted (fun a b => leb a b = true) (insert leb x l).
Proof.
  induction 1 as [| y l Hl IH Hy]; simpl.
  - repeat constructor.
  - destruct (leb x y) eqn:E.
    + constructor; [now constructor |].
      constructor; [assumption |].
      rewrite Forall_forall in *. intros z Hz. eauto.
    + constructor; [assumption |].
      rewrite Forall_forall in *. intros z Hz.
      apply (Permutation_in _ (insert_perm x l)) in Hz.
      destruct Hz as [<- | Hz]; [| auto].
      destruct (leb_total x y) as [H | H]; [congruence | assumption].
Qed.

Lemma sort_sorted (l : list A) :
  StronglySorted (fun a b => leb a b = true) (sort leb l).
Proof.
  induction l as [| x l IH]; simpl; [constructor | now apply insert_sorted].
Qed.

End Sort.

Lemma StronglySorted_map {A B : Type} (f : A -> B) (R : B -> B -> Prop) (l : list A) :
  StronglySorted (fun a b => R (f a) (f b)) l -> StronglySorted R (map f l).
Proof.
  induction 1 as [| x l Hl IH Hx]; simpl; constructor; [assumption |].
  rewrite Forall_forall in *. intros y Hy.
  apply in_map_iff in Hy. destruct Hy as (z & <- & Hz). auto.
Qed.

Lemma StronglySorted_impl {A : Type} (R R' : A -> A -> Prop) (l : list A) :
  (forall a b, R a b -> R' a b) -> StronglySorted R l -> StronglySorted R' l.
Proof.
  intros H. induction 1 as [| x l Hl IH Hx]; constructor; [assumption |].
  revert Hx. apply Forall_impl. auto.
Qed.

(** Lookups in a frame built by [map] over its labels. *)
Lemma lookup_combine_map {V : Type} (f : string -> V) (k : string) (l : list string) :
  In k l -> lookup k (combine l (map f l)) = Some (f k).
Proof.
  induction l as [| x l IH]; simpl; [intros [] |].
  intros H. destruct (String.eqb_spec x k) as [-> | Hne]; [reflexivity |].
  destruct H as [H | H]; [contradiction | auto].
Qed.

Lemma filter_filter {A : Type} (p q : A -> bool) (l : list A) :
  filter p (filter q l) = filter (fun x => q x && p x) l.
Proof.
  induction l as [| x l IH]; simpl; [reflexivity |].
  destruct (q x); simpl; [destruct (p x) |]; now rewrite IH.
Qed.

Lemma filter_none {A : Type} (p : A -> bool) (l : list A) :
  (forall y, In y l -> p y = false) -> filter p l = [].
Proof.
  induction l as [| y l IH]; simpl; [reflexivity |].
  intros H. rewrite (H y) by auto. apply IH. auto.
Qed.

(** In a list without two elements of one key, the elements of a key are
    one. *)
Lemma filter_unique_key {A K : Type} (key : A -> K) (p : A -> bool) (x : A)
    (l : list A) :
  NoDup (map key l) -> In x l ->
  (forall y, In y l -> p y = true <-> key y = key x) ->
  filter p l = [x].
Proof.
  induction l as [| y l IH]; simpl; [intros _ [] |].
  intros Hnd Hin Hp. inversion Hnd as [| ? ? Hy Hl]; subst.
  assert (Hrest : forall z, In z l -> key z <> key y).
  { intros z Hz Heq. apply Hy. rewrite <- Heq. now apply in_map. }
  destruct Hin as [-> | Hin].
  - assert (E : p x = true) by (apply Hp; auto).
    rewrite E. f_equal. apply filter_none. intros z Hz.
    destruct (p z) eqn:Ez; [| reflexivity].
    apply Hp in Ez; [| auto]. now apply Hrest in Ez.
  - assert (E : p y = false).
    { destruct (p y) eqn:Ey; [| reflexivity].
      apply Hp in Ey; [| auto]. symmetry in Ey. now apply Hrest in Ey. }
    rewrite E. apply IH; auto.
Qed.

(** Over labels without repetition, a family of lists that is empty away
    from one label concatenates to the list at that label. *)
Lemma concat_map_single {A B : Type} (h : A -> list B) (x : A) (l : list A) :
  NoDup l -> In x l -> (forall y, In y l -> y <> x -> h y = []) ->
  List.concat (map h l) = h x.
Proof.
  induction l as [| y l IH]; simpl; [intros _ [] |].
  intros Hnd Hin Hh. inversion Hnd as [| ? ? Hy Hl]; subst.
  destruct Hin as [-> | Hin].
  - assert (E : List.concat (map h l) = []).
    { clear IH Hnd Hl. induction l as [| z l IHl]; simpl; [reflexivity |].
      rewrite Hh; [| now right; left | intros ->; apply Hy; now left].
      apply IHl.
      - intros H. apply Hy. now right.
      - intros w Hw Hne. apply Hh; [| assumption].
        destruct Hw as [-> | Hw]; [now left | now right; right]. }
    rewrite E. apply app_nil_r.
  - rewrite Hh; [| auto | intros ->; contradiction].
    simpl. apply IH; auto.
Qed.

Lemma filter_concat {A : Type} (p : A -> bool) (ls : list (list A)) :
  filter p (List.concat ls) = List.concat (map (filter p) ls).
Proof.
  induction ls as [| l ls IH]; simpl; [reflexivity |].
  now rewrite filter_app, IH.
Qed.

End PandasFacts.

(** ** [Trainer.from_config] *)

Module TrainerFacts.

Import Trainer PyFacts.

Section Facts.

Context {Model Params Optimizer TrainerObj Extra : Type}.
Variable ext : externals Model Params Optimizer TrainerObj Extra.

Lemma select_model_unknown (net_name : string) (num_classes : Z) :
  ~ In net_name built_nets -> select_model ext net_name num_classes = Ok None.
Proof.
  intros H. unfold select_model.
  rewrite !(eqb_of_not_In net_name _ built_nets) by (simpl; auto).
  reflexivity.
Qed.

Lemma build_optimizers_unknown (model : option Model) (optimizer : string)
    (learning_rate momentum : Q) :
  ~ In optimizer known_optimizers ->
  build_optimizers ext model optimizer learning_rate momentum = Ok [].
Proof.
  intros H. unfold build_optimizers.
  rewrite !(eqb_of_not_In optimizer _ known_optimizers) by (simpl; auto).
  reflexivity.
Qed.

Lemma build_optimizers_unbound (optimizer : string) (learning_rate momentum : Q) :
  build_optimizers ext None optimizer learning_rate momentum = Ok [] \/
  build_optimizers ext None optimizer learning_rate momentum
  = Raise (UnboundLocalError "model").
Proof.
  unfold build_optimizers.
  destruct (optimizer =? "SGD")%string; [now right |].
  destruct (optimizer =? "Adam")%string; [now right |].
  destruct (optimizer =? "AdamW")%string; [now right | now left].
Qed.

Lemma dict_kw_fresh (kwargs named : dict Model Optimizer Extra) :
  (forall k, In k (map fst named) -> ~ In k (map fst kwargs)) ->
  dict_kw kwargs named = Ok (kwargs ++ named).
Proof.
  intros H. unfold dict_kw.
  destruct (find _ named) as [[k v] |] eqn:Hfind; [| reflexivity].
  apply find_some in Hfind. destruct Hfind as [Hin Hk]. simpl in Hk.
  apply str_in_In in Hk. exfalso. apply (H k); [| assumption].
  apply in_map_iff. now exists (k, v).
Qed.

Lemma dict_kw_Ok_inv (kwargs named kwargs' : dict Model Optimizer Extra) :
  dict_kw kwargs named = Ok kwargs' -> kwargs' = kwargs ++ named.
Proof.
  unfold dict_kw. destruct (find _ named) as [[k v] |]; [discriminate |].
  now intros [= <-].
Qed.

(** C10.  For every [net_name] outside ['alexnet'], ['VGG16'] and ['CORnet_Z']
    no branch of lines 54-59 assigns [model], and [from_config] ends in the
    unbound-local error on [model] whatever the other arguments are: it
    returns no trainer and raises none of the other exceptions.  ['CORnet_S'],
    which is in the script's [NET_NAMES], is such a name. *)
Theorem from_config_unknown_net (net_name : string) (num_classes : Z)
    (loss_func optimizer : string) (learning_rate momentum : Q)
    (kwargs : dict Model Optimizer Extra) :
  ~ In net_name built_nets ->
  from_config ext net_name num_classes loss_func optimizer learning_rate momentum kwargs
  = Raise (UnboundLocalError "model").
Proof.
  intros H. unfold from_config. rewrite select_model_unknown by assumption.
  simpl. destruct (build_optimizers_unbound optimizer learning_rate momentum) as [-> | ->];
    reflexivity.
Qed.

(** C4.  For each of ['alexnet'], ['VGG16'] and ['CORnet_Z'], [from_config]
    calls the builder of that name ([nets.alexnet.build], [nets.vgg16.build],
    [nets.cornet.build]) with [pretrained=False] and [num_classes]: an
    exception of the builder is the exception of [from_config], and the model
    it returns is the one the optimizers are built on and the one passed to
    the trainer's constructor under [model].  So a trainer that is returned
    was constructed with the model of that builder. *)
Theorem from_config_dispatch (net_name : string)
    (build : bool -> Z -> result Model) (num_classes : Z)
    (loss_func optimizer : string) (learning_rate momentum : Q)
    (kwargs : dict Model Optimizer Extra) :
  In (net_name, build)
     [("alexnet"%string, nets_alexnet_build ext);
      ("VGG16"%string, nets_vgg16_build ext);
      ("CORnet_Z"%string, nets_cornet_build ext)] ->
  from_config ext net_name num_classes loss_func optimizer learning_rate momentum kwargs
  = (m <- build false num_classes ;;
     optimizers <- build_optimizers ext (Some m) optimizer learning_rate momentum ;;
     kwargs' <- dict_kw kwargs [("net_name"%string, PStr net_name);
                                ("model"%string, PModel m);
                                ("optimizers"%string, POptimizers optimizers)] ;;
     cls ext kwargs')
  /\ forall t,
       from_config ext net_name num_classes loss_func optimizer learning_rate
                   momentum kwargs = Ok t ->
       exists m optimizers,
         build false num_classes = Ok m /\
         cls ext (kwargs ++ [("net_name"%string, PStr net_name);
                             ("model"%string, PModel m);
                             ("optimizers"%string, POptimizers optimizers)]) = Ok t.
Proof.
  intros Hin.
  assert (Heq :
    from_config ext net_name num_classes loss_func optimizer learning_rate momentum kwargs
    = (m <- build false num_classes ;;
       optimizers <- build_optimizers ext (Some m) optimizer learning_rate momentum ;;
       kwargs' <- dict_kw kwargs [("net_name"%string, PStr net_name);
                                  ("model"%string, PModel m);
                                  ("optimizers"%string, POptimizers optimizers)] ;;
       cls ext kwargs')).
  { unfold from_config, select_model, construct.
    simpl in Hin.
    destruct Hin as [[= <- <-] | [[= <- <-] | [[= <- <-] | []]]]; simpl;
      match goal with
      | |- context [?b false num_classes] => destruct (b false num_classes)
      end; reflexivity. }
  split; [exact Heq |].
  intros t Ht. rewrite Heq in Ht.
  apply bind_Ok_inv in Ht. destruct Ht as (m & Hm & Ht).
  apply bind_Ok_inv in Ht. destruct Ht as (optimizers & _ & Ht).
  apply bind_Ok_inv in Ht. destruct Ht as (kwargs' & Hkw & Ht).
  apply dict_kw_Ok_inv in Hkw. subst kwargs'.
  now exists m, optimizers.
Qed.

(** C9, as amended.  When [net_name] has a branch whose builder returns a
    model [m] and [kwargs] holds none of the keywords added in line 76, an
    [optimizer] outside ['SGD'], ['Adam'] and ['AdamW'] raises nothing in
    [from_config]: its result is that of the trainer's constructor, called
    with [model=m] and the empty list for [optimizers].  For ['Adam'] and
    ['AdamW'] two calls that differ only in [momentum] have the same result. *)
Theorem from_config_unknown_optimizer (net_name : string) (num_classes : Z)
    (loss_func optimizer : string) (learning_rate momentum momentum' : Q)
    (kwargs : dict Model Optimizer Extra) :
  (forall m,
     select_model ext net_name num_classes = Ok (Some m) ->
     (forall k, In k added_keywords -> ~ In k (map fst kwargs)) ->
     ~ In optimizer known_optimizers ->
     from_config ext net_name num_classes loss_func optimizer learning_rate
                 momentum kwargs
     = cls ext (kwargs ++ [("net_name"%string, PStr net_name);
                           ("model"%string, PModel m);
                           ("optimizers"%string, POptimizers [])]))
  /\ (In optimizer ["Adam"; "AdamW"]%string ->
      from_config ext net_name num_classes loss_func optimizer learning_rate
                  momentum kwargs
      = from_config ext net_name num_classes loss_func optimizer learning_rate
                    momentum' kwargs).
Proof.
  split.
  - intros m Hm Hfresh Hopt. unfold from_config. rewrite Hm. simpl.
    rewrite build_optimizers_unknown by assumption. simpl.
    unfold construct. simpl. rewrite dict_kw_fresh by exact Hfresh.
    reflexivity.
  - intros Hopt. unfold from_config, build_optimizers.
    destruct Hopt as [<- | [<- | []]]; reflexivity.
Qed.

End Facts.

(** C10 at ['CORnet_S'], the fourth name of the script's [NET_NAMES]. *)
Lemma from_config_unknown_net_witness :
  In "CORnet_S"%string GenerateSourceDataCsv.NET_NAMES /\
  ~ In "CORnet_S"%string built_nets /\
  from_config Symbolic.ext "CORnet_S" 2 "ce" "SGD" (1 # 1000) (9 # 10) []
  = Raise (UnboundLocalError "model").
Proof.
  assert (H : ~ In "CORnet_S"%string built_nets).
  { simpl. intros [H | [H | [H | []]]]; discriminate. }
  split; [simpl; auto | split; [exact H |]].
  exact (from_config_unknown_net Symbolic.ext "CORnet_S" 2 "ce" "SGD"
                                 (1 # 1000) (9 # 10) [] H).
Defined.

(** C4 at ['VGG16']: the trainer holds the model of [nets.vgg16.build]. *)
Lemma from_config_dispatch_witness :
  from_config Symbolic.ext "VGG16" 2 "ce" "SGD" (1 # 1000) (9 # 10) []
  = Ok (Symbolic.TrainerOf
          [("net_name"%string, PStr "VGG16");
           ("model"%string, PModel (Symbolic.Vgg16 false 2));
           ("optimizers"%string,
            POptimizers [Symbolic.SGD (Symbolic.ParametersOf (Symbolic.Vgg16 false 2))
                                      (1 # 1000) (9 # 10)])]).
Proof.
  rewrite (proj1 (from_config_dispatch Symbolic.ext "VGG16"
                    (nets_vgg16_build Symbolic.ext) 2 "ce" "SGD" (1 # 1000) (9 # 10) []
                    (or_intror (or_introl eq_refl)))).
  reflexivity.
Defined.

(** C9 as first stated fails: with a [net_name] that has no branch, an
    [optimizer] outside the three still ends in an exception. *)
Lemma from_config_unknown_optimizer_counterexample :
  ~ In "RMSprop"%string known_optimizers /\
  from_config Symbolic.ext "CORnet_S" 2 "ce" "RMSprop" (1 # 1000) (9 # 10) []
  = Raise (UnboundLocalError "model").
Proof.
  split; [| reflexivity].
  simpl. intros [H | [H | [H | []]]]; discriminate.
Qed.

(** C9 as amended, at ['alexnet'] with an optimizer that has no branch. *)
Lemma from_config_unknown_optimizer_witness :
  from_config Symbolic.ext "alexnet" 2 "ce" "RMSprop" (1 # 1000) (9 # 10) []
  = Ok (Symbolic.TrainerOf
          [("net_name"%string, PStr "alexnet");
           ("model"%string, PModel (Symbolic.Alexnet false 2));
           ("optimizers"%string, POptimizers [])])
  /\ from_config Symbolic.ext "alexnet" 2 "ce" "Adam" (1 # 1000) (9 # 10) []
     = from_config Symbolic.ext "alexnet" 2 "ce" "Adam" (1 # 1000) (1 # 2) [].
Proof.
  pose proof (from_config_unknown_optimizer Symbolic.ext "alexnet" 2 "ce" "RMSprop"
                (1 # 1000) (9 # 10) (1 # 2) []) as [H1 _].
  pose proof (from_config_unknown_optimizer Symbolic.ext "alexnet" 2 "ce" "Adam"
                (1 # 1000) (9 # 10) (1 # 2) []) as [_ H2].
  split.
  - apply (H1 (Symbolic.Alexnet false 2)).
    + reflexivity.
    + intros k _ [].
    + simpl. intros [H | [H | [H | []]]]; discriminate.
  - apply H2. simpl. auto.
Defined.

End TrainerFacts.

(** ** The grouping and sorting steps of [main] *)

Module AnalysisFacts.

Import Pandas PyFacts PandasFacts GenerateSourceDataCsv.

Section WithArithmetic.

Context `{ar : Pandas.arithmetic}.

Lemma key_eqb_eq (k1 k2 : key) : key_eqb k1 k2 = true <-> k1 = k2.
Proof.
  destruct k1 as [[n1 s1] z1], k2 as [[n2 s2] z2]. simpl.
  rewrite !andb_true_iff, !String.eqb_eq, Z.eqb_eq. split.
  - intros [[-> ->] ->]. reflexivity.
  - intros [= -> -> ->]. auto.
Qed.

(** The row of [df_transfer_acc_mn] made for a key. *)
Lemma transfer_acc_mn_keys (df_all : list row) :
  map mn_key (transfer_acc_mn df_all)
  = sort key_leb
      (unique key_eqb
         (map key_of (filter (fun r => (method r =? "transfer")%string) df_all))).
Proof.
  unfold transfer_acc_mn. rewrite map_map.
  rewrite <- (map_id (sort _ _)) at 2. apply map_ext.
  intros [[n s] z]. reflexivity.
Qed.

Lemma transfer_acc_mn_In_key (df_all : list row) (k : key) :
  In k (map mn_key (transfer_acc_mn df_all)) <->
  exists r, In r df_all /\ method r = "transfer"%string /\ key_of r = k.
Proof.
  rewrite transfer_acc_mn_keys, sort_In, (unique_In _ key_eqb_eq), in_map_iff.
  split.
  - intros (r & Hk & Hr). apply filter_In in Hr. destruct Hr as [Hr Hm].
    apply String.eqb_eq in Hm. eauto.
  - intros (r & Hr & Hm & Hk). exists r. split; [assumption |].
    apply filter_In. split; [assumption | now apply String.eqb_eq].
Qed.

Lemma transfer_acc_mn_NoDup (df_all : list row) :
  NoDup (map mn_key (transfer_acc_mn df_all)).
Proof.
  rewrite transfer_acc_mn_keys. apply sort_NoDup, (unique_NoDup _ key_eqb_eq).
Qed.

(** C2.  For every [(net_name, stimulus, set_size)] found among the rows of
    [df_all] whose [method] is ['transfer'], the table [df_transfer_acc_mn]
    has exactly one row of that key, and its [accuracy] is the mean of the
    [accuracy] of those rows; every row of the table has such a key; and the
    table is the same when the rows whose [method] is ['initialize'] are
    taken out of [df_all]. *)
Theorem transfer_acc_mn_groups (df_all : list row) (n s : string) (z : Z) :
  ((exists r, In r df_all /\ method r = "transfer"%string /\ key_of r = (n, s, z)) ->
   rows_at (transfer_acc_mn df_all) n s z
   = [ {| mn_net_name := n;
          mn_stimulus := s;
          mn_set_size := z;
          mn_accuracy :=
            mean (map accuracy
                      (filter (fun r => (method r =? "transfer")%string
                                        && key_eqb (key_of r) (n, s, z))
                              df_all)) |} ])
  /\ (forall g, In g (transfer_acc_mn df_all) ->
      exists r, In r df_all /\ method r = "transfer"%string /\ key_of r = mn_key g)
  /\ transfer_acc_mn (filter (fun r => negb (method r =? "initialize")%string) df_all)
     = transfer_acc_mn df_all.
Proof.
  split; [| split].
  - intros Hex. unfold rows_at.
    apply (filter_unique_key mn_key).
    + apply transfer_acc_mn_NoDup.
    + apply transfer_acc_mn_In_key in Hex. rewrite transfer_acc_mn_keys in Hex.
      unfold transfer_acc_mn. rewrite <- filter_filter.
      apply in_map_iff. exists (n, s, z). split; [reflexivity | assumption].
    + intros g _. apply key_eqb_eq.
  - intros g Hg. apply transfer_acc_mn_In_key. now apply in_map.
  - unfold transfer_acc_mn. rewrite filter_filter.
    assert (E : filter (fun r => negb (method r =? "initialize")%string
                                 && (method r =? "transfer")%string) df_all
                = filter (fun r => (method r =? "transfer")%string) df_all).
    { apply filter_ext. intros r.
      destruct (String.eqb_spec (method r) "transfer") as [-> | _];
        [reflexivity | apply andb_false_r]. }
    rewrite E. reflexivity.
Qed.

(** *** The loops that fill [records] *)

Lemma acc_diff_records_traverse (df : list mn_row) :
  acc_diff_records df
  = bind (traverse (fun net => traverse (acc_diff_row_for df net) (stimuli_of df net))
                   (unique String.eqb (map mn_net_name df)))
         (fun yss => Ok (List.concat yss)).
Proof.
  unfold acc_diff_records.
  rewrite (for_each_extend
             (fun net => traverse (acc_diff_row_for df net) (stimuli_of df net))).
  - reflexivity.
  - intros acc net. unfold stimuli_of.
    apply (for_each_append (acc_diff_row_for df net)).
    intros acc' stim. unfold acc_diff_row_for.
    destruct (item _) as [a1 | e]; simpl; [| reflexivity].
    destruct (item _) as [a8 | e]; reflexivity.
Qed.

Lemma nested_filters (df : list mn_row) (n s : string) (z : Z) :
  filter (fun r => (mn_set_size r =? z)%Z)
         (filter (fun r => (mn_stimulus r =? s)%string)
                 (filter (fun r => (mn_net_name r =? n)%string) df))
  = rows_at df n s z.
Proof.
  unfold rows_at. rewrite !filter_filter. apply filter_ext.
  intros r. unfold mn_key, key_eqb. now rewrite andb_assoc.
Qed.

Lemma item_map_Ok {A : Type} (f : A -> Q) (l : list A) (x : Q) :
  item (map f l) = Ok x <-> exists r, l = [r] /\ f r = x.
Proof.
  destruct l as [| r [| r' l]]; simpl; split.
  - discriminate.
  - intros (r & H & _). discriminate.
  - intros [= <-]. now exists r.
  - intros (r0 & [= <-] & <-). reflexivity.
  - discriminate.
  - intros (r0 & H & _). discriminate.
Qed.

(** The row appended for a net and a stimulus: there has to be one row of
    set size 1 and one of set size 8, and the row holds their accuracies
    and the difference. *)
Lemma acc_diff_row_for_Ok (df : list mn_row) (n s : string) (r : acc_diff_row) :
  acc_diff_row_for df n s = Ok r <->
  exists r1 r8,
    rows_at df n s 1 = [r1] /\ rows_at df n s 8 = [r8] /\
    r = {| ad_net_name := n;
           ad_stimulus := s;
           set_size_1_acc := mn_accuracy r1;
           set_size_8_acc := mn_accuracy r8;
           acc_diff := minus (mn_accuracy r1) (mn_accuracy r8) |}.
Proof.
  unfold acc_diff_row_for. rewrite !nested_filters. split.
  - intros H. apply bind_Ok_inv in H. destruct H as (a1 & H1 & H).
    apply bind_Ok_inv in H. destruct H as (a8 & H8 & H).
    apply item_map_Ok in H1. destruct H1 as (r1 & E1 & <-).
    apply item_map_Ok in H8. destruct H8 as (r8 & E8 & <-).
    injection H as <-. now exists r1, r8.
  - intros (r1 & r8 & -> & -> & ->). reflexivity.
Qed.

Lemma In_nets (df : list mn_row) (n : string) :
  In n (unique String.eqb (map mn_net_name df)) <->
  exists g, In g df /\ mn_net_name g = n.
Proof.
  rewrite (unique_In _ String.eqb_eq), in_map_iff. split.
  - intros (g & <- & Hg). eauto.
  - intros (g & Hg & <-). eauto.
Qed.

Lemma In_stimuli_of (df : list mn_row) (n s : string) :
  In s (stimuli_of df n) <->
  exists g, In g df /\ mn_net_name g = n /\ mn_stimulus g = s.
Proof.
  unfold stimuli_of. rewrite (unique_In _ String.eqb_eq), in_map_iff. split.
  - intros (g & <- & Hg). apply filter_In in Hg. destruct Hg as [Hg Hn].
    apply String.eqb_eq in Hn. eauto.
  - intros (g & Hg & <- & <-). exists g. split; [reflexivity |].
    apply filter_In. split; [assumption | apply String.eqb_refl].
Qed.

(** When the loops end without an exception, [records] is the row of every
    net and every stimulus of that net, net after net. *)
Lemma acc_diff_records_Ok (df : list mn_row) (records : list acc_diff_row) :
  acc_diff_records df = Ok records ->
  exists row : string -> string -> acc_diff_row,
    (forall n s, In n (unique String.eqb (map mn_net_name df)) ->
                 In s (stimuli_of df n) ->
                 acc_diff_row_for df n s = Ok (row n s)) /\
    records = List.concat (map (fun n => map (row n) (stimuli_of df n))
                               (unique String.eqb (map mn_net_name df))).
Proof.
  rewrite acc_diff_records_traverse. intros H.
  apply bind_Ok_inv in H. destruct H as (yss & Hyss & [= <-]).
  apply traverse_Ok_inv in Hyss.
  pose (dummy := {| ad_net_name := ""; ad_stimulus := ""; set_size_1_acc := 0;
                    set_size_8_acc := 0; acc_diff := 0 |}).
  pose (row := fun n s =>
                 match acc_diff_row_for df n s with
                 | Ok r => r
                 | Raise _ => dummy
                 end).
  assert (Hrows : forall n ys,
             traverse (acc_diff_row_for df n) (stimuli_of df n) = Ok ys ->
             (forall s, In s (stimuli_of df n) -> acc_diff_row_for df n s = Ok (row n s))
             /\ ys = map (row n) (stimuli_of df n)).
  { intros n ys Hys. apply traverse_Ok_inv in Hys. split.
    - intros s Hs. unfold row.
      assert (Hy : exists y, acc_diff_row_for df n s = Ok y).
      { clear - Hys Hs. induction Hys as [| x y l ys' Hxy H IH]; [destruct Hs |].
        destruct Hs as [<- | Hs]; eauto. }
      destruct Hy as (y & ->). reflexivity.
    - apply (Forall2_map_of (acc_diff_row_for df n)); [| assumption].
      intros s y _ E. unfold row. now rewrite E. }
  exists row. split.
  - intros n s Hn Hs.
    assert (Hex : exists ys, traverse (acc_diff_row_for df n) (stimuli_of df n) = Ok ys).
    { clear - Hyss Hn. induction Hyss as [| x y l ys Hxy H IH]; [destruct Hn |].
      destruct Hn as [<- | Hn]; eauto. }
    destruct Hex as (ys & Hys). now apply (Hrows n ys).
  - f_equal.
    apply (Forall2_map_of
             (fun n => traverse (acc_diff_row_for df n) (stimuli_of df n)));
      [| assumption].
    intros n ys _ Hys. now apply (Hrows n ys).
Qed.

(** In a table listed net after net and, within a net, stimulus after
    stimulus, a net and a stimulus have one row. *)
Lemma one_row_per_pair (nets : list string) (stims : string -> list string)
    (row : string -> string -> acc_diff_row) (n0 s0 : string) :
  NoDup nets -> (forall n, NoDup (stims n)) ->
  (forall n s, In n nets -> In s (stims n) ->
               ad_net_name (row n s) = n /\ ad_stimulus (row n s) = s) ->
  In n0 nets -> In s0 (stims n0) ->
  acc_diff_at (List.concat (map (fun n => map (row n) (stims n)) nets)) n0 s0
  = [row n0 s0].
Proof.
  intros Hnets Hstims Hrow Hn0 Hs0. unfold acc_diff_at.
  rewrite filter_concat, map_map.
  rewrite (concat_map_single _ n0) by
    (try assumption;
     intros n Hn Hne; apply filter_none; intros r Hr;
     apply in_map_iff in Hr; destruct Hr as (s & <- & Hs);
     destruct (Hrow n s Hn Hs) as [-> _];
     apply andb_false_intro1; now apply String.eqb_neq).
  apply (filter_unique_key ad_stimulus).
  - rewrite map_map.
    rewrite (map_ext_in _ (fun s => s)), map_id; [apply Hstims |].
    intros s Hs. now apply Hrow.
  - now apply in_map.
  - intros r Hr. apply in_map_iff in Hr. destruct Hr as (s & <- & Hs).
    destruct (Hrow n0 s Hn0 Hs) as [-> ->].
    destruct (Hrow n0 s0 Hn0 Hs0) as [_ ->].
    rewrite String.eqb_refl. simpl. apply String.eqb_eq.
Qed.

Lemma stimuli_of_NoDup (df : list mn_row) (n : string) : NoDup (stimuli_of df n).
Proof. apply (unique_NoDup _ String.eqb_eq). Qed.

(** What a row of [records] is, and that its net and stimulus have no other
    row. *)
Lemma acc_diff_records_rows (df : list mn_row) (records : list acc_diff_row) :
  acc_diff_records df = Ok records ->
  (forall g, In g df ->
     exists r, acc_diff_row_for df (mn_net_name g) (mn_stimulus g) = Ok r /\
               acc_diff_at records (mn_net_name g) (mn_stimulus g) = [r]) /\
  (forall r, In r records ->
     acc_diff_row_for df (ad_net_name r) (ad_stimulus r) = Ok r /\
     acc_diff_at records (ad_net_name r) (ad_stimulus r) = [r]).
Proof.
  intros H. apply acc_diff_records_Ok in H. destruct H as (row & Hrow & ->).
  assert (Hlabels : forall n s,
             In n (unique String.eqb (map mn_net_name df)) ->
             In s (stimuli_of df n) ->
             ad_net_name (row n s) = n /\ ad_stimulus (row n s) = s).
  { intros n s Hn Hs. specialize (Hrow n s Hn Hs).
    apply acc_diff_row_for_Ok in Hrow. destruct Hrow as (r1 & r8 & _ & _ & ->).
    split; reflexivity. }
  assert (Hone : forall n s,
             In n (unique String.eqb (map mn_net_name df)) ->
             In s (stimuli_of df n) ->
             acc_diff_at
               (List.concat (map (fun n => map (row n) (stimuli_of df n))
                                 (unique String.eqb (map mn_net_name df)))) n s
             = [row n s]).
  { intros n s Hn Hs. apply one_row_per_pair; try assumption.
    - apply (unique_NoDup _ String.eqb_eq).
    - apply stimuli_of_NoDup. }
  split.
  - intros g Hg.
    assert (Hn : In (mn_net_name g) (unique String.eqb (map mn_net_name df)))
      by (apply In_nets; eauto).
    assert (Hs : In (mn_stimulus g) (stimuli_of df (mn_net_name g)))
      by (apply In_stimuli_of; eauto).
    exists (row (mn_net_name g) (mn_stimulus g)). auto.
  - intros r Hr. apply in_concat in Hr. destruct Hr as (rows & Hrows & Hr).
    apply in_map_iff in Hrows. destruct Hrows as (n & <- & Hn).
    apply in_map_iff in Hr. destruct Hr as (s & <- & Hs).
    destruct (Hlabels n s Hn Hs) as [-> ->]. auto.
Qed.

(** With one row of set size 1 and one of set size 8 for every net and
    stimulus, no [item()] fails and the loops end without an exception. *)
Lemma acc_diff_records_returns (df : list mn_row) :
  (forall g, In g df ->
     exists r1 r8,
       rows_at df (mn_net_name g) (mn_stimulus g) 1 = [r1] /\
       rows_at df (mn_net_name g) (mn_stimulus g) 8 = [r8]) ->
  exists records, acc_diff_records df = Ok records.
Proof.
  intros Hpre.
  pose (dummy := {| mn_net_name := ""; mn_stimulus := ""; mn_set_size := 0;
                    mn_accuracy := 0 |}).
  pose (row := fun n s =>
          {| ad_net_name := n;
             ad_stimulus := s;
             set_size_1_acc := mn_accuracy (hd dummy (rows_at df n s 1));
             set_size_8_acc := mn_accuracy (hd dummy (rows_at df n s 8));
             acc_diff := minus (mn_accuracy (hd dummy (rows_at df n s 1)))
                               (mn_accuracy (hd dummy (rows_at df n s 8))) |}).
  exists (List.concat (map (fun n => map (row n) (stimuli_of df n))
                           (unique String.eqb (map mn_net_name df)))).
  rewrite acc_diff_records_traverse.
  rewrite (traverse_all_Ok _ (fun n => map (row n) (stimuli_of df n))); [reflexivity |].
  intros n Hn. apply traverse_all_Ok. intros s Hs.
  apply In_stimuli_of in Hs. destruct Hs as (g & Hg & <- & <-).
  destruct (Hpre g Hg) as (r1 & r8 & H1 & H8).
  apply acc_diff_row_for_Ok. exists r1, r8. unfold row. now rewrite H1, H8.
Qed.

(** A grouped table with a row gives [records] a row. *)
Lemma acc_diff_records_nonempty (df : list mn_row) (records : list acc_diff_row) :
  acc_diff_records df = Ok records -> df <> [] -> from_records records = Ok records.
Proof.
  intros H Hne. destruct df as [| g df']; [contradiction |].
  destruct (proj1 (acc_diff_records_rows _ _ H) g (or_introl eq_refl)) as (r & _ & Hr).
  unfold acc_diff_at in Hr.
  destruct records as [| r0 rest]; [discriminate | reflexivity].
Qed.

(** C1.  When every net and stimulus of [df_transfer_acc_mn] has exactly one
    row of set size 1 and exactly one of set size 8, the loops of lines
    128-141 end without an exception and [df_acc_diff] is the table they
    fill (the grouped table having a row at all).  And whenever the loops end
    without an exception, every net and stimulus of the grouped table has
    that one row of set size 1 and that one row of set size 8 (an [item()]
    fails otherwise) and exactly one row in [df_acc_diff], whose
    [set_size_1_acc] and [set_size_8_acc] are the mean accuracies of these
    two rows and whose [acc_diff] is the first minus the second. *)
Theorem acc_diff_is_difference (df_transfer_acc_mn : list mn_row) :
  ((forall g, In g df_transfer_acc_mn ->
      exists r1 r8,
        rows_at df_transfer_acc_mn (mn_net_name g) (mn_stimulus g) 1 = [r1] /\
        rows_at df_transfer_acc_mn (mn_net_name g) (mn_stimulus g) 8 = [r8]) ->
   exists df_acc_diff,
     acc_diff_records df_transfer_acc_mn = Ok df_acc_diff /\
     (df_transfer_acc_mn <> [] -> from_records df_acc_diff = Ok df_acc_diff))
  /\ (forall df_acc_diff,
        acc_diff_records df_transfer_acc_mn = Ok df_acc_diff ->
        forall g, In g df_transfer_acc_mn ->
          exists r1 r8,
            rows_at df_transfer_acc_mn (mn_net_name g) (mn_stimulus g) 1 = [r1] /\
            rows_at df_transfer_acc_mn (mn_net_name g) (mn_stimulus g) 8 = [r8] /\
            acc_diff_at df_acc_diff (mn_net_name g) (mn_stimulus g)
            = [ {| ad_net_name := mn_net_name g;
                   ad_stimulus := mn_stimulus g;
                   set_size_1_acc := mn_accuracy r1;
                   set_size_8_acc := mn_accuracy r8;
                   acc_diff := minus (mn_accuracy r1) (mn_accuracy r8) |} ]).
Proof.
  set (df := df_transfer_acc_mn). split.
  - intros Hpre.
    destruct (acc_diff_records_returns df Hpre) as (records & Hok).
    exists records. split; [exact Hok | now apply acc_diff_records_nonempty].
  - intros records H g Hg.
    destruct (proj1 (acc_diff_records_rows df records H) g Hg) as (r & Hr & ->).
    apply acc_diff_row_for_Ok in Hr. destruct Hr as (r1 & r8 & H1 & H8 & ->).
    exists r1, r8. auto.
Qed.

(** *** The two orders of [sort_values] *)

Lemma net_before_iff (r1 r2 : net_row) :
  net_before r1 r2 = true <-> (nt_acc_diff r2 <= nt_acc_diff r1)%Q.
Proof. unfold net_before. apply Qle_bool_iff. Qed.

Lemma net_before_total (r1 r2 : net_row) :
  net_before r1 r2 = true \/ net_before r2 r1 = true.
Proof.
  rewrite !net_before_iff.
  destruct (Qlt_le_dec (nt_acc_diff r1) (nt_acc_diff r2)) as [H | H];
    [right; now apply Qlt_le_weak | now left].
Qed.

Lemma net_before_trans (r1 r2 r3 : net_row) :
  net_before r1 r2 = true -> net_before r2 r3 = true -> net_before r1 r3 = true.
Proof. rewrite !net_before_iff. intros H1 H2. lra. Qed.

(** [stim_before] is the order of the claim: a larger [set_size_1_acc], or
    an equal one and an [acc_diff] that is not smaller. *)
Lemma stim_before_iff (r1 r2 : stim_row) :
  stim_before r1 r2 = true <->
  (st_set_size_1_acc r2 < st_set_size_1_acc r1)%Q \/
  (st_set_size_1_acc r2 == st_set_size_1_acc r1 /\
   st_acc_diff r2 <= st_acc_diff r1)%Q.
Proof.
  unfold stim_before.
  destruct (st_set_size_1_acc r1 ?= st_set_size_1_acc r2)%Q eqn:E.
  - apply Qeq_alt in E. rewrite Qle_bool_iff. split.
    + intros H. right. split; [now symmetry | assumption].
    + intros [H | [_ H]]; [lra | assumption].
  - apply Qlt_alt in E. split; [discriminate |].
    intros [H | [H _]]; lra.
  - apply Qgt_alt in E. split; [intros _; now left | reflexivity].
Qed.

Lemma stim_before_total (r1 r2 : stim_row) :
  stim_before r1 r2 = true \/ stim_before r2 r1 = true.
Proof.
  rewrite !stim_before_iff.
  destruct (Q_dec (st_set_size_1_acc r1) (st_set_size_1_acc r2)) as [[H | H] | H].
  - right. now left.
  - left. now left.
  - destruct (Qlt_le_dec (st_acc_diff r1) (st_acc_diff r2)) as [H' | H'].
    + right. right. split; [assumption | now apply Qlt_le_weak].
    + left. right. split; [now symmetry | assumption].
Qed.

Lemma stim_before_trans (r1 r2 r3 : stim_row) :
  stim_before r1 r2 = true -> stim_before r2 r3 = true -> stim_before r1 r3 = true.
Proof.
  rewrite !stim_before_iff.
  intros [H1 | [H1 H1']] [H2 | [H2 H2']].
  - left. lra.
  - left. lra.
  - left. lra.
  - right. split; lra.
Qed.

(** The mean of one value is that value when nothing is rounded. *)
Lemma exact_mean_single (x : Q) : (exact_mean [x] == x)%Q.
Proof. unfold exact_mean, total. simpl. field. Qed.

Lemma StronglySorted_impl_in {A : Type} (R R' : A -> A -> Prop) (l : list A) :
  (forall a b, In a l -> In b l -> R a b -> R' a b) ->
  StronglySorted R l -> StronglySorted R' l.
Proof.
  intros H Hs. induction Hs as [| x l Hl IH Hx]; constructor.
  - apply IH. intros a b Ha Hb. apply H; now right.
  - rewrite Forall_forall in *. intros y Hy.
    apply H; [now left | now right | auto].
Qed.

(** *** [net_acc_diff_df] and [stim_acc_diff_df] *)

(** The nets and the stimuli of [df_acc_diff] in the order of [groupby]. *)
Lemma net_labels_perm (df : list acc_diff_row) :
  Permutation (map nt_net_name (net_acc_diff df))
              (sort String.leb (unique String.eqb (map ad_net_name df))).
Proof.
  unfold net_acc_diff. rewrite sort_perm, map_map. simpl. now rewrite map_id.
Qed.

Lemma stim_labels_perm (df : list acc_diff_row) :
  Permutation (map st_stimulus (stim_acc_diff df))
              (sort String.leb (unique String.eqb (map ad_stimulus df))).
Proof.
  unfold stim_acc_diff. rewrite sort_perm, map_map. simpl. now rewrite map_id.
Qed.

Lemma net_labels_In (df : list acc_diff_row) (n : string) :
  In n (map nt_net_name (net_acc_diff df)) <-> exists r, In r df /\ ad_net_name r = n.
Proof.
  split.
  - intros H. apply (Permutation_in _ (net_labels_perm df)) in H.
    apply sort_In, (unique_In _ String.eqb_eq), in_map_iff in H.
    destruct H as (r & <- & Hr). eauto.
  - intros (r & Hr & <-).
    apply (Permutation_in _ (Permutation_sym (net_labels_perm df))).
    apply sort_In, (unique_In _ String.eqb_eq). now apply in_map.
Qed.

Lemma stim_labels_In (df : list acc_diff_row) (s : string) :
  In s (map st_stimulus (stim_acc_diff df)) <-> exists r, In r df /\ ad_stimulus r = s.
Proof.
  split.
  - intros H. apply (Permutation_in _ (stim_labels_perm df)) in H.
    apply sort_In, (unique_In _ String.eqb_eq), in_map_iff in H.
    destruct H as (r & <- & Hr). eauto.
  - intros (r & Hr & <-).
    apply (Permutation_in _ (Permutation_sym (stim_labels_perm df))).
    apply sort_In, (unique_In _ String.eqb_eq). now apply in_map.
Qed.

Lemma net_labels_NoDup (df : list acc_diff_row) :
  NoDup (map nt_net_name (net_acc_diff df)).
Proof.
  apply (Permutation_NoDup (Permutation_sym (net_labels_perm df))).
  apply sort_NoDup, (unique_NoDup _ String.eqb_eq).
Qed.

Lemma stim_labels_NoDup (df : list acc_diff_row) :
  NoDup (map st_stimulus (stim_acc_diff df)).
Proof.
  apply (Permutation_NoDup (Permutation_sym (stim_labels_perm df))).
  apply sort_NoDup, (unique_NoDup _ String.eqb_eq).
Qed.

(** The rows of [net_acc_diff_df] go by decreasing mean [acc_diff]. *)
Lemma net_labels_sorted (df : list acc_diff_row) :
  StronglySorted
    (fun n1 n2 => (net_mean acc_diff df n2 <= net_mean acc_diff df n1)%Q)
    (map nt_net_name (net_acc_diff df)).
Proof.
  apply StronglySorted_map. unfold net_acc_diff.
  eapply StronglySorted_impl_in;
    [| apply (sort_sorted net_before net_before_total net_before_trans)].
  intros r1 r2 H1 H2 Hb. apply net_before_iff in Hb.
  apply sort_In, in_map_iff in H1. destruct H1 as (n1 & <- & _).
  apply sort_In, in_map_iff in H2. destruct H2 as (n2 & <- & _).
  exact Hb.
Qed.

(** The rows of [stim_acc_diff_df] go by decreasing mean [set_size_1_acc]
    and, where these are equal, by decreasing mean [acc_diff]. *)
Lemma stim_labels_sorted (df : list acc_diff_row) :
  StronglySorted
    (fun s1 s2 =>
       (stim_mean set_size_1_acc df s2 < stim_mean set_size_1_acc df s1)%Q \/
       (stim_mean set_size_1_acc df s2 == stim_mean set_size_1_acc df s1 /\
        stim_mean acc_diff df s2 <= stim_mean acc_diff df s1)%Q)
    (map st_stimulus (stim_acc_diff df)).
Proof.
  apply StronglySorted_map. unfold stim_acc_diff.
  eapply StronglySorted_impl_in;
    [| apply (sort_sorted stim_before stim_before_total stim_before_trans)].
  intros r1 r2 H1 H2 Hb. apply stim_before_iff in Hb.
  apply sort_In, in_map_iff in H1. destruct H1 as (s1 & <- & _).
  apply sort_In, in_map_iff in H2. destruct H2 as (s2 & <- & _).
  exact Hb.
Qed.

(** *** The pivot table *)

Lemma find_all_false {A : Type} (p : A -> bool) (l : list A) :
  (forall x, In x l -> p x = false) -> find p l = None.
Proof.
  induction l as [| x l IH]; simpl; [reflexivity |].
  intros H. rewrite (H x) by auto. apply IH. auto.
Qed.

Lemma acc_diff_by_stim_value (df : list acc_diff_row) :
  acc_diff_by_stim df (net_acc_diff df) (stim_acc_diff df)
  = if str_in "net_name" (map ad_stimulus df)
    then Raise (ValueError "name already used as a name or title")
    else Ok (sorted_pivot df).
Proof.
  unfold acc_diff_by_stim, through_records.
  set (nets := sort String.leb (unique String.eqb (map ad_net_name df))).
  set (stims := sort String.leb (unique String.eqb (map ad_stimulus df))).
  assert (Hcols : columns (pivot_table df) = stims) by reflexivity.
  assert (Hsame : str_in "net_name" stims = str_in "net_name" (map ad_stimulus df)).
  { apply eq_true_iff_eq. rewrite !str_in_In. unfold stims.
    now rewrite sort_In, (unique_In _ String.eqb_eq). }
  rewrite Hcols, Hsame.
  destruct (str_in "net_name" (map ad_stimulus df)); [reflexivity |].
  simpl. unfold select_columns. simpl.
  rewrite find_all_false.
  2:{ intros s Hs. apply negb_false_iff, str_in_In.
      apply (Permutation_in _ (stim_labels_perm df)). exact Hs. }
  unfold sorted_pivot. f_equal. f_equal.
  rewrite map_map. apply map_ext_in. intros n Hn.
  assert (Hn' : In n nets) by (apply (Permutation_in _ (net_labels_perm df)); exact Hn).
  rewrite (lookup_combine_map _ n nets Hn').
  apply map_ext_in. intros s Hs.
  assert (Hs' : In s stims) by (apply (Permutation_in _ (stim_labels_perm df)); exact Hs).
  rewrite (lookup_combine_map _ s stims Hs'). reflexivity.
Qed.

Lemma sorted_pivot_cell (df : list acc_diff_row) (n s : string) :
  In n (index (sorted_pivot df)) -> In s (columns (sorted_pivot df)) ->
  cell (sorted_pivot df) n s = cell_mean (map acc_diff (acc_diff_at df n s)).
Proof.
  intros Hn Hs. unfold cell. simpl in *.
  rewrite (lookup_combine_map _ n _ Hn), (lookup_combine_map _ s _ Hs).
  reflexivity.
Qed.

Lemma analyse_Ok_inv (df_list : list (list row)) (t : tables) :
  analyse df_list = Ok t ->
  concat df_list = Ok (df_all t) /\
  acc_diff_records (transfer_acc_mn (df_all t)) = Ok (df_acc_diff t) /\
  df_acc_diff t <> [] /\
  stim_acc_diff_df t = stim_acc_diff (df_acc_diff t) /\
  net_acc_diff_df t = net_acc_diff (df_acc_diff t) /\
  df_acc_diff_by_stim t = sorted_pivot (df_acc_diff t) /\
  ~ In "net_name"%string (map ad_stimulus (df_acc_diff t)).
Proof.
  unfold analyse. intros H.
  apply bind_Ok_inv in H. destruct H as (all & Hall & H).
  apply bind_Ok_inv in H. destruct H as (records & Hrec & H).
  apply bind_Ok_inv in H. destruct H as (df & Hdf & H).
  apply bind_Ok_inv in H. destruct H as (pv & Hpv & H).
  injection H as <-. simpl.
  assert (E : records = df /\ df <> []).
  { destruct records; [discriminate |]. injection Hdf as <-. split; [auto | discriminate]. }
  destruct E as [-> Hne].
  rewrite acc_diff_by_stim_value in Hpv.
  destruct (str_in "net_name" (map ad_stimulus df)) eqn:E; [discriminate |].
  injection Hpv as <-. apply str_in_not_In in E. auto 10.
Qed.

(** The grouping and sorting steps end without an exception when there is a
    frame, the transfer rows give the grouped table a row, every net and
    stimulus of it has its row of set size 1 and of set size 8, and no
    stimulus is called ['net_name']. *)
Lemma analyse_returns (df_list : list (list row)) :
  df_list <> [] ->
  transfer_acc_mn (List.concat df_list) <> [] ->
  (forall g, In g (transfer_acc_mn (List.concat df_list)) ->
     mn_stimulus g <> "net_name"%string /\
     exists r1 r8,
       rows_at (transfer_acc_mn (List.concat df_list))
               (mn_net_name g) (mn_stimulus g) 1 = [r1] /\
       rows_at (transfer_acc_mn (List.concat df_list))
               (mn_net_name g) (mn_stimulus g) 8 = [r8]) ->
  exists t, analyse df_list = Ok t.
Proof.
  intros Hframes Hrows Hpre. unfold analyse.
  set (l := df_list) in *.
  assert (Hcat : concat l = Ok (List.concat l)).
  { unfold l. destruct df_list; [contradiction | reflexivity]. }
  rewrite Hcat. cbn [bind].
  destruct (acc_diff_records_returns (transfer_acc_mn (List.concat l)))
    as (records & Hrec).
  { intros g Hg. now apply Hpre. }
  rewrite Hrec. cbn [bind].
  rewrite (acc_diff_records_nonempty _ _ Hrec Hrows). cbn [bind].
  rewrite acc_diff_by_stim_value.
  assert (E : str_in "net_name" (map ad_stimulus records) = false).
  { apply str_in_not_In. intros Hin. apply in_map_iff in Hin.
    destruct Hin as (r & Hs & Hr).
    destruct (proj2 (acc_diff_records_rows _ _ Hrec) r Hr) as [Hfor _].
    apply acc_diff_row_for_Ok in Hfor. destruct Hfor as (r1 & r8 & H1 & _ & _).
    assert (Hin1 : In r1 (rows_at (transfer_acc_mn (List.concat l))
                                  (ad_net_name r) (ad_stimulus r) 1))
      by (rewrite H1; now left).
    unfold rows_at in Hin1. apply filter_In in Hin1. destruct Hin1 as [Hin1 Hk].
    apply key_eqb_eq in Hk. injection Hk as _ Hst _.
    destruct (Hpre r1 Hin1) as [Hne _]. apply Hne. congruence. }
  rewrite E. simpl. eauto.
Qed.

(** C3.  The grouping and sorting steps of [main] end without an exception
    when there is a frame, the transfer rows give the grouped table a row,
    every net and stimulus of it has its row of set size 1 and of set size 8,
    and no stimulus is called ['net_name'].  Whenever they end without an
    exception, [df_acc_diff] is the non-empty table that lines 128-144 make
    of the transfer rows of the concatenated frames, and
    [df_acc_diff_by_stim] has one row per net of [df_acc_diff], in the order
    of [net_acc_diff_df], and one column per stimulus, in the order of
    [stim_acc_diff_df]; the cell of a net and a stimulus that have a row in
    [df_acc_diff] is the mean of the one [acc_diff] of that row, which is
    that [acc_diff] when the mean of one value is the value, and the cell of
    a net and a stimulus without one is missing; the rows go by decreasing
    mean [acc_diff] of the net over its stimuli; the columns go by decreasing
    mean [set_size_1_acc] of the stimulus over the nets and, between stimuli
    of equal mean [set_size_1_acc], by decreasing mean [acc_diff].  The means
    are the values that the aggregation ['mean'] gives, rounded as it rounds
    them. *)
Theorem acc_diff_by_stim_pivot (df_list : list (list row)) :
  (df_list <> [] ->
   transfer_acc_mn (List.concat df_list) <> [] ->
   (forall g, In g (transfer_acc_mn (List.concat df_list)) ->
      mn_stimulus g <> "net_name"%string /\
      exists r1 r8,
        rows_at (transfer_acc_mn (List.concat df_list))
                (mn_net_name g) (mn_stimulus g) 1 = [r1] /\
        rows_at (transfer_acc_mn (List.concat df_list))
                (mn_net_name g) (mn_stimulus g) 8 = [r8]) ->
   exists t, analyse df_list = Ok t)
  /\ forall t, analyse df_list = Ok t ->
     let df := df_acc_diff t in
     let pv := df_acc_diff_by_stim t in
     (df_all t = List.concat df_list /\
      acc_diff_records (transfer_acc_mn (List.concat df_list)) = Ok df /\
      df <> [] /\
      net_acc_diff_df t = net_acc_diff df /\
      stim_acc_diff_df t = stim_acc_diff df)
     /\ (index pv = map nt_net_name (net_acc_diff_df t) /\
         NoDup (index pv) /\
         forall n, In n (index pv) <-> exists r, In r df /\ ad_net_name r = n)
     /\ (columns pv = map st_stimulus (stim_acc_diff_df t) /\
         NoDup (columns pv) /\
         forall s, In s (columns pv) <-> exists r, In r df /\ ad_stimulus r = s)
     /\ (List.length (data pv) = List.length (index pv) /\
         Forall (fun cells => List.length cells = List.length (columns pv)) (data pv))
     /\ (forall r, In r df ->
           acc_diff_at df (ad_net_name r) (ad_stimulus r) = [r] /\
           cell pv (ad_net_name r) (ad_stimulus r) = Some (mean [acc_diff r]))
     /\ ((forall x, (mean [x] == x)%Q) ->
         forall r, In r df ->
           exists q, cell pv (ad_net_name r) (ad_stimulus r) = Some q /\
                     (q == acc_diff r)%Q)
     /\ (forall n s, In n (index pv) -> In s (columns pv) ->
           acc_diff_at df n s = [] -> cell pv n s = None)
     /\ StronglySorted
          (fun n1 n2 => (net_mean acc_diff df n2 <= net_mean acc_diff df n1)%Q)
          (index pv)
     /\ StronglySorted
          (fun s1 s2 =>
             (stim_mean set_size_1_acc df s2 < stim_mean set_size_1_acc df s1)%Q \/
             (stim_mean set_size_1_acc df s2 == stim_mean set_size_1_acc df s1 /\
              stim_mean acc_diff df s2 <= stim_mean acc_diff df s1)%Q)
          (columns pv).
Proof.
  split; [apply analyse_returns |].
  intros t H. apply analyse_Ok_inv in H.
  destruct H as (Hall & Hrec & Hne & Hstim & Hnet & Hpv & _).
  assert (Hcat : df_all t = List.concat df_list).
  { unfold concat in Hall. destruct df_list; [discriminate | now injection Hall]. }
  rewrite Hcat in Hrec.
  assert (Hcell : forall r, In r (df_acc_diff t) ->
             acc_diff_at (df_acc_diff t) (ad_net_name r) (ad_stimulus r) = [r] /\
             cell (sorted_pivot (df_acc_diff t)) (ad_net_name r) (ad_stimulus r)
             = Some (mean [acc_diff r])).
  { intros r Hr.
    destruct (proj2 (acc_diff_records_rows _ _ Hrec) r Hr) as [_ Hone].
    split; [exact Hone |].
    rewrite sorted_pivot_cell.
    - rewrite Hone. reflexivity.
    - apply net_labels_In. eauto.
    - apply stim_labels_In. eauto. }
  cbv zeta. rewrite Hpv, Hstim, Hnet.
  set (df := df_acc_diff t) in *.
  split; [auto |].
  split; [split; [reflexivity | split; [apply net_labels_NoDup | apply net_labels_In]] |].
  split; [split; [reflexivity | split; [apply stim_labels_NoDup | apply stim_labels_In]] |].
  split.
  { split.
    - simpl. now rewrite length_map.
    - simpl. apply Forall_forall. intros cells Hc.
      apply in_map_iff in Hc. destruct Hc as (n & <- & _). now rewrite length_map. }
  split; [exact Hcell |].
  split.
  { intros Hone r Hr. destruct (Hcell r Hr) as [_ ->].
    eexists. split; [reflexivity | apply Hone]. }
  split.
  { intros n s Hn Hs Hnone. rewrite sorted_pivot_cell by assumption.
    now rewrite Hnone. }
  split; [apply net_labels_sorted | apply stim_labels_sorted].
Qed.

End WithArithmetic.

End AnalysisFacts.

(** ** The run of [main]: what is read and what is written *)

Module MainFacts.

Import Pandas PyFacts PandasFacts GenerateSourceDataCsv.
Local Open Scope io_scope.

Section WithArithmetic.

Context `{ar : Pandas.arithmetic}.

Lemma only_reads_refl (E : env) (a : args) (w : world) : only_reads E a w w.
Proof.
  split; [reflexivity |]. exists []. split; [now rewrite app_nil_r | constructor].
Qed.

Lemma only_reads_trans (E : env) (a : args) (w1 w2 w3 : world) :
  only_reads E a w1 w2 -> only_reads E a w2 w3 -> only_reads E a w1 w3.
Proof.
  intros [Hw1 (n1 & Hr1 & Hf1)] [Hw2 (n2 & Hr2 & Hf2)]. split; [congruence |].
  exists (n1 ++ n2). split.
  - now rewrite Hr2, Hr1, app_assoc.
  - apply Forall_app. auto.
Qed.

(** A loop keeps what each run of its body keeps. *)
Lemma for_eachM_keeps {A S : Type} (R : world -> world -> Prop)
    (body : S -> A -> M S) (l : list A) :
  (forall w, R w w) ->
  (forall w1 w2 w3, R w1 w2 -> R w2 w3 -> R w1 w3) ->
  (forall acc x w r w', In x l -> body acc x w = (r, w') -> R w w') ->
  forall acc w r w', for_eachM l body acc w = (r, w') -> R w w'.
Proof.
  intros Hrefl Htrans. induction l as [| x l IH]; intros Hbody acc w r w' H.
  - injection H as <- <-. apply Hrefl.
  - simpl in H. unfold bindM in H.
    destruct (body acc x w) as [[acc1 | e] w1] eqn:E.
    + apply (Htrans w w1 w').
      * apply (Hbody acc x w (Ok acc1) w1); [now left | assumption].
      * apply (IH (fun acc x w r w' Hin => Hbody acc x w r w' (or_intror Hin))
                  acc1 w1 r w' H).
    + injection H as <- <-.
      apply (Hbody acc x w (Raise e) w1); [now left | assumption].
Qed.

(** A loop that ends without an exception has run its body without an
    exception on every element. *)
Lemma for_eachM_Ok_inv {A S : Type} (body : S -> A -> M S) (l : list A) :
  forall acc w acc' w',
    for_eachM l body acc w = (Ok acc', w') ->
    forall x, In x l ->
      exists acc1 w1 acc2 w2, body acc1 x w1 = (Ok acc2, w2).
Proof.
  induction l as [| y l IH]; intros acc w acc' w' H x Hx; [destruct Hx |].
  simpl in H. unfold bindM in H.
  destruct (body acc y w) as [[acc1 | e] w1] eqn:E; [| discriminate].
  destruct Hx as [<- | Hx]; [eauto 6 | eapply IH; eauto].
Qed.

Lemma for_eachM_app {A S : Type} (body : S -> A -> M S) (l1 l2 : list A)
    (acc : S) (w : world) :
  for_eachM (l1 ++ l2) body acc w
  = match for_eachM l1 body acc w with
    | (Ok acc1, w1) => for_eachM l2 body acc1 w1
    | (Raise e, w1) => (Raise e, w1)
    end.
Proof.
  revert acc w. induction l1 as [| x l1 IH]; intros acc w; simpl; [reflexivity |].
  unfold bindM. destruct (body acc x w) as [[acc1 | e] w1]; [apply IH | reflexivity].
Qed.

(** *** The reading loops *)

Lemma length_one {A : Type} (l : list A) :
  (List.length l =? 1)%nat = true -> exists x, l = [x].
Proof.
  destruct l as [| x [| y l]]; simpl; try discriminate. eauto.
Qed.

(** What the body of the innermost loop does, by the paths found. *)
Lemma mode_body_cases (E : env) (a : args) (net_name method mode : string)
    (df_list : list (list row)) (w : world) :
  mode_body E a net_name method df_list mode w
  = match paths_for E a net_name method mode with
    | Raise e => (Raise e, w)
    | Ok [results_gz_path] =>
        match split_csv_path a net_name with
        | Raise e => (Raise e, w)
        | Ok csv_path =>
            bindM (call_results_gz_to_df E
                     {| rc_results_gz_path := results_gz_path;
                        rc_csv_path := csv_path;
                        rc_net_name := net_name;
                        rc_method := method;
                        rc_mode := mode;
                        rc_learning_rate := learning_rate a |})
                  (fun df => ret (df_list ++ [df])) w
        end
    | Ok paths =>
        (Raise (ValueError ("found more than one results.gz file: "
                            +++ repr_list (map (path_repr E) paths))), w)
    end.
Proof.
  unfold mode_body, paths_for, bindM, lift.
  destruct (glob E (results_root E a) (glob_pattern net_name method))
    as [found | e]; [| reflexivity].
  cbn [bind].
  destruct (filter_by_mode mode found) as [paths | e]; [| reflexivity].
  destruct paths as [| p [| p' paths]]; try reflexivity.
Qed.

Lemma mode_body_only_reads (E : env) (a : args) (net_name method mode : string)
    (df_list : list (list row)) (w : world) (r : result (list (list row)))
    (w' : world) :
  In net_name (net_names a) -> In method (methods a) -> In mode (modes a) ->
  mode_body E a net_name method df_list mode w = (r, w') ->
  only_reads E a w w'.
Proof.
  intros Hn Hm Hd. rewrite mode_body_cases.
  destruct (paths_for E a net_name method mode) as [paths | e] eqn:Hp.
  2:{ intros [= <- <-]. apply only_reads_refl. }
  destruct paths as [| p [| p' paths]];
    try (intros [= <- <-]; apply only_reads_refl).
  destruct (split_csv_path a net_name) as [csv_path | e] eqn:Hc.
  2:{ intros [= <- <-]. apply only_reads_refl. }
  unfold bindM, call_results_gz_to_df, ret.
  intros H.
  assert (Hw : w' = {| reads := reads w ++
                         [{| rc_results_gz_path := p; rc_csv_path := csv_path;
                             rc_net_name := net_name; rc_method := method;
                             rc_mode := mode;
                             rc_learning_rate := learning_rate a |}];
                       written := written w |}).
  { destruct (results_gz_to_df E _); now injection H as _ <-. }
  subst w'. split; [reflexivity |]. eexists. split; [reflexivity |].
  constructor; [| constructor].
  unfold read_by_main. simpl. auto 10.
Qed.

Lemma method_body_only_reads (E : env) (a : args) (net_name method : string)
    (df_list : list (list row)) (w : world) (r : result (list (list row)))
    (w' : world) :
  In net_name (net_names a) -> In method (methods a) ->
  method_body E a net_name df_list method w = (r, w') ->
  only_reads E a w w'.
Proof.
  intros Hn Hm. unfold method_body.
  destruct (negb (str_in method METHODS)).
  - intros [= <- <-]. apply only_reads_refl.
  - apply for_eachM_keeps.
    + apply only_reads_refl.
    + apply only_reads_trans.
    + intros acc mode w1 r1 w1' Hd. now apply mode_body_only_reads.
Qed.

Lemma read_all_only_reads (E : env) (a : args) (w : world)
    (r : result (list (list row))) (w' : world) :
  read_all E a w = (r, w') -> only_reads E a w w'.
Proof.
  unfold read_all. apply for_eachM_keeps.
  - apply only_reads_refl.
  - apply only_reads_trans.
  - intros acc net_name w1 r1 w1' Hn. unfold net_body. apply for_eachM_keeps.
    + apply only_reads_refl.
    + apply only_reads_trans.
    + intros acc' method w2 r2 w2' Hm. now apply method_body_only_reads.
Qed.

(** When the loops end without an exception, the body of the innermost loop
    has ended without one for every net, method and mode of the lists. *)
Lemma read_all_Ok_inv (E : env) (a : args) (w : world)
    (df_list : list (list row)) (w' : world) :
  read_all E a w = (Ok df_list, w') ->
  forall net_name method mode,
    In net_name (net_names a) -> In method (methods a) -> In mode (modes a) ->
    str_in method METHODS = true /\
    exists acc1 w1 acc2 w2,
      mode_body E a net_name method acc1 mode w1 = (Ok acc2, w2).
Proof.
  intros H net_name method mode Hn Hm Hd.
  destruct (for_eachM_Ok_inv _ _ _ _ _ _ H net_name Hn) as (a1 & w1 & a2 & w2 & H1).
  unfold net_body in H1.
  destruct (for_eachM_Ok_inv _ _ _ _ _ _ H1 method Hm) as (a3 & w3 & a4 & w4 & H2).
  unfold method_body in H2.
  destruct (str_in method METHODS); [| discriminate]. simpl in H2.
  split; [reflexivity |].
  exact (for_eachM_Ok_inv _ _ _ _ _ _ H2 mode Hd).
Qed.

(** The steps of [main] one after the other. *)
Lemma main_steps (E : env) (a : args) (w : world) :
  main E a w
  = if negb (path_exists E (source_root E a)) then
      (Raise (NotADirectoryError
                ("directory specified as source_data_root not found: "
                 +++ source_root E a)), w)
    else
      match read_all E a w with
      | (Raise e, w1) => (Raise e, w1)
      | (Ok df_list, w1) =>
          match analyse df_list with
          | Raise e => (Raise e, w1)
          | Ok t => save E a t w1
          end
      end.
Proof.
  unfold main. destruct (negb _); [reflexivity |].
  unfold bindM, lift. destruct (read_all E a w) as [[df_list | e] w1]; [| reflexivity].
  destruct (analyse df_list); reflexivity.
Qed.

(** [save] adds files and reads nothing; an exception in it is one of
    [to_csv]. *)
Lemma save_cases (E : env) (a : args) (t : tables) (w : world)
    (r : result unit) (w' : world) :
  save E a t w = (r, w') ->
  reads w' = reads w /\
  match r with
  | Raise e => from_to_csv e
  | Ok _ =>
      written w'
      = written w ++
        [(joinpath E (source_root E a) (all_csv_filename a), CsvAll (df_all t));
         (joinpath E (source_root E a) (acc_diff_csv_filename a),
          CsvAccDiff (df_acc_diff t));
         (joinpath E (source_root E a) (stim_acc_diff_csv_filename a),
          CsvStimAccDiff (stim_acc_diff_df t));
         (joinpath E (source_root E a) (net_acc_diff_csv_filename a),
          CsvNetAccDiff (net_acc_diff_df t));
         (joinpath E (source_root E a) (acc_diff_by_stim_csv_filename a),
          CsvAccDiffByStim (df_acc_diff_by_stim t))]
  end.
Proof.
  unfold save, bindM, to_csv, from_to_csv.
  repeat match goal with
         | |- context [to_csv_error E ?p] => destruct (to_csv_error E p)
         end;
    intros [= <- <-]; simpl; rewrite <- ?app_assoc; simpl; eauto.
Qed.

Lemma read_all_Ok_methods (E : env) (a : args) (w : world)
    (df_list : list (list row)) (w' : world) :
  read_all E a w = (Ok df_list, w') -> net_names a <> [] ->
  forall method, In method (methods a) -> In method METHODS.
Proof.
  intros H Hne method Hm.
  destruct (net_names a) as [| net_name nets] eqn:En; [contradiction |].
  unfold read_all in H. rewrite En in H.
  destruct (for_eachM_Ok_inv _ _ _ _ _ _ H net_name (or_introl eq_refl))
    as (a1 & w1 & a2 & w2 & H1).
  unfold net_body in H1.
  destruct (for_eachM_Ok_inv _ _ _ _ _ _ H1 method Hm) as (a3 & w3 & a4 & w4 & H2).
  unfold method_body in H2. apply str_in_In.
  destruct (str_in method METHODS); [reflexivity | discriminate].
Qed.

(** Whatever [main] ends in, it has read archives only as the loops read
    them. *)
Lemma main_reads (E : env) (a : args) (w : world) (r : result unit) (w' : world) :
  main E a w = (r, w') ->
  exists new, reads w' = reads w ++ new /\ Forall (read_by_main E a) new.
Proof.
  rewrite main_steps. destruct (negb _).
  { intros [= <- <-]. exists []. split; [now rewrite app_nil_r | constructor]. }
  destruct (read_all E a w) as [[df_list | e] w1] eqn:Hread;
    apply read_all_only_reads in Hread; destruct Hread as [_ Hnew].
  - destruct (analyse df_list) as [t | e].
    + intros H. apply save_cases in H. destruct H as [-> _]. exact Hnew.
    + intros [= <- <-]. exact Hnew.
  - intros [= <- <-]. exact Hnew.
Qed.

(** An exception of the body of the innermost loop is the exception of
    [main], in the world in which it was raised. *)
Lemma main_raises_at (E : env) (a : args) (w : world)
    (net_name method mode : string) (df_list : list (list row)) (w1 : world)
    (e : exn) (w' : world) :
  reaches E a w net_name method mode df_list w1 ->
  mode_body E a net_name method df_list mode w1 = (Raise e, w') ->
  main E a w = (Raise e, w').
Proof.
  intros (Hroot & nb & na & mb & ma & db & da & l1 & w2 & l2 & w3
          & Hn & Hnb & Hm & Hmb & Hvalid & Hd & Hdb) Hbody.
  rewrite main_steps, Hroot. simpl.
  unfold read_all. rewrite Hn, for_eachM_app, Hnb. simpl. unfold bindM at 1.
  unfold net_body at 1. rewrite Hm, for_eachM_app, Hmb. simpl. unfold bindM at 1.
  unfold method_body at 1. rewrite Hvalid. simpl.
  rewrite Hd, for_eachM_app, Hdb. simpl. unfold bindM at 1.
  rewrite Hbody. reflexivity.
Qed.

(** C5, as amended.  For a net, a method and a mode whose list of paths,
    matched by the pattern and kept for the mode, has a length other than one
    (none, or more than one): the body of the loop raises the [ValueError]
    that says 'found more than one results.gz file', with the list, and reads
    nothing; the message is the same with an empty list; when the loops of
    [main] get to the three ([source_data_root] exists, the method is a
    valid one, and what the loops do before has ended without an exception),
    this is the exception [main] ends in, in the state the loops had got to;
    and whenever the three are in the lists given to [main], [main] ends in
    an exception and has read no archive for them. *)
Theorem results_gz_count_guard (E : env) (a : args)
    (net_name method mode : string) (paths : list string) :
  paths_for E a net_name method mode = Ok paths ->
  List.length paths <> 1%nat ->
  (forall df_list w,
     mode_body E a net_name method df_list mode w
     = (Raise (ValueError ("found more than one results.gz file: "
                           +++ repr_list (map (path_repr E) paths))), w))
  /\ (paths = [] ->
      forall df_list w,
        mode_body E a net_name method df_list mode w
        = (Raise (ValueError "found more than one results.gz file: []"), w))
  /\ (forall w df_list w1,
        reaches E a w net_name method mode df_list w1 ->
        main E a w
        = (Raise (ValueError ("found more than one results.gz file: "
                              +++ repr_list (map (path_repr E) paths))), w1))
  /\ (In net_name (net_names a) -> In method (methods a) -> In mode (modes a) ->
      forall w r w',
        main E a w = (r, w') ->
        (exists e, r = Raise e) /\
        exists new,
          reads w' = reads w ++ new /\
          forall c, In c new ->
            ~ (rc_net_name c = net_name /\ rc_method c = method /\ rc_mode c = mode)).
Proof.
  intros Hp Hlen.
  assert (Hbody : forall df_list w,
             mode_body E a net_name method df_list mode w
             = (Raise (ValueError ("found more than one results.gz file: "
                                   +++ repr_list (map (path_repr E) paths))), w)).
  { intros df_list w. rewrite mode_body_cases, Hp.
    destruct paths as [| p [| p' paths]]; [reflexivity | | reflexivity].
    now contradiction Hlen. }
  split; [exact Hbody | split; [| split]].
  - intros -> df_list w. now rewrite Hbody.
  - intros w df_list w1 Hreach.
    apply (main_raises_at _ _ _ _ _ _ _ _ _ _ Hreach). apply Hbody.
  - intros Hn Hm Hd w r w' Hmain. split.
    + rewrite main_steps in Hmain. destruct (negb _).
      { injection Hmain as <- _. eauto. }
      destruct (read_all E a w) as [[df_list | e] w1] eqn:Hread.
      * destruct (read_all_Ok_inv _ _ _ _ _ Hread net_name method mode Hn Hm Hd)
          as (_ & acc1 & w2 & acc2 & w3 & Hok).
        rewrite Hbody in Hok. discriminate.
      * injection Hmain as <- _. eauto.
    + destruct (main_reads _ _ _ _ _ Hmain) as (new & Hnew & Hall).
      exists new. split; [exact Hnew |].
      intros c Hc (<- & <- & <-).
      rewrite Forall_forall in Hall.
      destruct (Hall c Hc) as (_ & _ & _ & Hone & _).
      rewrite Hp in Hone. injection Hone as ->. now apply Hlen.
Qed.

(** C7, as amended.  The split csv given to [results_gz_to_df] goes by the
    net: for ['alexnet'] and for every name that holds ['CORnet'] it is
    [alexnet_split_csv_path]; for ['VGG16'] it is [VGG16_split_csv_path];
    for any other name the choice raises the [ValueError] 'no csv path
    defined for net_name'.  For such a name, the body of the loop raises this
    exception once it has found its one path, before any read, and so does
    [main] when its loops get there; and when the name is in [net_names] and
    neither [methods] nor [modes] is empty, [main] ends in an exception and
    reads no archive for that net.  Every archive read in a run of [main] was
    read with the csv chosen for its net. *)
Theorem split_csv_by_net (E : env) (a : args) :
  (forall net_name,
     net_name = "alexnet"%string \/ contains "CORnet" net_name = true ->
     split_csv_path a net_name = Ok (alexnet_split_csv_path a))
  /\ split_csv_path a "VGG16" = Ok (VGG16_split_csv_path a)
  /\ (forall net_name,
        net_name <> "alexnet"%string -> contains "CORnet" net_name = false ->
        net_name <> "VGG16"%string ->
        split_csv_path a net_name
        = Raise (ValueError ("no csv path defined for net_name: " +++ net_name))
        /\ (forall method mode results_gz_path,
              paths_for E a net_name method mode = Ok [results_gz_path] ->
              (forall df_list w,
                 mode_body E a net_name method df_list mode w
                 = (Raise (ValueError ("no csv path defined for net_name: "
                                       +++ net_name)), w)) /\
              (forall w df_list w1,
                 reaches E a w net_name method mode df_list w1 ->
                 main E a w
                 = (Raise (ValueError ("no csv path defined for net_name: "
                                       +++ net_name)), w1)))
        /\ (In net_name (net_names a) -> methods a <> [] -> modes a <> [] ->
            forall w r w',
              main E a w = (r, w') ->
              (exists e, r = Raise e) /\
              exists new,
                reads w' = reads w ++ new /\
                forall c, In c new -> rc_net_name c <> net_name))
  /\ (forall w r w',
        main E a w = (r, w') ->
        exists new,
          reads w' = reads w ++ new /\
          forall c, In c new -> split_csv_path a (rc_net_name c) = Ok (rc_csv_path c)).
Proof.
  split; [| split; [| split]].
  - intros net_name [-> | H]; unfold split_csv_path; [reflexivity |].
    now rewrite H, orb_true_r.
  - reflexivity.
  - intros net_name Ha Hc Hv.
    assert (Hraise : split_csv_path a net_name
                     = Raise (ValueError ("no csv path defined for net_name: "
                                          +++ net_name))).
    { unfold split_csv_path. rewrite Hc.
      apply String.eqb_neq in Ha, Hv. now rewrite Ha, Hv. }
    split; [exact Hraise | split].
    + intros method mode p Hp.
      assert (Hbody : forall df_list w,
                 mode_body E a net_name method df_list mode w
                 = (Raise (ValueError ("no csv path defined for net_name: "
                                       +++ net_name)), w)).
      { intros df_list w. now rewrite mode_body_cases, Hp, Hraise. }
      split; [exact Hbody |].
      intros w df_list w1 Hreach.
      apply (main_raises_at _ _ _ _ _ _ _ _ _ _ Hreach). apply Hbody.
    + intros Hn Hms Hds w r w' Hmain. split.
      * rewrite main_steps in Hmain. destruct (negb _).
        { injection Hmain as <- _. eauto. }
        destruct (read_all E a w) as [[df_list | e] w1] eqn:Hread.
        -- destruct (methods a) as [| method ms] eqn:Em; [contradiction |].
           destruct (modes a) as [| mode ds] eqn:Ed; [contradiction |].
           destruct (read_all_Ok_inv _ _ _ _ _ Hread net_name method mode)
             as (_ & acc1 & w2 & acc2 & w3 & Hok);
             [assumption | rewrite Em; now left | rewrite Ed; now left |].
           rewrite mode_body_cases in Hok.
           destruct (paths_for E a net_name method mode) as [paths | e];
             [| discriminate].
           destruct paths as [| p [| p' paths]]; try discriminate.
           rewrite Hraise in Hok. discriminate.
        -- injection Hmain as <- _. eauto.
      * destruct (main_reads _ _ _ _ _ Hmain) as (new & Hnew & Hall).
        exists new. split; [exact Hnew |].
        rewrite Forall_forall in Hall. intros c Hin Heq.
        destruct (Hall c Hin) as (_ & _ & _ & _ & Hcsv & _).
        rewrite Heq, Hraise in Hcsv. discriminate.
  - intros w r w' Hmain.
    destruct (main_reads _ _ _ _ _ Hmain) as (new & Hnew & Hall).
    exists new. split; [exact Hnew |].
    rewrite Forall_forall in Hall. intros c Hc. now apply Hall.
Qed.

(** C8.  The five files are the last thing [main] does.  A run that ends in
    an exception other than one of [to_csv] itself (so in any of the five
    that [main] raises: the missing [source_data_root], the invalid method,
    the invalid mode, the number of results.gz files, the net without a csv
    path; and also in one of [glob], of [results_gz_to_df] or of a pandas
    step) has written no file.  A run that ends without an exception has read every
    archive and computed the five frames before its first write, and has
    then written the five files, in order, and read nothing more. *)
Theorem main_writes_last (E : env) (a : args) (w : world)
    (r : result unit) (w' : world) :
  main E a w = (r, w') ->
  match r with
  | Raise e =>
      (~ from_to_csv e -> written w' = written w) /\
      (forall msg, e = NotADirectoryError msg \/ e = ValueError msg ->
                   written w' = written w)
  | Ok _ =>
      exists df_list w1 t,
        read_all E a w = (Ok df_list, w1) /\
        written w1 = written w /\
        analyse df_list = Ok t /\
        reads w' = reads w1 /\
        written w'
        = written w ++
          [(joinpath E (source_root E a) (all_csv_filename a), CsvAll (df_all t));
           (joinpath E (source_root E a) (acc_diff_csv_filename a),
            CsvAccDiff (df_acc_diff t));
           (joinpath E (source_root E a) (stim_acc_diff_csv_filename a),
            CsvStimAccDiff (stim_acc_diff_df t));
           (joinpath E (source_root E a) (net_acc_diff_csv_filename a),
            CsvNetAccDiff (net_acc_diff_df t));
           (joinpath E (source_root E a) (acc_diff_by_stim_csv_filename a),
            CsvAccDiffByStim (df_acc_diff_by_stim t))]
  end.
Proof.
  intros Hmain.
  assert (Hgen :
    match r with
    | Raise e => ~ from_to_csv e -> written w' = written w
    | Ok _ =>
        exists df_list w1 t,
          read_all E a w = (Ok df_list, w1) /\
          written w1 = written w /\
          analyse df_list = Ok t /\
          reads w' = reads w1 /\
          written w'
          = written w ++
            [(joinpath E (source_root E a) (all_csv_filename a), CsvAll (df_all t));
             (joinpath E (source_root E a) (acc_diff_csv_filename a),
              CsvAccDiff (df_acc_diff t));
             (joinpath E (source_root E a) (stim_acc_diff_csv_filename a),
              CsvStimAccDiff (stim_acc_diff_df t));
             (joinpath E (source_root E a) (net_acc_diff_csv_filename a),
              CsvNetAccDiff (net_acc_diff_df t));
             (joinpath E (source_root E a) (acc_diff_by_stim_csv_filename a),
              CsvAccDiffByStim (df_acc_diff_by_stim t))]
    end).
  { revert Hmain. rewrite main_steps. destruct (negb _).
    { intros [= <- <-]. reflexivity. }
    destruct (read_all E a w) as [[df_list | e] w1] eqn:Hread;
      pose proof (read_all_only_reads _ _ _ _ _ Hread) as [Hw _].
    2:{ intros [= <- <-]. intros _. exact Hw. }
    destruct (analyse df_list) as [t | e] eqn:Ht.
    2:{ intros [= <- <-]. intros _. exact Hw. }
    intros Hsave. apply save_cases in Hsave. destruct Hsave as [Hr Hsave].
    destruct r as [[] | e].
    - exists df_list, w1, t. rewrite <- Hw. auto.
    - intros Hno. contradiction. }
  destruct r as [u | e]; [exact Hgen |].
  split; [exact Hgen |].
  intros msg Hmsg. apply Hgen. intros [detail Hd].
  destruct Hmsg as [-> | ->]; discriminate.
Qed.

(** C6, as amended.  With a net in [net_names] and a method outside
    ['initialize'] and ['transfer'] in [methods], [main] never ends without
    an exception.  When [source_data_root] exists, [main] does, for the
    first net, the methods listed before the invalid one: when these end
    without an exception, [main] raises the [ValueError] that names the
    invalid method, in the state they left; when they end in an exception,
    that is the exception of [main].  When [source_data_root] does not
    exist, [main] raises [NotADirectoryError] whatever the lists hold.  With
    an empty [net_names] and an existing [source_data_root] no method is
    looked at: whatever [methods] holds, [main] ends in the exception of
    [pd.concat] on an empty list. *)
Theorem invalid_method_detection (E : env) (a : args) :
  (net_names a <> [] ->
   (exists method, In method (methods a) /\ ~ In method METHODS) ->
   forall w r w', main E a w = (r, w') -> exists e, r = Raise e)
  /\ (path_exists E (source_root E a) = true ->
      forall net_name nets before method after w,
        net_names a = net_name :: nets ->
        methods a = before ++ method :: after ->
        ~ In method METHODS ->
        (forall df_list w1,
           for_eachM before (method_body E a net_name) [] w = (Ok df_list, w1) ->
           main E a w
           = (Raise (ValueError ("invalid method: " +++ method
                                 +++ ", must be one of: ['initialize', 'transfer']")),
              w1)) /\
        (forall e w1,
           for_eachM before (method_body E a net_name) [] w = (Raise e, w1) ->
           main E a w = (Raise e, w1)))
  /\ (path_exists E (source_root E a) = false ->
      forall w,
        main E a w
        = (Raise (NotADirectoryError
                    ("directory specified as source_data_root not found: "
                     +++ source_root E a)), w))
  /\ (path_exists E (source_root E a) = true ->
      net_names a = [] ->
      forall w, main E a w = (Raise (ValueError "No objects to concatenate"), w)).
Proof.
  split; [| split; [| split]].
  - intros Hne (method & Hm & Hbad) w r w' Hmain.
    rewrite main_steps in Hmain. destruct (negb _).
    { injection Hmain as <- _. eauto. }
    destruct (read_all E a w) as [[df_list | e] w1] eqn:Hread.
    + exfalso. apply Hbad.
      exact (read_all_Ok_methods _ _ _ _ _ Hread Hne method Hm).
    + injection Hmain as <- _. eauto.
  - intros Hroot net_name nets before method after w Hn Hm Hbad.
    split.
    + intros df_list w1 Hbefore.
      rewrite main_steps, Hroot. simpl.
      unfold read_all. rewrite Hn. simpl. unfold bindM at 1.
      unfold net_body at 1. rewrite Hm, for_eachM_app, Hbefore. simpl.
      unfold bindM at 1. unfold method_body at 1.
      apply str_in_not_In in Hbad. rewrite Hbad. reflexivity.
    + intros e w1 Hbefore.
      rewrite main_steps, Hroot. simpl.
      unfold read_all. rewrite Hn. simpl. unfold bindM at 1.
      unfold net_body at 1. rewrite Hm, for_eachM_app, Hbefore. reflexivity.
  - intros Hroot w. rewrite main_steps, Hroot. reflexivity.
  - intros Hroot Hn w. rewrite main_steps, Hroot. simpl.
    unfold read_all. rewrite Hn. reflexivity.
Qed.

End WithArithmetic.

End MainFacts.

(** ** The properties on the small run *)

Module Runs.

Import Pandas PyFacts GenerateSourceDataCsv AnalysisFacts MainFacts.
Local Open Scope string_scope.

(** The runs are computed in the arithmetic that does not round. *)
#[local] Existing Instance Pandas.exact.

(** C2 on the two alexnet archives, one per method: the two transfer rows of
    ['RVvGV'] at set size 1 give one row, with their mean, which is their sum
    over their number where nothing is rounded. *)
Lemma transfer_acc_mn_groups_witness :
  rows_at (transfer_acc_mn (Demo.alexnet_rows "transfer" ++ Demo.alexnet_rows "initialize")%list)
          "alexnet" "RVvGV" 1
  = [ {| mn_net_name := "alexnet"; mn_stimulus := "RVvGV"; mn_set_size := 1;
         mn_accuracy := ((9 # 10) + ((7 # 10) + 0)) / inject_Z 2 |} ]%Q.
Proof.
  exact (proj1 (transfer_acc_mn_groups
                  (Demo.alexnet_rows "transfer" ++ Demo.alexnet_rows "initialize")%list
                  "alexnet" "RVvGV" 1)
               (ex_intro _ (Demo.mk "alexnet" "transfer" "RVvGV" 1 (9 # 10))
                         (conj (or_introl eq_refl) (conj eq_refl eq_refl)))).
Defined.

(** C1 on a grouped table of two nets. *)
Lemma acc_diff_is_difference_witness :
  exists df_acc_diff,
    acc_diff_records Demo.grouped = Ok df_acc_diff /\
    from_records df_acc_diff = Ok df_acc_diff /\
    acc_diff_at df_acc_diff "alexnet" "RVvGV"
    = [ {| ad_net_name := "alexnet"; ad_stimulus := "RVvGV";
           set_size_1_acc := 4 # 5; set_size_8_acc := 3 # 5;
           acc_diff := ((4 # 5) - (3 # 5))%Q |} ].
Proof.
  destruct (acc_diff_is_difference Demo.grouped) as [Hreturns Hrows].
  destruct Hreturns as (df & Hok & Hfrom).
  - intros g Hg. simpl in Hg.
    destruct Hg as [<- | [<- | [<- | [<- | []]]]];
      eexists; eexists; split; reflexivity.
  - exists df. split; [exact Hok |]. split; [apply Hfrom; discriminate |].
    destruct (Hrows df Hok
                {| mn_net_name := "alexnet"; mn_stimulus := "RVvGV";
                   mn_set_size := 1; mn_accuracy := 4 # 5 |})
      as (r1 & r8 & H1 & H8 & Hat).
    + simpl. auto.
    + injection H1 as <-. injection H8 as <-. exact Hat.
Defined.

(** C3 on the frames of the two transfer archives. *)
Lemma acc_diff_by_stim_pivot_witness :
  exists t,
    analyse Demo.frames = Ok t /\
    acc_diff_records (transfer_acc_mn (List.concat Demo.frames)) = Ok (df_acc_diff t) /\
    df_acc_diff t <> [] /\
    index (df_acc_diff_by_stim t) = map nt_net_name (net_acc_diff_df t) /\
    columns (df_acc_diff_by_stim t) = map st_stimulus (stim_acc_diff_df t) /\
    (forall r, In r (df_acc_diff t) ->
       exists q, cell (df_acc_diff_by_stim t) (ad_net_name r) (ad_stimulus r) = Some q /\
                 (q == acc_diff r)%Q) /\
    StronglySorted
      (fun n1 n2 => (net_mean acc_diff (df_acc_diff t) n2
                     <= net_mean acc_diff (df_acc_diff t) n1)%Q)
      (index (df_acc_diff_by_stim t)).
Proof.
  destruct (acc_diff_by_stim_pivot Demo.frames) as [Hreturns Hpivot].
  destruct Hreturns as (t & Ht).
  - discriminate.
  - vm_compute. discriminate.
  - intros g Hg. vm_compute in Hg.
    repeat (destruct Hg as [<- | Hg];
            [split; [discriminate | eexists; eexists; split; vm_compute; reflexivity] |]).
    destruct Hg.
  - exists t. split; [exact Ht |].
    destruct (Hpivot t Ht)
      as ((_ & Hrec & Hne & _) & (Hi & _) & (Hc & _) & _ & _ & Hcell & _ & Hrows & _).
    repeat (split; [assumption |]).
    split; [| exact Hrows].
    apply Hcell. intros x. apply exact_mean_single.
Defined.

(** The tables of that run. *)
Example analyse_demo :
  match analyse Demo.frames with
  | Ok t =>
      map nt_net_name (net_acc_diff_df t) = ["alexnet"; "VGG16"] /\
      map st_stimulus (stim_acc_diff_df t) = ["2_v_5"; "RVvGV"] /\
      index (df_acc_diff_by_stim t) = ["alexnet"; "VGG16"] /\
      columns (df_acc_diff_by_stim t) = ["2_v_5"; "RVvGV"] /\
      map (fun r => (ad_net_name r, ad_stimulus r, Qred (acc_diff r))) (df_acc_diff t)
      = [("VGG16", "2_v_5", 1 # 2); ("VGG16", "RVvGV", 0 # 1);
         ("alexnet", "2_v_5", 2 # 5); ("alexnet", "RVvGV", 1 # 5)] /\
      map (map (option_map Qred)) (data (df_acc_diff_by_stim t))
      = [[Some (2 # 5); Some (1 # 5)]; [Some (1 # 2); Some (0 # 1)]]
  | Raise _ => False
  end.
Proof. vm_compute. repeat split. Qed.

(** C5 as first stated fails: ['CORnet_Z'] has no archive under the root, so
    the list of its paths is empty, yet [main] ends in the exception of the
    missing [source_data_root], which comes first. *)
Lemma results_gz_count_guard_counterexample :
  In "CORnet_Z" (net_names Demo2.a_missing_root) /\
  In "transfer" (methods Demo2.a_missing_root) /\
  In "classify" (modes Demo2.a_missing_root) /\
  paths_for Demo.E Demo2.a_missing_root "CORnet_Z" "transfer" "classify" = Ok [] /\
  main Demo.E Demo2.a_missing_root Demo.w0
  = (Raise (NotADirectoryError
              "directory specified as source_data_root not found: /missing"),
     Demo.w0).
Proof. repeat split; simpl; auto. Qed.

(** C5 as amended, where no file matches: [main] gets to ['CORnet_Z'] after
    the archive of ['alexnet'] was read. *)
Lemma results_gz_count_guard_witness :
  main Demo.E (Demo.run_args ["alexnet"; "CORnet_Z"] ["transfer"] ["classify"]) Demo.w0
  = (Raise (ValueError "found more than one results.gz file: []"),
     {| reads := [ {| rc_results_gz_path := "/results/alexnet_transfer_lr_0.001_results.gz";
                      rc_csv_path := "/stims/alexnet_split.csv";
                      rc_net_name := "alexnet";
                      rc_method := "transfer";
                      rc_mode := "classify";
                      rc_learning_rate := 1 # 1000 |} ];
        written := [] |}).
Proof.
  destruct (results_gz_count_guard
              Demo.E (Demo.run_args ["alexnet"; "CORnet_Z"] ["transfer"] ["classify"])
              "CORnet_Z" "transfer" "classify" [])
    as (_ & _ & Hreach & _).
  - reflexivity.
  - simpl. discriminate.
  - apply (Hreach Demo.w0 [Demo.alexnet_rows "transfer"]).
    split; [reflexivity |].
    exists ["alexnet"], [], [], [], [], [].
    eexists. eexists. eexists. eexists.
    repeat split; reflexivity.
Defined.

(** C5 where two files match: the message is the same. *)
Example results_gz_count_two :
  main Demo2.E_two_files (Demo.run_args ["alexnet"] ["transfer"] ["classify"]) Demo.w0
  = (Raise (ValueError
       "found more than one results.gz file: [PosixPath('/r/alexnet_transfer_1.gz'), PosixPath('/r/alexnet_transfer_2.gz')]"),
     Demo.w0).
Proof. reflexivity. Qed.

(** C6 as first stated fails: [net_names] has a net and [methods] holds
    ['bogus'], yet the exception is the one of the first method, for which
    there is no archive, and names no method. *)
Lemma invalid_method_detection_counterexample :
  net_names (Demo.run_args ["CORnet_Z"] ["transfer"; "bogus"] ["classify"]) <> [] /\
  In "bogus"
     (methods (Demo.run_args ["CORnet_Z"] ["transfer"; "bogus"] ["classify"])) /\
  ~ In "bogus" METHODS /\
  main Demo.E (Demo.run_args ["CORnet_Z"] ["transfer"; "bogus"] ["classify"]) Demo.w0
  = (Raise (ValueError "found more than one results.gz file: []"), Demo.w0).
Proof.
  split; [discriminate |]. split; [simpl; auto |]. split; [| reflexivity].
  simpl. intros [H | [H | []]]; discriminate.
Qed.

(** C6 as amended: an invalid method after a valid one that was read. *)
Lemma invalid_method_detection_witness :
  main Demo.E (Demo.run_args ["alexnet"] ["transfer"; "bogus"] ["classify"]) Demo.w0
  = (Raise (ValueError
              "invalid method: bogus, must be one of: ['initialize', 'transfer']"),
     {| reads := [ {| rc_results_gz_path := "/results/alexnet_transfer_lr_0.001_results.gz";
                      rc_csv_path := "/stims/alexnet_split.csv";
                      rc_net_name := "alexnet";
                      rc_method := "transfer";
                      rc_mode := "classify";
                      rc_learning_rate := 1 # 1000 |} ];
        written := [] |}).
Proof.
  destruct (invalid_method_detection
              Demo.E (Demo.run_args ["alexnet"] ["transfer"; "bogus"] ["classify"]))
    as (_ & Hfirst & _).
  destruct (Hfirst eq_refl "alexnet" [] ["transfer"] "bogus" [] Demo.w0)
    as [Hok _].
  - reflexivity.
  - reflexivity.
  - simpl. intros [H | [H | []]]; discriminate.
  - apply (Hok [Demo.alexnet_rows "transfer"]). reflexivity.
Defined.

(** C7 as first stated fails: ['resnet'] is none of the names with a csv,
    yet [main] ends in the exception of line 97, since no archive is found
    for it and the number of archives is looked at first. *)
Lemma split_csv_by_net_counterexample :
  "resnet" <> "alexnet" /\ contains "CORnet" "resnet" = false /\ "resnet" <> "VGG16" /\
  In "resnet" (net_names (Demo.run_args ["resnet"] ["transfer"] ["classify"])) /\
  main Demo.E (Demo.run_args ["resnet"] ["transfer"] ["classify"]) Demo.w0
  = (Raise (ValueError "found more than one results.gz file: []"), Demo.w0).
Proof.
  split; [discriminate |]. split; [reflexivity |]. split; [discriminate |].
  split; [simpl; auto | reflexivity].
Qed.

(** C7 as amended, on the run: ['CORnet_S'] goes with the alexnet csv. *)
Lemma split_csv_by_net_witness :
  split_csv_path Demo.a "CORnet_S" = Ok "/stims/alexnet_split.csv" /\
  split_csv_path Demo.a "VGG16" = Ok "/stims/VGG16_split.csv" /\
  split_csv_path Demo.a "resnet"
  = Raise (ValueError "no csv path defined for net_name: resnet").
Proof.
  destruct (split_csv_by_net Demo.E Demo.a) as (Halex & Hvgg & Hother & _).
  split; [apply Halex; right; reflexivity |].
  split; [exact Hvgg |].
  apply (Hother "resnet"); [discriminate | reflexivity | discriminate].
Defined.

(** C8 on a run that ends in the invalid-method exception after one archive
    was read: no file is written. *)
Lemma main_writes_last_witness :
  written (snd (main Demo.E
                  (Demo.run_args ["alexnet"] ["transfer"; "bogus"] ["classify"])
                  Demo.w0))
  = written Demo.w0.
Proof.
  destruct (main Demo.E (Demo.run_args ["alexnet"] ["transfer"; "bogus"] ["classify"])
                 Demo.w0) as [r w'] eqn:Hrun.
  pose proof (main_writes_last _ _ _ _ _ Hrun) as H.
  vm_compute in Hrun. injection Hrun as <- <-.
  apply (proj1 H). intros [detail Hd]. discriminate.
Defined.

(** The run on [a] ends without an exception, with two archives read and
    five files written. *)
Example main_demo :
  let '(r, w) := main Demo.E Demo.a Demo.w0 in
  r = Ok tt /\
  map rc_net_name (reads w) = ["alexnet"; "VGG16"] /\
  map rc_csv_path (reads w) = ["/stims/alexnet_split.csv"; "/stims/VGG16_split.csv"] /\
  map fst (written w)
  = ["/source_data/all.csv"; "/source_data/acc_diff.csv";
     "/source_data/stim_acc_diff.csv"; "/source_data/net_acc_diff.csv";
     "/source_data/acc_diff_by_stim.csv"].
Proof. vm_compute. repeat split. Qed.

(** A write that fails after the first file: the one exception after which a
    file is there. *)
Example main_failed_write :
  let '(r, w) := main Demo2.E_denied Demo.a Demo.w0 in
  r = Raise (Propagated "DataFrame.to_csv" "Permission denied") /\
  map fst (written w) = ["/source_data/all.csv"].
Proof. vm_compute. split; reflexivity. Qed.

End Runs.

(** * Further properties *)

(** ** [Trainer.from_config]: optimizers, keywords, ignored arguments *)

Module TrainerMore.

Import Trainer PyFacts TrainerFacts RunWords.

Section More.

Context {Model Params Optimizer TrainerObj Extra : Type}.
Variable ext : externals Model Params Optimizer TrainerObj Extra.

Lemma select_model_built (net_name : string) (num_classes : Z) (m : Model) :
  select_model ext net_name num_classes = Ok (Some m) -> In net_name built_nets.
Proof.
  unfold select_model, built_nets.
  destruct (String.eqb_spec net_name "alexnet") as [-> | _]; [simpl; auto |].
  destruct (String.eqb_spec net_name "VGG16") as [-> | _]; [simpl; auto |].
  destruct (String.eqb_spec net_name "CORnet_Z") as [-> | _]; [simpl; auto |].
  discriminate.
Qed.

(** X1.  With one of the three optimizers that have a branch, the trainer is
    constructed with exactly one optimizer: the torch optimizer of that name,
    built on the parameters of the very model that is passed under [model],
    with the learning rate, and with the momentum for ['SGD'] only.  An
    exception of the torch constructor is the exception of [from_config]. *)
Theorem from_config_known_optimizer (net_name : string) (num_classes : Z)
    (loss_func optimizer : string) (learning_rate momentum : Q)
    (kwargs : dict Model Optimizer Extra) (m : Model) (p : Params)
    (built : result Optimizer) :
  select_model ext net_name num_classes = Ok (Some m) ->
  parameters ext m = Ok p ->
  (forall k, In k added_keywords -> ~ In k (map fst kwargs)) ->
  In (optimizer, built)
     [("SGD"%string, torch_optim_SGD ext p learning_rate momentum);
      ("Adam"%string, torch_optim_Adam ext p learning_rate);
      ("AdamW"%string, torch_optim_AdamW ext p learning_rate)] ->
  from_config ext net_name num_classes loss_func optimizer learning_rate
              momentum kwargs
  = (o <- built ;;
     cls ext (kwargs ++ [("net_name"%string, PStr net_name);
                         ("model"%string, PModel m);
                         ("optimizers"%string, POptimizers [o])])).
Proof.
  intros Hm Hp Hfresh Hin. unfold from_config. rewrite Hm. cbn [bind].
  assert (Hopts : build_optimizers ext (Some m) optimizer learning_rate momentum
                  = (o <- built ;; Ok [o])).
  { unfold build_optimizers. simpl in Hin.
    destruct Hin as [[= <- <-] | [[= <- <-] | [[= <- <-] | []]]];
      cbn [String.eqb Ascii.eqb Bool.eqb andb local bind]; rewrite Hp; reflexivity. }
  rewrite Hopts. destruct built as [o | e]; cbn [bind]; [| reflexivity].
  unfold construct. cbn [local bind]. now rewrite dict_kw_fresh by exact Hfresh.
Qed.

Lemma unknown_net_unbound (net_name : string) (num_classes : Z)
    (loss_func optimizer : string) (learning_rate momentum : Q)
    (kwargs : dict Model Optimizer Extra) :
  ~ In net_name built_nets ->
  from_config ext net_name num_classes loss_func optimizer learning_rate momentum kwargs
  = Raise (UnboundLocalError "model").
Proof.
  intros H. unfold from_config. rewrite select_model_unknown by assumption.
  cbn [bind].
  destruct (build_optimizers_unbound ext optimizer learning_rate momentum) as [-> | ->];
    reflexivity.
Qed.

Lemma repeated_keyword_raises (net_name : string) (num_classes : Z)
    (loss_func optimizer : string) (learning_rate momentum : Q)
    (kwargs : dict Model Optimizer Extra) (m : Model)
    (optimizers : list Optimizer) (k : string) :
  select_model ext net_name num_classes = Ok (Some m) ->
  build_optimizers ext (Some m) optimizer learning_rate momentum = Ok optimizers ->
  find (fun k => str_in k (map fst kwargs)) added_keywords = Some k ->
  from_config ext net_name num_classes loss_func optimizer learning_rate
              momentum kwargs
  = Raise (TypeError k).
Proof.
  intros Hm Ho Hk. unfold from_config. rewrite Hm. cbn [bind]. rewrite Ho.
  cbn [bind]. unfold construct, dict_kw. simpl. simpl in Hk.
  destruct (str_in "net_name" (map fst kwargs)); [now injection Hk as <- |].
  destruct (str_in "model" (map fst kwargs)); [now injection Hk as <- |].
  destruct (str_in "optimizers" (map fst kwargs)); [now injection Hk as <- |].
  discriminate.
Qed.

(** X2.  A keyword of [kwargs] that line 76 also sets is a [TypeError]: once the
    model and the optimizers have been built, [from_config] raises it for the
    first of [net_name], [model] and [optimizers] that [kwargs] holds, and
    the trainer's constructor is not reached. *)
Theorem from_config_duplicate_keyword (net_name : string) (num_classes : Z)
    (loss_func optimizer : string) (learning_rate momentum : Q)
    (kwargs : dict Model Optimizer Extra) (m : Model)
    (optimizers : list Optimizer) (k : string) :
  select_model ext net_name num_classes = Ok (Some m) ->
  build_optimizers ext (Some m) optimizer learning_rate momentum = Ok optimizers ->
  find (fun k => str_in k (map fst kwargs)) added_keywords = Some k ->
  from_config ext net_name num_classes loss_func optimizer learning_rate
              momentum kwargs
  = Raise (TypeError k).
Proof. apply repeated_keyword_raises. Qed.

(** X3.  What [from_config] does not look at: [loss_func] never changes the
    result; [momentum] changes nothing unless [optimizer] is ['SGD'];
    [learning_rate] changes nothing when [optimizer] is none of the three. *)
Theorem from_config_ignored_arguments (net_name : string) (num_classes : Z)
    (loss_func loss_func' optimizer : string)
    (learning_rate learning_rate' momentum momentum' : Q)
    (kwargs : dict Model Optimizer Extra) :
  from_config ext net_name num_classes loss_func optimizer learning_rate momentum kwargs
  = from_config ext net_name num_classes loss_func' optimizer learning_rate momentum kwargs
  /\ (optimizer <> "SGD"%string ->
      from_config ext net_name num_classes loss_func optimizer learning_rate
                  momentum kwargs
      = from_config ext net_name num_classes loss_func optimizer learning_rate
                    momentum' kwargs)
  /\ (~ In optimizer known_optimizers ->
      from_config ext net_name num_classes loss_func optimizer learning_rate
                  momentum kwargs
      = from_config ext net_name num_classes loss_func optimizer learning_rate'
                    momentum' kwargs).
Proof.
  split; [reflexivity | split].
  - intros Hne. unfold from_config, build_optimizers.
    apply String.eqb_neq in Hne. rewrite Hne. reflexivity.
  - intros Hno. unfold from_config.
    destruct (select_model ext net_name num_classes) as [model | e]; [| reflexivity].
    cbn [bind]. now rewrite !build_optimizers_unknown.
Qed.

(** X4.  When nothing that [from_config] calls raises, it returns a trainer
    exactly when [net_name] is one of the three names with a branch and
    [kwargs] holds none of the keywords of line 76; otherwise it ends in the
    unbound-local error on [model] (for another net) or in the [TypeError]
    of the repeated keyword. *)
Theorem from_config_outcomes (net_name : string) (num_classes : Z)
    (loss_func optimizer : string) (learning_rate momentum : Q)
    (kwargs : dict Model Optimizer Extra) :
  never_raise ext ->
  match from_config ext net_name num_classes loss_func optimizer learning_rate
                    momentum kwargs with
  | Ok _ =>
      In net_name built_nets /\
      forall k, In k added_keywords -> ~ In k (map fst kwargs)
  | Raise e =>
      (~ In net_name built_nets /\ e = UnboundLocalError "model") \/
      (In net_name built_nets /\
       exists k, In k added_keywords /\ In k (map fst kwargs) /\ e = TypeError k)
  end.
Proof.
  intros (Ha & Hv & Hc & Hp & Hsgd & Hadam & Hadamw & Hcls).
  destruct (in_dec string_dec net_name built_nets) as [Hin | Hout].
  2:{ rewrite unknown_net_unbound by assumption. now left. }
  assert (Hm : exists m, select_model ext net_name num_classes = Ok (Some m)).
  { unfold select_model. simpl in Hin.
    destruct Hin as [<- | [<- | [<- | []]]]; simpl.
    - destruct (Ha false num_classes) as (m & ->). simpl. eauto.
    - destruct (Hv false num_classes) as (m & ->). simpl. eauto.
    - destruct (Hc false num_classes) as (m & ->). simpl. eauto. }
  destruct Hm as (m & Hm).
  assert (Ho : exists opts,
             build_optimizers ext (Some m) optimizer learning_rate momentum = Ok opts).
  { unfold build_optimizers. destruct (Hp m) as (p & Hpm).
    destruct (optimizer =? "SGD")%string.
    { simpl. rewrite Hpm. simpl.
      destruct (Hsgd p learning_rate momentum) as (o & ->). simpl. eauto. }
    destruct (optimizer =? "Adam")%string.
    { simpl. rewrite Hpm. simpl.
      destruct (Hadam p learning_rate) as (o & ->). simpl. eauto. }
    destruct (optimizer =? "AdamW")%string.
    { simpl. rewrite Hpm. simpl.
      destruct (Hadamw p learning_rate) as (o & ->). simpl. eauto. }
    eauto. }
  destruct Ho as (opts & Ho).
  destruct (find (fun k => str_in k (map fst kwargs)) added_keywords) as [k |] eqn:Hk.
  - rewrite (repeated_keyword_raises _ _ _ _ _ _ _ m opts k Hm Ho Hk).
    right. split; [assumption |].
    apply find_some in Hk. destruct Hk as [Hk1 Hk2]. apply str_in_In in Hk2.
    exists k. auto.
  - assert (Hfresh : forall k, In k added_keywords -> ~ In k (map fst kwargs)).
    { intros k Hin'. apply str_in_not_In. exact (find_none _ _ Hk k Hin'). }
    unfold from_config. rewrite Hm. cbn [bind]. rewrite Ho. cbn [bind].
    unfold construct. cbn [local bind]. rewrite dict_kw_fresh by exact Hfresh.
    cbn [bind]. destruct (Hcls (kwargs ++ [("net_name"%string, PStr net_name);
                                           ("model"%string, PModel m);
                                           ("optimizers"%string, POptimizers opts)]))
      as (t & ->).
    auto.
Qed.

End More.

End TrainerMore.

(** ** [main]: modes, reads, empty lists and failed writes *)

Module MainMore.

Import Pandas PyFacts PandasFacts GenerateSourceDataCsv AnalysisFacts MainFacts RunWords.
Local Open Scope io_scope.

Section WithArithmetic.

Context `{ar : Pandas.arithmetic}.

Lemma filter_split_perm {A : Type} (p : A -> bool) (l : list A) :
  Permutation (filter (fun x => negb (p x)) l ++ filter p l) l.
Proof.
  induction l as [| x l IH]; simpl; [constructor |].
  destruct (p x); simpl.
  - apply Permutation_sym, Permutation_cons_app, Permutation_sym, IH.
  - now constructor.
Qed.

Lemma flat_map_length_const {A B : Type} (f : A -> list B) (k : nat) (l : list A) :
  (forall x, List.length (f x) = k) ->
  List.length (flat_map f l) = (List.length l * k)%nat.
Proof.
  intros H. induction l as [| x l IH]; [reflexivity |].
  cbn [flat_map List.length]. rewrite length_app, H, IH. reflexivity.
Qed.

(** X5.  Every path that the glob finds is kept for exactly one of the modes
    ['classify'] and ['detect']: the two lists share no path and together
    they hold the paths found.  Any other mode is refused, and the message
    names ['classify'] alone. *)
Theorem modes_split_the_paths (results_gz_path : list string) :
  exists classify detect,
    filter_by_mode "classify" results_gz_path = Ok classify /\
    filter_by_mode "detect" results_gz_path = Ok detect /\
    Permutation (classify ++ detect) results_gz_path /\
    (forall p, In p classify -> ~ In p detect) /\
    forall mode,
      mode <> "classify"%string -> mode <> "detect"%string ->
      filter_by_mode mode results_gz_path
      = Raise (ValueError ("invalid mode: " +++ mode
                           +++ ", must be one of: ['classify']")).
Proof.
  exists (filter (fun p => negb (contains "detect" p)) results_gz_path),
         (filter (fun p => contains "detect" p) results_gz_path).
  split; [reflexivity |]. split; [reflexivity |].
  split; [apply filter_split_perm |]. split.
  - intros p Hc Hd. apply filter_In in Hc, Hd.
    destruct Hc as [_ Hc], Hd as [_ Hd]. rewrite Hd in Hc. discriminate.
  - intros mode Hc Hd. unfold filter_by_mode.
    apply String.eqb_neq in Hc, Hd. now rewrite Hc, Hd.
Qed.

(** The body of the innermost loop, when it ends without an exception, has
    made one call of [results_gz_to_df], which returned the frame that is
    appended to [df_list]. *)
Lemma mode_body_Ok (E : env) (a : args) (net_name method mode : string)
    (df_list df_list' : list (list row)) (w w' : world) :
  mode_body E a net_name method df_list mode w = (Ok df_list', w') ->
  exists c df,
    reads w' = reads w ++ [c] /\
    written w' = written w /\
    combination_of c = (net_name, method, mode) /\
    returns_frame E c df /\
    df_list' = df_list ++ [df].
Proof.
  rewrite mode_body_cases.
  destruct (paths_for E a net_name method mode) as [paths | e]; [| discriminate].
  destruct paths as [| p [| p' paths]]; try discriminate.
  destruct (split_csv_path a net_name) as [csv_path | e]; [| discriminate].
  unfold bindM, call_results_gz_to_df, ret, returns_frame.
  match goal with
  | |- context [results_gz_to_df E ?c] =>
      destruct (results_gz_to_df E c) as [detail | df] eqn:Hdf; [discriminate |];
      intros [= <- <-]; exists c, df
  end.
  auto.
Qed.

(** A loop of [main] that ends without an exception has made one call per
    element, each returning a frame, and has appended the frames in order. *)
Lemma loop_collects {A : Type} (E : env) (body : list (list row) -> A -> M (list (list row)))
    (expected : A -> list combination) (l : list A) :
  (forall acc x w acc' w',
     body acc x w = (Ok acc', w') ->
     exists new frames,
       reads w' = reads w ++ new /\ written w' = written w /\
       map combination_of new = expected x /\
       Forall2 (returns_frame E) new frames /\
       acc' = acc ++ frames) ->
  forall acc w acc' w',
    for_eachM l body acc w = (Ok acc', w') ->
    exists new frames,
      reads w' = reads w ++ new /\ written w' = written w /\
      map combination_of new = flat_map expected l /\
      Forall2 (returns_frame E) new frames /\
      acc' = acc ++ frames.
Proof.
  intros Hbody. induction l as [| x l IH]; intros acc w acc' w' H.
  - injection H as <- <-. exists [], []. rewrite !app_nil_r.
    repeat split; constructor.
  - simpl in H. unfold bindM in H.
    destruct (body acc x w) as [[acc1 | e] w1] eqn:Hx; [| discriminate].
    destruct (Hbody _ _ _ _ _ Hx) as (n1 & f1 & Hr1 & Hw1 & Hc1 & Hf1 & ->).
    destruct (IH _ _ _ _ H) as (n2 & f2 & Hr2 & Hw2 & Hc2 & Hf2 & ->).
    exists (n1 ++ n2), (f1 ++ f2). repeat split.
    + now rewrite Hr2, Hr1, app_assoc.
    + congruence.
    + simpl. now rewrite map_app, Hc1, Hc2.
    + now apply Forall2_app.
    + now rewrite app_assoc.
Qed.

Lemma read_all_collects (E : env) (a : args) (w : world)
    (df_list : list (list row)) (w' : world) :
  read_all E a w = (Ok df_list, w') ->
  exists new,
    reads w' = reads w ++ new /\ written w' = written w /\
    map combination_of new = combinations a /\
    Forall2 (returns_frame E) new df_list.
Proof.
  intros H. unfold read_all in H.
  apply (loop_collects E _
           (fun n => flat_map (fun m => map (fun d => (n, m, d)) (modes a)) (methods a)))
    in H.
  - destruct H as (new & frames & Hr & Hw & Hc & Hf & ->). exists new. auto.
  - intros acc n w1 acc1 w1' Hn. unfold net_body in Hn.
    apply (loop_collects E _ (fun m => map (fun d => (n, m, d)) (modes a))) in Hn;
      [exact Hn |].
    intros acc2 m w2 acc2' w2' Hm. unfold method_body in Hm.
    destruct (negb (str_in m METHODS)); [discriminate |].
    apply (loop_collects E _ (fun d => [(n, m, d)])) in Hm.
    + destruct Hm as (new & frames & Hr & Hw & Hc & Hf & ->).
      exists new, frames.
      split; [exact Hr |]. split; [exact Hw |].
      split; [| split; [exact Hf | reflexivity]].
      rewrite Hc. clear. induction (modes a) as [| d ds IH]; [reflexivity |].
      cbn [flat_map map app]. now f_equal.
    + intros acc3 d w3 acc3' w3' Hd. apply mode_body_Ok in Hd.
      destruct Hd as (c & df & Hr & Hw & Hc & Hf & ->).
      exists [c], [df].
      split; [exact Hr |]. split; [exact Hw |].
      split; [simpl; now rewrite Hc |].
      split; [| reflexivity].
      constructor; [assumption | constructor].
Qed.

(** X8.  A run of [main] that ends without an exception has called
    [results_gz_to_df] exactly once for every net, method and mode, in the
    order of the three loops; every call returned a frame; the tables are
    those of these frames; and the five writes come after what was written
    before, the first of them putting, at [all_csv_filename] under
    [source_data_root], the rows of these frames, one frame after the other
    in that order. *)
Theorem main_reads_every_combination (E : env) (a : args) (w w' : world) :
  main E a w = (Ok tt, w') ->
  exists new frames t,
    reads w' = reads w ++ new /\
    map combination_of new = combinations a /\
    Forall2 (returns_frame E) new frames /\
    List.length new
    = (List.length (net_names a) * (List.length (methods a) * List.length (modes a)))%nat /\
    analyse frames = Ok t /\
    df_all t = List.concat frames /\
    written w' = written w ++ saved_files E a t /\
    exists rest,
      written w'
      = written w
        ++ (joinpath E (source_root E a) (all_csv_filename a),
            CsvAll (List.concat frames)) :: rest /\
      List.length rest = 4%nat.
Proof.
  rewrite main_steps. destruct (negb _); [discriminate |].
  destruct (read_all E a w) as [[df_list | e] w1] eqn:Hread; [| discriminate].
  destruct (analyse df_list) as [t | e] eqn:Ht; [| discriminate].
  intros Hsave. apply save_cases in Hsave. destruct Hsave as [Hr Hw].
  destruct (read_all_collects _ _ _ _ _ Hread) as (new & Hnew & Hkeep & Hc & Hf).
  assert (Hall : df_all t = List.concat df_list).
  { pose proof (analyse_Ok_inv _ _ Ht) as (Hall & _).
    unfold concat in Hall. destruct df_list; [discriminate |].
    now injection Hall as <-. }
  rewrite Hkeep in Hw.
  exists new, df_list, t. split; [congruence |]. split; [assumption |].
  split; [assumption |]. split.
  { rewrite <- (length_map combination_of), Hc. unfold combinations.
    rewrite (flat_map_length_const _ (List.length (methods a) * List.length (modes a)));
      [reflexivity |].
    intros n. rewrite (flat_map_length_const _ (List.length (modes a))); [reflexivity |].
    intros m. apply length_map. }
  split; [exact Ht |]. split; [exact Hall |]. split; [exact Hw |].
  rewrite <- Hall. eexists. split; [exact Hw | reflexivity].
Qed.

(** X6.  A mode other than ['classify'] and ['detect'].  For a net and a
    method whose pattern the glob accepts, the body of the loop raises the
    [ValueError] 'invalid mode', before any read, and [main] ends in it when
    its loops get to that net, method and mode; for a net and a method whose
    pattern the glob refuses, the body ends in the exception of the glob,
    which comes first.  With a net and a method in the lists, [main] cannot
    end without an exception; and whatever it ends in, it has read no
    archive in that mode. *)
Theorem invalid_mode_is_refused (E : env) (a : args) (mode : string) :
  mode <> "classify"%string -> mode <> "detect"%string ->
  (forall net_name method found df_list w,
     sorted_glob E (results_root E a) (glob_pattern net_name method) = inr found ->
     mode_body E a net_name method df_list mode w
     = (Raise (ValueError ("invalid mode: " +++ mode
                           +++ ", must be one of: ['classify']")), w))
  /\ (forall net_name method detail df_list w,
        sorted_glob E (results_root E a) (glob_pattern net_name method) = inl detail ->
        mode_body E a net_name method df_list mode w
        = (Raise (Propagated "pathlib.Path.glob" detail), w))
  /\ (forall net_name method found w df_list w1,
        sorted_glob E (results_root E a) (glob_pattern net_name method) = inr found ->
        reaches E a w net_name method mode df_list w1 ->
        main E a w
        = (Raise (ValueError ("invalid mode: " +++ mode
                              +++ ", must be one of: ['classify']")), w1))
  /\ (net_names a <> [] -> methods a <> [] -> In mode (modes a) ->
      forall w r w', main E a w = (r, w') -> exists e, r = Raise e)
  /\ (forall w r w',
        main E a w = (r, w') ->
        exists new, reads w' = reads w ++ new /\
                    forall c, In c new -> rc_mode c <> mode).
Proof.
  intros Hc Hd.
  assert (Hfilter : forall found,
             filter_by_mode mode found
             = Raise (ValueError ("invalid mode: " +++ mode
                                  +++ ", must be one of: ['classify']"))).
  { intros found. unfold filter_by_mode.
    apply String.eqb_neq in Hc, Hd. now rewrite Hc, Hd. }
  assert (Hpaths : forall net_name method, exists e,
             paths_for E a net_name method mode = Raise e).
  { intros net_name method. unfold paths_for.
    destruct (glob E _ _) as [found | e]; cbn [bind]; [rewrite Hfilter |]; eauto. }
  assert (Hbody : forall net_name method found df_list w,
             sorted_glob E (results_root E a) (glob_pattern net_name method) = inr found ->
             mode_body E a net_name method df_list mode w
             = (Raise (ValueError ("invalid mode: " +++ mode
                                   +++ ", must be one of: ['classify']")), w)).
  { intros net_name method found df_list w Hglob. rewrite mode_body_cases.
    unfold paths_for, glob. rewrite Hglob. cbn [bind]. now rewrite Hfilter. }
  split; [exact Hbody |]. split; [| split; [| split]].
  - intros net_name method detail df_list w Hglob. rewrite mode_body_cases.
    unfold paths_for, glob. rewrite Hglob. reflexivity.
  - intros net_name method found w df_list w1 Hglob Hreach.
    apply (main_raises_at _ _ _ _ _ _ _ _ _ _ Hreach). now apply (Hbody _ _ found).
  - intros Hn Hm Hmode w r w' Hmain.
    rewrite main_steps in Hmain. destruct (negb _).
    { injection Hmain as <- _. eauto. }
    destruct (read_all E a w) as [[df_list | e] w1] eqn:Hread.
    + destruct (net_names a) as [| n ns] eqn:En; [contradiction |].
      destruct (methods a) as [| m ms] eqn:Em; [contradiction |].
      destruct (read_all_Ok_inv _ _ _ _ _ Hread n m mode) as (_ & a1 & w2 & a2 & w3 & Hok).
      * rewrite En. now left.
      * rewrite Em. now left.
      * assumption.
      * rewrite mode_body_cases in Hok.
        destruct (Hpaths n m) as (e & He). rewrite He in Hok. discriminate.
    + injection Hmain as <- _. eauto.
  - intros w r w' Hmain.
    destruct (main_reads _ _ _ _ _ Hmain) as (new & Hnew & Hall).
    exists new. split; [exact Hnew |].
    rewrite Forall_forall in Hall. intros c Hin Heq.
    destruct (Hall c Hin) as (_ & _ & _ & Hone & _).
    destruct (Hpaths (rc_net_name c) (rc_method c)) as (e & He).
    rewrite Heq, He in Hone. discriminate.
Qed.

(** X7.  Whatever [main] ends in, every archive it has read was found by the
    glob for the net and the method of the call and was the only path kept
    for the mode: a ['classify'] call never reads a path that holds
    ['detect'], a ['detect'] call only reads such a path, and there is no
    call for another mode. *)
Theorem reads_respect_the_mode (E : env) (a : args) (w : world)
    (r : result unit) (w' : world) :
  main E a w = (r, w') ->
  exists new,
    reads w' = reads w ++ new /\
    forall c, In c new ->
      (exists found,
         sorted_glob E (results_root E a) (glob_pattern (rc_net_name c) (rc_method c))
         = inr found /\
         In (rc_results_gz_path c) found)
      /\ paths_for E a (rc_net_name c) (rc_method c) (rc_mode c)
         = Ok [rc_results_gz_path c]
      /\ ((rc_mode c = "classify"%string /\
           contains "detect" (rc_results_gz_path c) = false) \/
          (rc_mode c = "detect"%string /\
           contains "detect" (rc_results_gz_path c) = true)).
Proof.
  intros Hmain. destruct (main_reads _ _ _ _ _ Hmain) as (new & Hnew & Hall).
  exists new. split; [exact Hnew |].
  rewrite Forall_forall in Hall. intros c Hc.
  destruct (Hall c Hc) as (_ & _ & _ & Hone & _).
  assert (Hkept : forall (p : string -> bool) l x, filter p l = [x] -> In x l /\ p x = true).
  { intros p l x Hf. apply filter_In. rewrite Hf. now left. }
  pose proof Hone as Hone'. unfold paths_for, glob in Hone'.
  destruct (sorted_glob E (results_root E a)
              (glob_pattern (rc_net_name c) (rc_method c))) as [detail | found];
    [discriminate |].
  cbn [bind] in Hone'. unfold filter_by_mode in Hone'.
  destruct (String.eqb_spec (rc_mode c) "classify") as [Hm | _].
  - injection Hone' as Hone'. apply Hkept in Hone'. destruct Hone' as [Hin Hp].
    split; [exists found; auto |]. split; [exact Hone |].
    left. split; [assumption | now apply negb_true_iff].
  - destruct (String.eqb_spec (rc_mode c) "detect") as [Hm | _]; [| discriminate].
    injection Hone' as Hone'. apply Hkept in Hone'. destruct Hone' as [Hin Hp].
    split; [exists found; auto |]. split; [exact Hone |]. right. auto.
Qed.

Lemma for_eachM_skips {A S : Type} (body : S -> A -> M S) (l : list A) (acc : S)
    (w : world) :
  (forall x, In x l -> body acc x w = (Ok acc, w)) ->
  for_eachM l body acc w = (Ok acc, w).
Proof.
  induction l as [| x l IH]; intros H; [reflexivity |].
  simpl. unfold bindM. rewrite (H x) by now left.
  apply IH. intros y Hy. apply H. now right.
Qed.

(** X10.  With an existing [source_data_root] and an empty list of nets, of
    methods, or (the methods being valid) of modes, [main] reads nothing and
    ends in the [ValueError] of [pd.concat] on an empty list. *)
Theorem empty_lists_fail_in_concat (E : env) (a : args) (w : world) :
  path_exists E (source_root E a) = true ->
  net_names a = [] \/ methods a = [] \/
  (modes a = [] /\ forall method, In method (methods a) -> In method METHODS) ->
  main E a w = (Raise (ValueError "No objects to concatenate"), w).
Proof.
  intros Hroot Hempty. rewrite main_steps, Hroot. simpl.
  assert (Hread : read_all E a w = (Ok [], w)).
  { unfold read_all. destruct Hempty as [Hn | [Hm | [Hd Hvalid]]].
    - rewrite Hn. reflexivity.
    - apply for_eachM_skips. intros n _. unfold net_body. rewrite Hm. reflexivity.
    - apply for_eachM_skips. intros n _. unfold net_body.
      apply for_eachM_skips. intros m Hm. unfold method_body.
      apply Hvalid, str_in_In in Hm. rewrite Hm, Hd. reflexivity. }
  rewrite Hread. reflexivity.
Qed.

(** *** The exceptions of [main] *)

Lemma for_eachM_Raise_inv {A S : Type} (body : S -> A -> M S) (l : list A) :
  forall acc w e w',
    for_eachM l body acc w = (Raise e, w') ->
    exists x acc1 w1, In x l /\ body acc1 x w1 = (Raise e, w').
Proof.
  induction l as [| x l IH]; intros acc w e w' H; [discriminate |].
  simpl in H. unfold bindM in H.
  destruct (body acc x w) as [[acc1 | e1] w1] eqn:Hx.
  - destruct (IH _ _ _ _ H) as (y & acc2 & w2 & Hy & Hb).
    exists y, acc2, w2. split; [now right | assumption].
  - injection H as <- <-. exists x, acc, w. split; [now left | assumption].
Qed.

Lemma mode_body_raises (E : env) (a : args) (net_name method mode : string)
    (df_list : list (list row)) (w : world) (e : exn) (w' : world) :
  In net_name (net_names a) -> In method (methods a) -> In mode (modes a) ->
  mode_body E a net_name method df_list mode w = (Raise e, w') ->
  read_exception E a e.
Proof.
  intros Hn Hm Hd. rewrite mode_body_cases.
  destruct (paths_for E a net_name method mode) as [paths | e1] eqn:Hp.
  - destruct paths as [| p [| p' paths]].
    + intros [= <- _].
      apply (WrongNumberOfFiles E a net_name method mode []); auto; discriminate.
    + destruct (split_csv_path a net_name) as [csv_path | e1] eqn:Hc.
      * unfold bindM, call_results_gz_to_df, ret.
        match goal with
        | |- context [results_gz_to_df E ?c] =>
            destruct (results_gz_to_df E c) as [detail | df] eqn:Hdf;
            [| discriminate]; intros [= <- _]; apply (FailedRead E a c detail);
            [| exact Hdf]
        end.
        unfold read_by_main. simpl. auto 10.
      * intros [= <- _]. unfold split_csv_path in Hc.
        destruct (String.eqb_spec net_name "alexnet") as [-> | Ha]; [discriminate |].
        destruct (contains "CORnet" net_name) eqn:Hcor; [discriminate |].
        destruct (String.eqb_spec net_name "VGG16") as [-> | Hv]; [discriminate |].
        simpl in Hc. injection Hc as <-. now apply NoCsvPath.
    + intros [= <- _].
      apply (WrongNumberOfFiles E a net_name method mode (p :: p' :: paths)); auto;
        discriminate.
  - intros [= <- _]. unfold paths_for, glob in Hp.
    destruct (sorted_glob E (results_root E a) (glob_pattern net_name method))
      as [detail | found] eqn:Hglob.
    { injection Hp as <-. now apply (RefusedPattern E a net_name method detail). }
    cbn [bind] in Hp. unfold filter_by_mode in Hp.
    destruct (String.eqb_spec mode "classify") as [-> | Hc]; [discriminate |].
    destruct (String.eqb_spec mode "detect") as [-> | Hdet]; [discriminate |].
    injection Hp as <-. now apply InvalidMode.
Qed.

Lemma read_all_raises (E : env) (a : args) (w : world) (e : exn) (w' : world) :
  read_all E a w = (Raise e, w') -> read_exception E a e.
Proof.
  intros H. unfold read_all in H.
  apply for_eachM_Raise_inv in H. destruct H as (n & acc1 & w1 & Hn & H).
  unfold net_body in H.
  apply for_eachM_Raise_inv in H. destruct H as (m & acc2 & w2 & Hm & H).
  unfold method_body in H.
  destruct (str_in m METHODS) eqn:Hvalid; simpl in H.
  - apply for_eachM_Raise_inv in H. destruct H as (d & acc3 & w3 & Hd & H).
    now apply (mode_body_raises E a n m d acc3 w3 e w').
  - injection H as <- _. apply str_in_not_In in Hvalid. now apply InvalidMethod.
Qed.

Lemma traverse_Raise_inv {A B : Type} (f : A -> result B) (l : list A) (e : exn) :
  traverse f l = Raise e -> exists x, In x l /\ f x = Raise e.
Proof.
  induction l as [| x l IH]; simpl; [discriminate |].
  destruct (f x) as [y | e1] eqn:Hx; simpl.
  - destruct (traverse f l) as [ys | e2]; simpl; [discriminate |].
    intros [= <-]. destruct (IH eq_refl) as (z & Hz & Hf). eauto.
  - intros [= <-]. eauto.
Qed.

Lemma acc_diff_records_raises (df : list mn_row) (e : exn) :
  acc_diff_records df = Raise e ->
  e = ValueError "can only convert an array of size 1 to a Python scalar".
Proof.
  rewrite acc_diff_records_traverse.
  destruct (traverse _ _) as [yss | e1] eqn:H; simpl; [discriminate |].
  intros [= <-].
  apply traverse_Raise_inv in H. destruct H as (n & _ & H).
  apply traverse_Raise_inv in H. destruct H as (st & _ & H).
  unfold acc_diff_row_for in H.
  assert (Hitem : forall values e', item values = Raise e' ->
            e' = ValueError "can only convert an array of size 1 to a Python scalar").
  { intros [| x [| y values]] e'; simpl; congruence. }
  revert H.
  match goal with
  | |- context [bind (item ?v) _] => destruct (item v) as [a1 | e2] eqn:H1
  end; cbn [bind].
  - match goal with
    | |- context [bind (item ?v) _] => destruct (item v) as [a8 | e3] eqn:H8
    end; cbn [bind]; [discriminate |].
    intros [= <-]. now apply Hitem in H8.
  - intros [= <-]. now apply Hitem in H1.
Qed.

Lemma analyse_raises (df_list : list (list row)) (e : exn) :
  analyse df_list = Raise e -> analysis_exception e.
Proof.
  unfold analyse.
  destruct (concat df_list) as [all | e1] eqn:Hall; cbn [bind].
  2:{ intros [= <-]. destruct df_list; [| discriminate].
      injection Hall as <-. constructor. }
  destruct (acc_diff_records (transfer_acc_mn all)) as [records | e1] eqn:Hrec;
    cbn [bind].
  2:{ intros [= <-]. apply acc_diff_records_raises in Hrec. subst. constructor. }
  destruct (from_records records) as [df | e1] eqn:Hdf; cbn [bind].
  2:{ intros [= <-]. destruct records; [| discriminate].
      injection Hdf as <-. constructor. }
  rewrite acc_diff_by_stim_value.
  destruct (str_in "net_name" (map ad_stimulus df)); cbn [bind]; [| discriminate].
  intros [= <-]. constructor.
Qed.

Lemma read_exception_not_to_csv (E : env) (a : args) (e : exn) :
  read_exception E a e -> ~ from_to_csv e.
Proof. intros H [detail ->]. inversion H. Qed.

Lemma analysis_exception_not_to_csv (e : exn) :
  analysis_exception e -> ~ from_to_csv e.
Proof. intros H [detail ->]. inversion H. Qed.


(** *** A write that fails *)

Lemma save_stops_at_failure (E : env) (a : args) (t : tables) (w : world)
    (e : exn) (w' : world) :
  save E a t w = (Raise e, w') ->
  exists k path content detail,
    nth_error (saved_files E a t) k = Some (path, content) /\
    to_csv_error E path = Some detail /\
    e = Propagated "DataFrame.to_csv" detail /\
    written w' = written w ++ firstn k (saved_files E a t) /\
    forall j path' content',
      (j < k)%nat -> nth_error (saved_files E a t) j = Some (path', content') ->
      to_csv_error E path' = None.
Proof.
  unfold save, bindM, to_csv, saved_files.
  set (p1 := joinpath E (source_root E a) (all_csv_filename a)).
  set (p2 := joinpath E (source_root E a) (acc_diff_csv_filename a)).
  set (p3 := joinpath E (source_root E a) (stim_acc_diff_csv_filename a)).
  set (p4 := joinpath E (source_root E a) (net_acc_diff_csv_filename a)).
  set (p5 := joinpath E (source_root E a) (acc_diff_by_stim_csv_filename a)).
  destruct (to_csv_error E p1) as [d1 |] eqn:E1.
  { intros [= <- <-]. exists 0%nat, p1, (CsvAll (df_all t)), d1.
    repeat split; try reflexivity; try assumption.
    - simpl. now rewrite app_nil_r.
    - intros j ? ? Hj. inversion Hj. }
  destruct (to_csv_error E p2) as [d2 |] eqn:E2.
  { intros [= <- <-]. exists 1%nat, p2, (CsvAccDiff (df_acc_diff t)), d2.
    repeat split; try reflexivity; try assumption.
    intros [| j] ? ? Hj Hn; [now injection Hn as <- _ | lia]. }
  destruct (to_csv_error E p3) as [d3 |] eqn:E3.
  { intros [= <- <-]. exists 2%nat, p3, (CsvStimAccDiff (stim_acc_diff_df t)), d3.
    repeat split; try reflexivity; try assumption.
    - simpl. now rewrite <- app_assoc.
    - intros [| [| j]] ? ? Hj Hn; [now injection Hn as <- _ .. | lia]. }
  destruct (to_csv_error E p4) as [d4 |] eqn:E4.
  { intros [= <- <-]. exists 3%nat, p4, (CsvNetAccDiff (net_acc_diff_df t)), d4.
    repeat split; try reflexivity; try assumption.
    - simpl. now rewrite <- !app_assoc.
    - intros [| [| [| j]]] ? ? Hj Hn; [now injection Hn as <- _ .. | lia]. }
  destruct (to_csv_error E p5) as [d5 |] eqn:E5; [| discriminate].
  intros [= <- <-]. exists 4%nat, p5, (CsvAccDiffByStim (df_acc_diff_by_stim t)), d5.
  repeat split; try reflexivity; try assumption.
  - simpl. now rewrite <- !app_assoc.
  - intros [| [| [| [| j]]]] ? ? Hj Hn; [now injection Hn as <- _ .. | lia].
Qed.

(** X12.  [main] does not undo its writes.  When it ends in an exception of
    [to_csv], every archive has been read and the five frames computed, the
    failing file is the first of the five (in the order of lines 170-175)
    whose write fails, the files before it are written and none after it. *)
Theorem failed_write_keeps_earlier_files (E : env) (a : args) (w : world)
    (e : exn) (w' : world) :
  main E a w = (Raise e, w') -> from_to_csv e ->
  exists df_list w1 t k path content detail,
    read_all E a w = (Ok df_list, w1) /\
    analyse df_list = Ok t /\
    reads w' = reads w1 /\
    nth_error (saved_files E a t) k = Some (path, content) /\
    to_csv_error E path = Some detail /\
    e = Propagated "DataFrame.to_csv" detail /\
    written w' = written w ++ firstn k (saved_files E a t) /\
    forall j path' content',
      (j < k)%nat -> nth_error (saved_files E a t) j = Some (path', content') ->
      to_csv_error E path' = None.
Proof.
  rewrite main_steps. destruct (negb _).
  { intros [= <- _] [detail Hd]. discriminate. }
  destruct (read_all E a w) as [[df_list | e1] w1] eqn:Hread.
  2:{ intros [= <- _] Hcsv. exfalso.
      exact (read_exception_not_to_csv E a _ (read_all_raises _ _ _ _ _ Hread) Hcsv). }
  destruct (analyse df_list) as [t | e1] eqn:Ht.
  2:{ intros [= <- _] Hcsv. exfalso.
      exact (analysis_exception_not_to_csv _ (analyse_raises _ _ Ht) Hcsv). }
  intros Hsave _.
  pose proof (save_cases _ _ _ _ _ _ Hsave) as [Hr _].
  destruct (save_stops_at_failure _ _ _ _ _ _ Hsave)
    as (k & path & content & detail & Hk & Hfail & He & Hw & Hbefore).
  pose proof (read_all_only_reads _ _ _ _ _ Hread) as [Hw1 _].
  exists df_list, w1, t, k, path, content, detail.
  rewrite <- Hw1. auto 10.
Qed.

End WithArithmetic.

End MainMore.

(** ** The grouping and sorting steps: when they return and what they hold *)

Module AnalysisMore.

Import Pandas PyFacts PandasFacts GenerateSourceDataCsv AnalysisFacts MainFacts RunWords
       MainMore.

Section WithArithmetic.

Context `{ar : Pandas.arithmetic}.

(** In the grouped table, the rows of a key are one row when a transfer row
    of [df_all] has the key, and none otherwise. *)
Lemma grouped_rows_at (df_all : list row) (n s : string) (z : Z) :
  (transfer_row_at df_all n s z ->
   exists g, rows_at (transfer_acc_mn df_all) n s z = [g]) /\
  (forall g, In g (rows_at (transfer_acc_mn df_all) n s z) ->
             transfer_row_at df_all n s z).
Proof.
  split.
  - intros Hex. apply transfer_acc_mn_In_key in Hex.
    apply in_map_iff in Hex. destruct Hex as (g & Hk & Hg).
    exists g. unfold rows_at. apply (filter_unique_key mn_key).
    + apply transfer_acc_mn_NoDup.
    + exact Hg.
    + intros g' _. rewrite Hk. apply key_eqb_eq.
  - intros g Hg. unfold rows_at in Hg. apply filter_In in Hg.
    destruct Hg as [Hg Hk]. apply key_eqb_eq in Hk.
    apply transfer_acc_mn_In_key. rewrite <- Hk. now apply in_map.
Qed.

Lemma acc_diff_records_Raise_pair (df : list mn_row) (e : exn) :
  acc_diff_records df = Raise e ->
  exists g e', In g df /\
    acc_diff_row_for df (mn_net_name g) (mn_stimulus g) = Raise e'.
Proof.
  rewrite acc_diff_records_traverse.
  destruct (traverse _ _) as [yss | e1] eqn:H; simpl; [discriminate |].
  intros _.
  apply traverse_Raise_inv in H. destruct H as (n & _ & H).
  apply traverse_Raise_inv in H. destruct H as (st & Hst & H).
  apply In_stimuli_of in Hst. destruct Hst as (g & Hg & <- & <-). eauto.
Qed.

Lemma concat_frames (df_list : list (list row)) :
  df_list <> [] -> concat df_list = Ok (List.concat df_list).
Proof. destruct df_list; [contradiction | reflexivity]. Qed.

(** X13.  The grouping and sorting steps on a list of frames that is not empty.
    They return exactly when the transfer rows of the frames are there, have
    for each of their nets and stimuli a row of set size 1 and a row of set
    size 8, and have no stimulus called ['net_name'].  Without a transfer row
    they end in the [KeyError] of line 144; with a net and stimulus that
    lacks set size 1 or set size 8, in the [ValueError] of [item()]; with a
    stimulus called ['net_name'], in the [ValueError] of [to_records]. *)
Theorem analysis_outcome (df_list : list (list row)) :
  df_list <> [] ->
  match analyse df_list with
  | Ok t =>
      df_all t = List.concat df_list /\
      (exists n s z, transfer_row_at (List.concat df_list) n s z) /\
      complete (List.concat df_list) /\
      (forall n z, ~ transfer_row_at (List.concat df_list) n "net_name" z)
  | Raise e =>
      (e = KeyError "['net_name', 'stimulus', 'set_size_1_acc', 'set_size_8_acc', 'acc_diff']"
       /\ forall n s z, ~ transfer_row_at (List.concat df_list) n s z)
      \/ (e = ValueError "can only convert an array of size 1 to a Python scalar"
          /\ exists n s z,
               transfer_row_at (List.concat df_list) n s z /\
               ~ (transfer_row_at (List.concat df_list) n s 1 /\
                  transfer_row_at (List.concat df_list) n s 8))
      \/ (e = ValueError "name already used as a name or title"
          /\ complete (List.concat df_list)
          /\ exists n z, transfer_row_at (List.concat df_list) n "net_name" z)
  end.
Proof.
  intros Hne. unfold analyse. rewrite (concat_frames _ Hne). cbn [bind].
  set (D := List.concat df_list). set (T := transfer_acc_mn D).
  assert (HinT : forall n s z, transfer_row_at D n s z ->
                   exists g, In g T /\ mn_key g = (n, s, z)).
  { intros n s z H. apply transfer_acc_mn_In_key, in_map_iff in H.
    destruct H as (g & Hk & Hg). eauto. }
  assert (HofT : forall g, In g T ->
                   transfer_row_at D (mn_net_name g) (mn_stimulus g) (mn_set_size g)).
  { intros g Hg. apply (proj1 (transfer_acc_mn_In_key D (mn_key g))).
    now apply in_map. }
  assert (Hrow : forall n s r, acc_diff_row_for T n s = Ok r ->
                   transfer_row_at D n s 1 /\ transfer_row_at D n s 8 /\
                   ad_stimulus r = s).
  { intros n s r H. apply acc_diff_row_for_Ok in H.
    destruct H as (r1 & r8 & H1 & H8 & ->).
    split; [| split; [| reflexivity]].
    - apply (proj2 (grouped_rows_at D n s 1) r1). fold T. rewrite H1. now left.
    - apply (proj2 (grouped_rows_at D n s 8) r8). fold T. rewrite H8. now left. }
  destruct (acc_diff_records T) as [records | e] eqn:Hrec; cbn [bind].
  2:{ right. left. split; [exact (acc_diff_records_raises _ _ Hrec) |].
      destruct (acc_diff_records_Raise_pair _ _ Hrec) as (g & e' & Hg & Hraise).
      exists (mn_net_name g), (mn_stimulus g), (mn_set_size g).
      split; [now apply HofT |].
      intros [H1 H8].
      destruct (proj1 (grouped_rows_at D _ _ _) H1) as (r1 & Hr1).
      destruct (proj1 (grouped_rows_at D _ _ _) H8) as (r8 & Hr8).
      fold T in Hr1, Hr8.
      assert (Hok : exists r, acc_diff_row_for T (mn_net_name g) (mn_stimulus g) = Ok r).
      { eexists. apply acc_diff_row_for_Ok. exists r1, r8. eauto. }
      destruct Hok as (r & Hok). congruence. }
  pose proof (acc_diff_records_rows _ _ Hrec) as [HT Hrecords].
  assert (Hcomplete : complete D).
  { intros n s z H. destruct (HinT n s z H) as (g & Hg & Hk).
    destruct (HT g Hg) as (r & Hr & _). apply Hrow in Hr.
    injection Hk as <- <- _. tauto. }
  destruct records as [| r0 records'] eqn:Erec.
  { left. split; [reflexivity |]. intros n s z H.
    destruct (HinT n s z H) as (g & Hg & _).
    destruct (HT g Hg) as (r & _ & Hat). unfold acc_diff_at in Hat. discriminate. }
  rewrite <- Erec in *. assert (Hfrom : from_records records = Ok records)
    by (rewrite Erec; reflexivity).
  rewrite Hfrom. cbn [bind]. rewrite acc_diff_by_stim_value.
  assert (Hsome : exists n s z, transfer_row_at D n s z).
  { assert (Hin0 : In r0 records) by (rewrite Erec; now left).
    destruct (Hrecords r0 Hin0) as [Hfor _]. apply Hrow in Hfor.
    exists (ad_net_name r0), (ad_stimulus r0), 1. tauto. }
  destruct (str_in "net_name" (map ad_stimulus records)) eqn:Hname; cbn [bind].
  - right. right. split; [reflexivity |]. split; [exact Hcomplete |].
    apply str_in_In, in_map_iff in Hname. destruct Hname as (r & Hs & Hr).
    destruct (Hrecords r Hr) as [Hfor _]. apply Hrow in Hfor.
    exists (ad_net_name r), 1. rewrite <- Hs. tauto.
  - simpl. split; [reflexivity |]. split; [exact Hsome |].
    split; [exact Hcomplete |].
    intros n z H. apply str_in_not_In in Hname. apply Hname.
    destruct (HinT n "net_name"%string z H) as (g & Hg & Hk).
    destruct (HT g Hg) as (r & Hfor & Hat).
    apply Hrow in Hfor. destruct Hfor as (_ & _ & Hs).
    apply in_map_iff. exists r. split.
    + rewrite Hs. now injection Hk as _ -> _.
    + unfold acc_diff_at in Hat.
      assert (Hin : In r [r]) by now left.
      rewrite <- Hat in Hin. now apply filter_In in Hin.
Qed.

Lemma grouped_accuracy (df_all : list row) (g : mn_row) :
  In g (transfer_acc_mn df_all) ->
  mn_accuracy g
  = mean (map accuracy
              (filter (fun r => (method r =? "transfer")%string
                                && key_eqb (key_of r) (mn_key g))
                      df_all)).
Proof.
  unfold transfer_acc_mn. intros H. apply in_map_iff in H.
  destruct H as ([[n s] z] & <- & _). simpl. now rewrite filter_filter.
Qed.

(** X14.  From the frames read to the rows of [df_acc_diff], when the steps
    return.  Every net and stimulus of the transfer rows has exactly one row
    in [df_acc_diff], and every row of [df_acc_diff] is the row of such a net
    and stimulus.  In a row, [set_size_1_acc] is the mean accuracy of the
    transfer rows of that net and stimulus with set size 1, [set_size_8_acc]
    the same with set size 8, and [acc_diff] is the first minus the second; rows
    of another method or another set size do not enter. *)
Theorem acc_diff_rows_from_frames (df_list : list (list row)) (t : tables) :
  analyse df_list = Ok t ->
  (forall n s z,
     transfer_row_at (df_all t) n s z ->
     exists r, acc_diff_at (df_acc_diff t) n s = [r])
  /\ forall r, In r (df_acc_diff t) ->
       acc_diff_at (df_acc_diff t) (ad_net_name r) (ad_stimulus r) = [r] /\
       transfer_row_at (df_all t) (ad_net_name r) (ad_stimulus r) 1 /\
       transfer_row_at (df_all t) (ad_net_name r) (ad_stimulus r) 8 /\
       set_size_1_acc r
       = mean (map accuracy
                   (filter (fun x => (method x =? "transfer")%string
                                     && key_eqb (key_of x)
                                                (ad_net_name r, ad_stimulus r, 1))
                           (df_all t))) /\
       set_size_8_acc r
       = mean (map accuracy
                   (filter (fun x => (method x =? "transfer")%string
                                     && key_eqb (key_of x)
                                                (ad_net_name r, ad_stimulus r, 8))
                           (df_all t))) /\
       acc_diff r = minus (set_size_1_acc r) (set_size_8_acc r).
Proof.
  intros H. apply analyse_Ok_inv in H. destruct H as (_ & Hrec & _).
  set (D := df_all t) in *. set (T := transfer_acc_mn D) in *.
  pose proof (acc_diff_records_rows _ _ Hrec) as [HT Hrecords].
  split.
  - intros n s z Hrow.
    apply (proj2 (transfer_acc_mn_In_key D (n, s, z))), in_map_iff in Hrow.
    destruct Hrow as (g & Hk & Hg). destruct (HT g Hg) as (r & _ & Hat).
    injection Hk as <- <- _. eauto.
  - intros r Hr. destruct (Hrecords r Hr) as [Hfor Hat].
    split; [exact Hat |].
    apply acc_diff_row_for_Ok in Hfor. destruct Hfor as (r1 & r8 & H1 & H8 & Hr').
    assert (Hin1 : In r1 T /\ mn_key r1 = (ad_net_name r, ad_stimulus r, 1)).
    { assert (Hin : In r1 (rows_at T (ad_net_name r) (ad_stimulus r) 1))
        by (rewrite H1; now left).
      unfold rows_at in Hin. apply filter_In in Hin.
      destruct Hin as [Hin Hk]. now apply key_eqb_eq in Hk. }
    assert (Hin8 : In r8 T /\ mn_key r8 = (ad_net_name r, ad_stimulus r, 8)).
    { assert (Hin : In r8 (rows_at T (ad_net_name r) (ad_stimulus r) 8))
        by (rewrite H8; now left).
      unfold rows_at in Hin. apply filter_In in Hin.
      destruct Hin as [Hin Hk]. now apply key_eqb_eq in Hk. }
    destruct Hin1 as [Hin1 Hk1], Hin8 as [Hin8 Hk8].
    split; [apply (proj2 (grouped_rows_at D _ _ 1) r1); fold T; rewrite H1; now left |].
    split; [apply (proj2 (grouped_rows_at D _ _ 8) r8); fold T; rewrite H8; now left |].
    pose proof (grouped_accuracy D r1 Hin1) as Ha1.
    pose proof (grouped_accuracy D r8 Hin8) as Ha8.
    rewrite Hk1 in Ha1. rewrite Hk8 in Ha8.
    rewrite <- Ha1, <- Ha8.
    pose proof (f_equal set_size_1_acc Hr') as E1.
    pose proof (f_equal set_size_8_acc Hr') as E8.
    pose proof (f_equal acc_diff Hr') as Ed.
    simpl in E1, E8, Ed. rewrite Ed, E1, E8. auto.
Qed.

(** X15.  [stim_acc_diff_df] has one row per stimulus of [df_acc_diff]; the row
    holds the mean of [acc_diff] and the mean of [set_size_1_acc] over the
    rows of that stimulus; and the rows go by decreasing [set_size_1_acc],
    rows of equal [set_size_1_acc] by decreasing [acc_diff]. *)
Theorem stim_acc_diff_table (df : list acc_diff_row) :
  NoDup (map st_stimulus (stim_acc_diff df))
  /\ (forall s, In s (map st_stimulus (stim_acc_diff df)) <->
                exists r, In r df /\ ad_stimulus r = s)
  /\ (forall row, In row (stim_acc_diff df) ->
        st_acc_diff row = stim_mean acc_diff df (st_stimulus row) /\
        st_set_size_1_acc row = stim_mean set_size_1_acc df (st_stimulus row))
  /\ StronglySorted
       (fun r1 r2 =>
          (st_set_size_1_acc r2 < st_set_size_1_acc r1)%Q \/
          (st_set_size_1_acc r2 == st_set_size_1_acc r1 /\
           st_acc_diff r2 <= st_acc_diff r1)%Q)
       (stim_acc_diff df).
Proof.
  split; [apply stim_labels_NoDup |]. split; [apply stim_labels_In |]. split.
  - intros row H. unfold stim_acc_diff in H.
    apply sort_In, in_map_iff in H. destruct H as (s & <- & _). split; reflexivity.
  - unfold stim_acc_diff.
    eapply StronglySorted_impl;
      [| apply (sort_sorted stim_before stim_before_total stim_before_trans)].
    intros r1 r2. apply stim_before_iff.
Qed.

(** X16.  [net_acc_diff_df] has one row per net of [df_acc_diff]; the row holds
    the mean of [acc_diff] over the rows of that net; and the rows go by
    decreasing [acc_diff]. *)
Theorem net_acc_diff_table (df : list acc_diff_row) :
  NoDup (map nt_net_name (net_acc_diff df))
  /\ (forall n, In n (map nt_net_name (net_acc_diff df)) <->
                exists r, In r df /\ ad_net_name r = n)
  /\ (forall row, In row (net_acc_diff df) ->
        nt_acc_diff row = net_mean acc_diff df (nt_net_name row))
  /\ StronglySorted (fun r1 r2 => (nt_acc_diff r2 <= nt_acc_diff r1)%Q)
                    (net_acc_diff df).
Proof.
  split; [apply net_labels_NoDup |]. split; [apply net_labels_In |]. split.
  - intros row H. unfold net_acc_diff in H.
    apply sort_In, in_map_iff in H. destruct H as (n & <- & _). reflexivity.
  - unfold net_acc_diff.
    eapply StronglySorted_impl;
      [| apply (sort_sorted net_before net_before_total net_before_trans)].
    intros r1 r2. apply net_before_iff.
Qed.

End WithArithmetic.

End AnalysisMore.

(** ** The lists given on the command line *)

Module CommandLineFacts.

Import PyFacts GenerateSourceDataCsv MainFacts RunWords MainMore AnalysisMore CommandLine.

Section WithArithmetic.

Context `{ar : Pandas.arithmetic}.

Lemma split_not_nil (sep : ascii) (s : string) : split sep s <> [].
Proof.
  destruct s as [| c s]; simpl; [discriminate |].
  destruct (Ascii.eqb c sep); [discriminate |].
  destruct (split sep s); discriminate.
Qed.

Lemma concat_cons (sep x : string) (l : list string) :
  l <> [] -> String.concat sep (x :: l) = x +++ sep +++ String.concat sep l.
Proof. destruct l; [contradiction | reflexivity]. Qed.

Lemma concat_head (sep : string) (c : ascii) (piece : string) (pieces : list string) :
  String.concat sep (String c piece :: pieces)
  = String c (String.concat sep (piece :: pieces)).
Proof. destruct pieces; reflexivity. Qed.

Lemma split_concat (sep : ascii) (s : string) :
  String.concat (String sep EmptyString) (split sep s) = s.
Proof.
  induction s as [| c s IH]; [reflexivity |].
  cbn [split]. destruct (Ascii.eqb_spec c sep) as [-> | Hne].
  - rewrite concat_cons by apply split_not_nil. rewrite IH. reflexivity.
  - destruct (split sep s) as [| piece pieces].
    + simpl in IH. now subst.
    + rewrite concat_head. now rewrite IH.
Qed.

Lemma split_pieces (sep : ascii) (s : string) :
  Forall (fun piece => ~ In sep (list_ascii_of_string piece)) (split sep s).
Proof.
  induction s as [| c s IH]; simpl.
  - constructor; [intros [] | constructor].
  - destruct (Ascii.eqb_spec c sep) as [-> | Hne].
    + constructor; [intros [] | exact IH].
    + destruct (split sep s) as [| piece pieces].
      * constructor; [| constructor]. simpl. intros [H | []]. now apply Hne.
      * inversion IH as [| ? ? Hpiece Hrest]; subst. constructor; [| exact Hrest].
        simpl. intros [H | H]; [now apply Hne | now apply Hpiece].
Qed.

Lemma split_piece_then_sep (sep : ascii) (piece rest : string) :
  ~ In sep (list_ascii_of_string piece) ->
  split sep (piece +++ String sep rest) = piece :: split sep rest.
Proof.
  induction piece as [| c piece IH]; intros Hno; simpl.
  - now rewrite Ascii.eqb_refl.
  - destruct (Ascii.eqb_spec c sep) as [-> | Hne]; [exfalso; apply Hno; now left |].
    rewrite IH; [reflexivity |]. intros H. apply Hno. now right.
Qed.

Lemma split_one_piece (sep : ascii) (piece : string) :
  ~ In sep (list_ascii_of_string piece) -> split sep piece = [piece].
Proof.
  induction piece as [| c piece IH]; intros Hno; simpl; [reflexivity |].
  destruct (Ascii.eqb_spec c sep) as [-> | Hne]; [exfalso; apply Hno; now left |].
  rewrite IH; [reflexivity |]. intros H. apply Hno. now right.
Qed.

(** X17.  The [type] of the three list options.  Splitting at the commas and
    joining with commas are inverse to each other: the pieces of an argument
    joined with [','] give the argument back, and a list that is not empty
    and whose names hold no comma is what its joined form is split into.  An
    argument never gives the empty list (the empty argument gives the list
    of one empty name), and no piece holds a comma. *)
Theorem comma_separated_round_trip (s : string) :
  String.concat "," (comma_separated s) = s
  /\ comma_separated s <> []
  /\ Forall (fun name => ~ In ","%char (list_ascii_of_string name)) (comma_separated s)
  /\ forall names,
       names <> [] ->
       Forall (fun name => ~ In ","%char (list_ascii_of_string name)) names ->
       comma_separated (String.concat "," names) = names.
Proof.
  unfold comma_separated.
  split; [apply split_concat |]. split; [apply split_not_nil |].
  split; [apply split_pieces |].
  induction names as [| name names IH]; intros Hne Hall; [contradiction |].
  inversion Hall as [| ? ? Hname Hrest]; subst.
  destruct names as [| name' names].
  - simpl. now apply split_one_piece.
  - rewrite concat_cons by discriminate.
    change (name +++ "," +++ String.concat "," (name' :: names))
      with (name +++ String "," (String.concat "," (name' :: names))).
    rewrite split_piece_then_sep by assumption.
    f_equal. apply IH; [discriminate | assumption].
Qed.

Lemma analyse_not_concat_error (df_list : list (list row)) (e : exn) :
  df_list <> [] -> analyse df_list = Raise e ->
  e <> ValueError "No objects to concatenate".
Proof.
  intros Hne. unfold analyse. rewrite (concat_frames _ Hne). cbn [bind].
  destruct (acc_diff_records _) as [records | e1] eqn:Hrec; cbn [bind].
  2:{ intros [= <-]. apply acc_diff_records_raises in Hrec. subst. discriminate. }
  destruct (from_records records) as [df | e1] eqn:Hdf; cbn [bind].
  2:{ intros [= <-]. destruct records; [| discriminate].
      injection Hdf as <-. discriminate. }
  rewrite AnalysisFacts.acc_diff_by_stim_value.
  destruct (str_in "net_name" _); cbn [bind]; [| discriminate].
  intros [= <-]. discriminate.
Qed.

(** X18.  Run from the command line, [main] gets three lists that are not empty,
    whatever is typed for [--net_names], [--methods] and [--modes] (also
    nothing, and also the empty string).  So when the reading loops end
    without an exception they have collected at least one frame, and [main]
    never ends in the exception of [pd.concat] on an empty list. *)
Theorem command_line_lists_are_not_empty (E : env) (a : args)
    (net_names_arg methods_arg modes_arg : option string) :
  let a' := with_lists net_names_arg methods_arg modes_arg a in
  net_names a' <> [] /\ methods a' <> [] /\ modes a' <> []
  /\ (forall w df_list w', read_all E a' w = (Ok df_list, w') -> df_list <> [])
  /\ forall w r w',
       main E a' w = (r, w') -> r <> Raise (ValueError "No objects to concatenate").
Proof.
  intros a'.
  assert (Hopt : forall given default, default <> [] -> list_option given default <> []).
  { intros [s |] default Hd; [apply split_not_nil | exact Hd]. }
  assert (Hn : net_names a' <> []) by (apply Hopt; discriminate).
  assert (Hm : methods a' <> []) by (apply Hopt; discriminate).
  assert (Hd : modes a' <> []) by (apply Hopt; discriminate).
  assert (Hframes : forall w df_list w',
             read_all E a' w = (Ok df_list, w') -> df_list <> []).
  { intros w df_list w' H. apply read_all_collects in H.
    destruct H as (new & _ & _ & Hc & Hf).
    intros ->. inversion Hf; subst. simpl in Hc. symmetry in Hc.
    unfold combinations in Hc.
    destruct (net_names a') as [| n ns]; [contradiction |].
    destruct (methods a') as [| m ms]; [contradiction |].
    destruct (modes a') as [| d ds]; [contradiction |].
    discriminate. }
  repeat split; try assumption.
  intros w r w' Hmain ->. rewrite main_steps in Hmain.
  destruct (negb _); [discriminate |].
  destruct (read_all E a' w) as [[df_list | e] w1] eqn:Hread.
  - destruct (analyse df_list) as [t | e] eqn:Ht.
    + apply save_cases in Hmain. destruct Hmain as [_ [detail Hcsv]]. discriminate.
    + injection Hmain as -> _.
      exact (analyse_not_concat_error _ _ (Hframes _ _ _ Hread) Ht eq_refl).
  - injection Hmain as -> _. apply read_all_raises in Hread.
    inversion Hread.
Qed.

End WithArithmetic.

End CommandLineFacts.

(** ** The order of the reads *)

Module ReadOrder.

Import Pandas PyFacts GenerateSourceDataCsv MainFacts RunWords MainMore.
Local Open Scope io_scope.

Section WithArithmetic.

Context `{ar : Pandas.arithmetic}.

(** A loop reads for the elements in order and stops at the first exception:
    what it has read is a first part of what there is to read, and all of it
    when the loop ends without an exception. *)
Lemma loop_reads_in_order {A : Type}
    (body : list (list row) -> A -> M (list (list row)))
    (expected : A -> list combination) (l : list A) :
  (forall acc x w r w',
     body acc x w = (r, w') ->
     exists new rest,
       reads w' = reads w ++ new /\
       expected x = map combination_of new ++ rest /\
       (forall acc', r = Ok acc' -> rest = [])) ->
  forall acc w r w',
    for_eachM l body acc w = (r, w') ->
    exists new rest,
      reads w' = reads w ++ new /\
      flat_map expected l = map combination_of new ++ rest /\
      (forall acc', r = Ok acc' -> rest = []).
Proof.
  intros Hbody. induction l as [| x l IH]; intros acc w r w' H.
  - injection H as <- <-. exists [], []. now rewrite app_nil_r.
  - simpl in H. unfold bindM in H.
    destruct (body acc x w) as [[acc1 | e] w1] eqn:Hx;
      destruct (Hbody _ _ _ _ _ Hx) as (n1 & rest1 & Hr1 & He1 & Hok1).
    + rewrite (Hok1 acc1 eq_refl), app_nil_r in He1.
      destruct (IH _ _ _ _ H) as (n2 & rest2 & Hr2 & He2 & Hok2).
      exists (n1 ++ n2), rest2. split; [now rewrite Hr2, Hr1, app_assoc |].
      split; [| exact Hok2].
      simpl. now rewrite He1, He2, map_app, app_assoc.
    + injection H as <- <-. exists n1, (rest1 ++ flat_map expected l).
      split; [exact Hr1 |]. split; [| discriminate].
      simpl. now rewrite He1, app_assoc.
Qed.

Lemma flat_map_singletons {A B : Type} (f : A -> B) (l : list A) :
  flat_map (fun x => [f x]) l = map f l.
Proof. induction l as [| x l IH]; simpl; congruence. Qed.

(** X9.  [main] reads the archives in the order of its three loops and skips
    none: whatever it ends in, the calls of [results_gz_to_df] it has made
    are, in order, for a first part of the list of all nets, methods and
    modes, and for the whole list when it ends without an exception. *)
Theorem reads_follow_the_loops (E : env) (a : args) (w : world)
    (r : result unit) (w' : world) :
  main E a w = (r, w') ->
  exists new rest,
    reads w' = reads w ++ new /\
    combinations a = map combination_of new ++ rest /\
    (r = Ok tt -> rest = []).
Proof.
  assert (Hread : forall r1 w1,
             read_all E a w = (r1, w1) ->
             exists new rest,
               reads w1 = reads w ++ new /\
               combinations a = map combination_of new ++ rest /\
               (forall acc', r1 = Ok acc' -> rest = [])).
  { intros r1 w1. unfold read_all, combinations.
    apply (loop_reads_in_order _
             (fun n => flat_map (fun m => map (fun d => (n, m, d)) (modes a)) (methods a))).
    intros acc n w2 r2 w2'. unfold net_body.
    apply (loop_reads_in_order _ (fun m => map (fun d => (n, m, d)) (modes a))).
    intros acc2 m w3 r3 w3'. unfold method_body.
    destruct (negb (str_in m METHODS)).
    { intros [= <- <-]. exists [], (map (fun d => (n, m, d)) (modes a)).
      rewrite app_nil_r. repeat split. discriminate. }
    rewrite <- (flat_map_singletons (fun d => (n, m, d))).
    apply (loop_reads_in_order _ (fun d => [(n, m, d)])).
    intros acc3 d w4 r4 w4'. rewrite mode_body_cases.
    destruct (paths_for E a n m d) as [paths | e].
    2:{ intros [= <- <-]. exists [], [(n, m, d)]. rewrite app_nil_r.
        repeat split. discriminate. }
    destruct paths as [| p [| p' paths]];
      try (intros [= <- <-]; exists [], [(n, m, d)]; rewrite app_nil_r;
           repeat split; discriminate).
    destruct (split_csv_path a n) as [csv_path | e].
    2:{ intros [= <- <-]. exists [], [(n, m, d)]. rewrite app_nil_r.
        repeat split. discriminate. }
    unfold bindM, call_results_gz_to_df, ret.
    match goal with
    | |- context [results_gz_to_df E ?c] =>
        destruct (results_gz_to_df E c); intros [= <- <-]; exists [c], [];
        repeat split
    end. }
  rewrite main_steps. destruct (negb _).
  { intros [= <- <-]. exists [], (combinations a). rewrite app_nil_r.
    repeat split. discriminate. }
  destruct (read_all E a w) as [[df_list | e] w1] eqn:Hall;
    destruct (Hread _ _ eq_refl) as (new & rest & Hr & Hc & Hok).
  2:{ intros [= <- <-]. exists new, rest. repeat split; try assumption. discriminate. }
  rewrite (Hok df_list eq_refl) in Hc.
  destruct (analyse df_list) as [t | e].
  - intros Hsave. apply save_cases in Hsave. destruct Hsave as [Hsame _].
    exists new, []. rewrite Hsame. auto.
  - intros [= <- <-]. exists new, []. auto.
Qed.

End WithArithmetic.

End ReadOrder.

(** ** The further properties on small runs *)

Module ExtraRuns.

Import Trainer Pandas PyFacts GenerateSourceDataCsv RunWords CommandLine.
Import TrainerMore MainMore AnalysisMore CommandLineFacts ReadOrder.
Local Open Scope string_scope.

(** The runs are computed in the arithmetic that does not round. *)
#[local] Existing Instance Pandas.exact.

Lemma from_config_known_optimizer_witness :
  from_config Symbolic.ext "CORnet_Z" 2 "ce" "AdamW" (1 # 1000) (9 # 10) []
  = Ok (Symbolic.TrainerOf
          [("net_name", PStr "CORnet_Z");
           ("model", PModel (Symbolic.Cornet false 2));
           ("optimizers",
            POptimizers [Symbolic.AdamW (Symbolic.ParametersOf (Symbolic.Cornet false 2))
                                        (1 # 1000)])]).
Proof.
  rewrite (from_config_known_optimizer
             Symbolic.ext "CORnet_Z" 2 "ce" "AdamW" (1 # 1000) (9 # 10) []
             (Symbolic.Cornet false 2)
             (Symbolic.ParametersOf (Symbolic.Cornet false 2))
             (Ok (Symbolic.AdamW (Symbolic.ParametersOf (Symbolic.Cornet false 2))
                                 (1 # 1000)))).
  - reflexivity.
  - reflexivity.
  - reflexivity.
  - intros k _ [].
  - simpl. auto.
Defined.

Lemma from_config_duplicate_keyword_witness :
  from_config Symbolic.ext "alexnet" 2 "ce" "SGD" (1 # 1000) (9 # 10)
              [("optimizers", PExtra tt); ("model", PExtra tt)]
  = Raise (TypeError "model").
Proof.
  apply (from_config_duplicate_keyword
           Symbolic.ext "alexnet" 2 "ce" "SGD" (1 # 1000) (9 # 10)
           [("optimizers", PExtra tt); ("model", PExtra tt)]
           (Symbolic.Alexnet false 2)
           [Symbolic.SGD (Symbolic.ParametersOf (Symbolic.Alexnet false 2))
                         (1 # 1000) (9 # 10)]
           "model"); reflexivity.
Defined.

Lemma from_config_ignored_arguments_witness :
  from_config Symbolic.ext "VGG16" 2 "ce" "Adam" (1 # 1000) (9 # 10) []
  = from_config Symbolic.ext "VGG16" 2 "ce" "Adam" (1 # 1000) (0 # 1) []
  /\ from_config Symbolic.ext "VGG16" 2 "ce" "RMSprop" (1 # 1000) (9 # 10) []
     = from_config Symbolic.ext "VGG16" 2 "ce" "RMSprop" (1 # 10) (0 # 1) [].
Proof.
  destruct (from_config_ignored_arguments
              Symbolic.ext "VGG16" 2 "ce" "ce" "Adam" (1 # 1000) (1 # 1000)
              (9 # 10) (0 # 1) []) as (_ & Hmomentum & _).
  destruct (from_config_ignored_arguments
              Symbolic.ext "VGG16" 2 "ce" "ce" "RMSprop" (1 # 1000) (1 # 10)
              (9 # 10) (0 # 1) []) as (_ & _ & Hrate).
  split.
  - apply Hmomentum. discriminate.
  - apply Hrate. simpl. intros [H | [H | [H | []]]]; discriminate.
Defined.

Lemma symbolic_never_raises : never_raise Symbolic.ext.
Proof. unfold never_raise. simpl. repeat split; intros; eexists; reflexivity. Defined.

Lemma from_config_outcomes_witness :
  In "VGG16" built_nets /\
  forall k, In k added_keywords -> ~ In k (map fst (@nil (string * pyobj Symbolic.model Symbolic.optimizer unit))).
Proof.
  exact (from_config_outcomes Symbolic.ext "VGG16" 2 "ce" "SGD" (1 # 1000) (9 # 10) []
                              symbolic_never_raises).
Defined.

Lemma modes_split_the_paths_witness :
  filter_by_mode "classify" ["/r/alexnet_transfer.gz"; "/r/alexnet_transfer_detect.gz"]
  = Ok ["/r/alexnet_transfer.gz"]
  /\ filter_by_mode "detect" ["/r/alexnet_transfer.gz"; "/r/alexnet_transfer_detect.gz"]
     = Ok ["/r/alexnet_transfer_detect.gz"]
  /\ filter_by_mode "segment" ["/r/alexnet_transfer.gz"; "/r/alexnet_transfer_detect.gz"]
     = Raise (ValueError "invalid mode: segment, must be one of: ['classify']").
Proof.
  destruct (modes_split_the_paths
              ["/r/alexnet_transfer.gz"; "/r/alexnet_transfer_detect.gz"])
    as (c & d & Hc & Hd & _ & _ & Hother).
  split; [reflexivity |]. split; [reflexivity |].
  apply Hother; discriminate.
Defined.

Lemma main_reads_every_combination_witness :
  exists new frames,
    reads (snd (main Demo.E Demo.a Demo.w0)) = (reads Demo.w0 ++ new)%list /\
    map combination_of new
    = [("alexnet", "transfer", "classify"); ("VGG16", "transfer", "classify")] /\
    Forall2 (returns_frame Demo.E) new frames /\
    List.length new = 2%nat /\
    exists rest,
      written (snd (main Demo.E Demo.a Demo.w0))
      = ("/source_data/all.csv", CsvAll (List.concat frames)) :: rest.
Proof.
  destruct (main Demo.E Demo.a Demo.w0) as [r w'] eqn:Hrun.
  assert (Hr : r = Ok tt) by (vm_compute in Hrun; now injection Hrun as <- _).
  subst r.
  destruct (main_reads_every_combination Demo.E Demo.a Demo.w0 w' Hrun)
    as (new & frames & t & Hreads & Hc & Hf & Hlen & _ & _ & _ & rest & Hw & _).
  exists new, frames.
  split; [exact Hreads |]. split; [exact Hc |]. split; [exact Hf |].
  split; [exact Hlen |].
  exists rest. exact Hw.
Defined.

Lemma invalid_mode_is_refused_witness :
  main Demo.E (Demo.run_args ["alexnet"] ["transfer"] ["segment"]) Demo.w0
  = (Raise (ValueError "invalid mode: segment, must be one of: ['classify']"), Demo.w0).
Proof.
  destruct (invalid_mode_is_refused
              Demo.E (Demo.run_args ["alexnet"] ["transfer"] ["segment"]) "segment")
    as (_ & _ & Hreach & _); try discriminate.
  apply (Hreach "alexnet" "transfer"
                ["/results/alexnet_transfer_lr_0.001_results.gz"] Demo.w0 []);
    [reflexivity |].
  split; [reflexivity |].
  exists [], [], [], [], [], []. eexists. eexists. eexists. eexists.
  repeat split; reflexivity.
Defined.

Lemma reads_respect_the_mode_witness :
  exists new,
    reads (snd (main Demo.E Demo.a Demo.w0)) = (reads Demo.w0 ++ new)%list /\
    forall c, In c new ->
      (rc_mode c = "classify" /\ contains "detect" (rc_results_gz_path c) = false) \/
      (rc_mode c = "detect" /\ contains "detect" (rc_results_gz_path c) = true).
Proof.
  destruct (main Demo.E Demo.a Demo.w0) as [r w'] eqn:Hrun.
  destruct (reads_respect_the_mode Demo.E Demo.a Demo.w0 r w' Hrun) as (new & Hnew & Hall).
  exists new. split; [exact Hnew |]. intros c Hc. now apply Hall.
Defined.

Lemma empty_lists_fail_in_concat_witness :
  main Demo.E (Demo.run_args ["alexnet"] ["transfer"] []) Demo.w0
  = (Raise (ValueError "No objects to concatenate"), Demo.w0).
Proof.
  apply empty_lists_fail_in_concat; [reflexivity |].
  right. right. split; [reflexivity |].
  intros method [<- | []]. simpl. auto.
Defined.


(** A net name that is empty gives a pattern that the glob refuses: the
    exception of the glob comes before the look at the mode and at the
    methods that follow. *)
Example main_refused_pattern :
  main Demo.E (Demo.run_args [""] ["transfer"; "bogus"] ["segment"]) Demo.w0
  = (Raise (Propagated "pathlib.Path.glob"
              "Invalid pattern: '**' can only be an entire path component"),
     Demo.w0).
Proof. reflexivity. Qed.

Lemma failed_write_keeps_earlier_files_witness :
  exists t,
    analyse Demo.frames = Ok t /\
    written (snd (main Demo2.E_denied Demo.a Demo.w0))
    = [("/source_data/all.csv", CsvAll (df_all t))].
Proof.
  destruct (main Demo2.E_denied Demo.a Demo.w0) as [r w'] eqn:Hrun.
  assert (Hr : r = Raise (Propagated "DataFrame.to_csv" "Permission denied"))
    by (vm_compute in Hrun; now injection Hrun as <- _).
  subst r.
  destruct (failed_write_keeps_earlier_files _ _ _ _ _ Hrun)
    as (df_list & w1 & t & k & path & content & detail
        & Hread & Ht & _ & Hk & Hfail & _ & Hw & Hbefore).
  { eexists. reflexivity. }
  assert (Hframes : df_list = Demo.frames)
    by (vm_compute in Hread; now injection Hread as <- _).
  subst df_list. exists t. split; [exact Ht |].
  simpl. rewrite Hw.
  destruct k as [| [| k]].
  - injection Hk as <- _. discriminate Hfail.
  - reflexivity.
  - exfalso.
    assert (Hnone : to_csv_error Demo2.E_denied "/source_data/acc_diff.csv" = None).
    { apply (Hbefore 1%nat _ (CsvAccDiff (df_acc_diff t))); [lia | reflexivity]. }
    discriminate Hnone.
Defined.

Lemma analysis_outcome_witness :
  analyse Demo2.frames_without_8
  = Raise (ValueError "can only convert an array of size 1 to a Python scalar")
  /\ exists n s z,
       transfer_row_at (List.concat Demo2.frames_without_8) n s z /\
       ~ (transfer_row_at (List.concat Demo2.frames_without_8) n s 1 /\
          transfer_row_at (List.concat Demo2.frames_without_8) n s 8).
Proof.
  assert (Hne : Demo2.frames_without_8 <> []) by discriminate.
  pose proof (analysis_outcome Demo2.frames_without_8 Hne) as H.
  destruct (analyse Demo2.frames_without_8) as [t | e] eqn:Ha;
    [vm_compute in Ha; discriminate |].
  assert (He : e = ValueError "can only convert an array of size 1 to a Python scalar")
    by (vm_compute in Ha; now injection Ha as <-).
  subst e. split; [reflexivity |].
  destruct H as [[H _] | [[_ H] | [H _]]]; [discriminate | exact H | discriminate].
Defined.

Lemma acc_diff_rows_from_frames_witness :
  exists t,
    analyse Demo.frames = Ok t /\
    exists r, acc_diff_at (df_acc_diff t) "alexnet" "RVvGV" = [r].
Proof.
  destruct (analyse Demo.frames) as [t | e] eqn:H; [| vm_compute in H; discriminate].
  exists t. split; [reflexivity |].
  destruct (acc_diff_rows_from_frames Demo.frames t H) as [Hrow _].
  apply (Hrow "alexnet" "RVvGV" 1).
  exists (Demo.mk "alexnet" "transfer" "RVvGV" 1 (9 # 10)).
  split; [| split; reflexivity].
  apply AnalysisFacts.analyse_Ok_inv in H. destruct H as (Hall & _).
  simpl in Hall. injection Hall as Hall. rewrite <- Hall. simpl. auto.
Defined.

Lemma stim_acc_diff_table_witness :
  map st_stimulus
      (stim_acc_diff
         [ {| ad_net_name := "alexnet"; ad_stimulus := "RVvGV"; set_size_1_acc := 4 # 5;
              set_size_8_acc := 3 # 5; acc_diff := 1 # 5 |};
           {| ad_net_name := "alexnet"; ad_stimulus := "2_v_5"; set_size_1_acc := 1;
              set_size_8_acc := 1 # 2; acc_diff := 1 # 2 |} ])
  = ["2_v_5"; "RVvGV"]
  /\ NoDup ["2_v_5"; "RVvGV"].
Proof.
  split; [reflexivity |].
  exact (proj1 (stim_acc_diff_table
                  [ {| ad_net_name := "alexnet"; ad_stimulus := "RVvGV";
                       set_size_1_acc := 4 # 5; set_size_8_acc := 3 # 5;
                       acc_diff := 1 # 5 |};
                    {| ad_net_name := "alexnet"; ad_stimulus := "2_v_5";
                       set_size_1_acc := 1; set_size_8_acc := 1 # 2;
                       acc_diff := 1 # 2 |} ])).
Defined.

Lemma net_acc_diff_table_witness :
  NoDup (map nt_net_name
             (net_acc_diff
                [ {| ad_net_name := "alexnet"; ad_stimulus := "RVvGV";
                     set_size_1_acc := 4 # 5; set_size_8_acc := 3 # 5;
                     acc_diff := 1 # 5 |};
                  {| ad_net_name := "VGG16"; ad_stimulus := "RVvGV";
                     set_size_1_acc := 1; set_size_8_acc := 1 # 2;
                     acc_diff := 1 # 2 |} ])).
Proof.
  exact (proj1 (net_acc_diff_table
                  [ {| ad_net_name := "alexnet"; ad_stimulus := "RVvGV";
                       set_size_1_acc := 4 # 5; set_size_8_acc := 3 # 5;
                       acc_diff := 1 # 5 |};
                    {| ad_net_name := "VGG16"; ad_stimulus := "RVvGV";
                       set_size_1_acc := 1; set_size_8_acc := 1 # 2;
                       acc_diff := 1 # 2 |} ])).
Defined.

Lemma comma_separated_round_trip_witness :
  comma_separated "alexnet,VGG16" = ["alexnet"; "VGG16"]
  /\ comma_separated "" = [""]
  /\ String.concat "," (comma_separated "a,,b") = "a,,b".
Proof.
  destruct (comma_separated_round_trip "a,,b") as (Hjoin & _ & _ & _).
  destruct (comma_separated_round_trip "") as (_ & _ & _ & Hsplit).
  split; [| split; [reflexivity | exact Hjoin]].
  apply (Hsplit ["alexnet"; "VGG16"]); [discriminate |].
  repeat constructor; simpl; intuition discriminate.
Defined.

Lemma command_line_lists_are_not_empty_witness :
  net_names (with_lists (Some "") None None Demo.a) = [""]
  /\ fst (main Demo.E (with_lists (Some "") None None Demo.a) Demo.w0)
     <> Raise (ValueError "No objects to concatenate").
Proof.
  split; [reflexivity |].
  destruct (command_line_lists_are_not_empty Demo.E Demo.a (Some "") None None)
    as (_ & _ & _ & _ & Hmain).
  destruct (main Demo.E (with_lists (Some "") None None Demo.a) Demo.w0)
    as [r w'] eqn:Hrun.
  exact (Hmain Demo.w0 r w' Hrun).
Defined.

Lemma reads_follow_the_loops_witness :
  exists new rest,
    reads (snd (main Demo.E (Demo.run_args ["alexnet"; "CORnet_Z"; "VGG16"]
                                           ["transfer"] ["classify"]) Demo.w0))
    = (reads Demo.w0 ++ new)%list /\
    [("alexnet", "transfer", "classify"); ("CORnet_Z", "transfer", "classify");
     ("VGG16", "transfer", "classify")]
    = (map combination_of new ++ rest)%list.
Proof.
  destruct (main Demo.E (Demo.run_args ["alexnet"; "CORnet_Z"; "VGG16"]
                                       ["transfer"] ["classify"]) Demo.w0)
    as [r w'] eqn:Hrun.
  destruct (reads_follow_the_loops _ _ _ _ _ Hrun) as (new & rest & Hr & Hc & _).
  exists new, rest. split; [exact Hr | exact Hc].
Defined.

End ExtraRuns.
